(** * QA Kit core: a shallow embedding of the diagnostic modules

    This development embeds the four core modules of QA Kit
    ([src/core/failure-classifier.ts], [src/core/page-health.ts] (which holds
    both the page health scorer and the resource guard) and
    [src/core/evidence-collector.ts]) as executable Rocq definitions and
    proves properties of them.

    Conventions of the embedding:
    - a JavaScript [number] that the code only counts, compares or uses as a
      status code or a millisecond value is a [Z]; the classifier's
      confidence, which is accumulated from decimal fractions, is an IEEE 754
      binary64 value ([PrimFloat.float]), exactly as in JavaScript;
    - an optional field ([field?: T]) is an [option];
    - [console.log] output is not part of the model;
    - a stateful method is a function from the state before the call (and
      the values it reads from its environment) to the state after it;
    - a method reads the clock once per call: the successive [Date.now()]
      and [new Date()] readings of one call are taken to agree. *)

From Stdlib Require Import ZArith QArith Qround Bool List Lia.
From Stdlib Require Import Strings.String Strings.Ascii.
From Stdlib Require Import Floats.PrimFloat.
From stdpp Require Import base option list strings pretty gmap.

Set Warnings "-inexact-float".

Import ListNotations.
Local Open Scope string_scope.
Local Open Scope list_scope.
Local Open Scope Z_scope.

(** ** JavaScript primitives used by the sources *)

Module JS.

(** [String.prototype.includes]: [needle] occurs in [s] as a substring
    (case-sensitive, as in JavaScript). *)
Fixpoint includes (s needle : string) : bool :=
  String.prefix needle s ||
  match s with
  | EmptyString => false
  | String _ rest => includes rest needle
  end.

(** [o?.includes(needle)] used as a condition: [undefined] is falsy. *)
Definition opt_includes (o : option string) (needle : string) : bool :=
  match o with
  | Some s => includes s needle
  | None => false
  end.

(** [xs?.some(p)] used as a condition. *)
Definition opt_some {A} (o : option (list A)) (p : A -> bool) : bool :=
  match o with
  | Some xs => existsb p xs
  | None => false
  end.

(** [xs?.filter(p) || []]. *)
Definition opt_filter {A} (o : option (list A)) (p : A -> bool) : list A :=
  match o with
  | Some xs => List.filter p xs
  | None => []
  end.

(** Truthiness of a number: [0] is falsy (there is no [NaN] in [Z]). *)
Definition truthy (z : Z) : bool := negb (z =? 0).

(** [a || d] where [a] is an optional number: [undefined] and [0] both
    select [d]. *)
Definition or_default (a : option Z) (d : Z) : Z :=
  match a with
  | Some z => if truthy z then z else d
  | None => d
  end.

(** [Math.min] on two doubles. *)
Definition Math_min (a b : float) : float :=
  if is_nan a || is_nan b then nan
  else if (a <? b)%float then a else b.

(** Template-literal rendering of an array length. *)
Definition show_nat (n : nat) : string := pretty n.

End JS.

(** ** Failure classifier ([src/core/failure-classifier.ts]) *)

Module FailureClassifier.
Import JS.

Record NetworkFailure := {
  nf_url : string;
  nf_status : Z;
  nf_statusText : string;
  nf_failure : option string
}.

Record ConsoleError := {
  ce_type : string;
  ce_text : string;
  ce_location : option string;
  ce_timestamp : Z
}.

Record Navigation := { loadEventEnd : Z; domContentLoaded : Z }.
Record Memory := { usedJSHeapSize : Z; totalJSHeapSize : Z }.
Record Timing := {
  firstContentfulPaint : option Z;
  largestContentfulPaint : option Z
}.

Record PerformanceMetrics := {
  navigation : option Navigation;
  memory : option Memory;
  timing : option Timing
}.

Record Evidence := {
  errorMessage : option string;
  networkFailures : option (list NetworkFailure);
  consoleErrors : option (list ConsoleError);
  performanceMetrics : option PerformanceMetrics;
  screenshot : option string;
  domSnapshot : option string;
  url : string;
  timestamp : string
}.

Inductive ClassificationType :=
| TestFlake | AppRegression | EnvironmentIssue | DataProblem.

Record Classification := {
  type : ClassificationType;
  confidence : float;
  reasons : list string;
  recommendation : list string;
  fixable : bool
}.

(** [FullClassification extends Classification]: the winner's five fields
    (the object spread [...bestMatch]) plus the two extra fields. *)
Record FullClassification := {
  bestMatch :> Classification;
  allClassifications : list Classification;
  analysisTimestamp : string
}.

(** The running pair [(confidence, reasons)] of a heuristic, and one
    [if (cond) { confidence += delta; reasons.push(reason) }] step. *)
Definition Score : Type := float * list string.

Definition start : Score := (0%float, []).

Definition when (cond : bool) (delta : float) (reason : string)
    (s : Score) : Score :=
  if cond then ((fst s + delta)%float, snd s ++ [reason]) else s.

Definition getFlakeRecommendation (reasons : list string) : list string :=
  let r1 :=
    if existsb (fun r => includes r "timeout") reasons
    then ["Increase timeout values for slow operations";
          "Add explicit waits for element visibility"]
    else [] in
  let r2 :=
    if existsb (fun r => includes r "Element not found") reasons
    then ["Use more reliable selectors (data-test attributes)";
          "Wait for element to be both visible and stable"]
    else [] in
  let r3 :=
    if existsb (fun r => includes r "Network timeout") reasons
    then ["Add network request retries";
          "Check API response time expectations"]
    else [] in
  let recommendations := r1 ++ r2 ++ r3 in
  if (0 <? length recommendations)%nat then recommendations
  else ["Add explicit waits and improve selector stability"].

Definition getAppRegressionRecommendation (evidence : Evidence)
    : list string :=
  let r1 :=
    if opt_some (consoleErrors evidence)
         (fun e => includes (ce_text e) "TypeError")
    then ["Check for undefined variables or null references";
          "Verify object properties exist before accessing"]
    else [] in
  let r2 :=
    if opt_some (networkFailures evidence) (fun f => 500 <=? nf_status f)
    then ["Check server logs for backend errors";
          "Verify API endpoint functionality"]
    else [] in
  let r3 :=
    if opt_some (networkFailures evidence) (fun f => nf_status f =? 404)
    then ["Verify API route exists and is properly defined";
          "Check for route parameter formatting"]
    else [] in
  let recommendations := r1 ++ r2 ++ r3 in
  if (0 <? length recommendations)%nat then recommendations
  else ["Review application logs and recent code changes"].

Definition getEnvironmentRecommendation (reasons : list string)
    : list string :=
  let r1 :=
    if existsb (fun r => includes r "Connection refused") reasons
    then ["Verify the application server is running";
          "Check if the correct port is being used"]
    else [] in
  let r2 :=
    if existsb (fun r => includes r "DNS resolution") reasons
    then ["Check network connectivity";
          "Verify hostname/URL configuration"]
    else [] in
  let r3 :=
    if existsb (fun r => includes r "Browser session") reasons
    then ["Check browser driver compatibility";
          "Verify sufficient system resources"]
    else [] in
  let recommendations := r1 ++ r2 ++ r3 in
  if (0 <? length recommendations)%nat then recommendations
  else ["Check system resources and network connectivity"].

Definition getDataRecommendation (reasons : list string) : list string :=
  let r1 :=
    if existsb (fun r => includes r "Authentication failure") reasons
    then ["Verify test credentials are correct";
          "Check if authentication tokens are expired"]
    else [] in
  let r2 :=
    if existsb (fun r => includes r "not found") reasons
    then ["Ensure test data is properly seeded";
          "Verify database is in correct state"]
    else [] in
  let recommendations := r1 ++ r2 in
  if (0 <? length recommendations)%nat then recommendations
  else ["Check test data setup and database state"].

(** [(a?.some(..) || b?.some(..)) ?? false]. *)
Definition isObviousAppFix (evidence : Evidence) : bool :=
  opt_some (consoleErrors evidence)
    (fun e => includes (ce_text e) "Cannot read property")
  || opt_some (networkFailures evidence)
       (fun f => (nf_status f =? 404) && includes (nf_url f) "/api/").

Definition classifyAsTestFlake (evidence : Evidence) : Classification :=
  let msg := errorMessage evidence in
  let s := start in
  let s := when (opt_includes msg "timeout")
             0.6 "Contains timeout error" s in
  let s := when (opt_includes msg "Element not found")
             0.4 "Element not found - possibly race condition" s in
  let s := when (opt_some (networkFailures evidence)
                   (fun f => opt_includes (nf_failure f) "timeout"))
             0.3 "Network timeout detected" s in
  let s := when (opt_includes msg "not visible"
                 || opt_includes msg "not attached")
             0.5 "Element visibility/attachment issue" s in
  let s := when (opt_some (consoleErrors evidence)
                   (fun e => includes (ce_text e) "animation"
                             || includes (ce_text e) "transition"))
             0.2 "Animation/transition interference detected" s in
  {| type := TestFlake;
     confidence := Math_min (fst s) 0.95;
     reasons := snd s;
     recommendation := getFlakeRecommendation (snd s);
     fixable := true |}.

(** The JavaScript errors counted by the first rule of the regression
    heuristic; the rule is only entered when [consoleErrors?.length > 0]. *)
Definition appErrors (evidence : Evidence) : list ConsoleError :=
  opt_filter (consoleErrors evidence)
    (fun e => includes (ce_text e) "TypeError"
              || includes (ce_text e) "ReferenceError"
              || includes (ce_text e) "Cannot read property").

Definition serverErrors (evidence : Evidence) : list NetworkFailure :=
  opt_filter (networkFailures evidence) (fun f => 500 <=? nf_status f).

Definition clientErrors (evidence : Evidence) : list NetworkFailure :=
  opt_filter (networkFailures evidence)
    (fun f => (400 <=? nf_status f) && (nf_status f <? 500)).

Definition classifyAsAppRegression (evidence : Evidence) : Classification :=
  let s := start in
  let s := when (0 <? length (appErrors evidence))%nat
             0.7 (show_nat (length (appErrors evidence))
                  +:+ " JavaScript errors detected") s in
  let s := when (0 <? length (serverErrors evidence))%nat
             0.8 (show_nat (length (serverErrors evidence))
                  +:+ " server errors (5xx)") s in
  let s := when (0 <? length (clientErrors evidence))%nat
             0.6 (show_nat (length (clientErrors evidence))
                  +:+ " client errors (4xx)") s in
  let s := when (opt_some (consoleErrors evidence)
                   (fun e => includes (ce_text e) "React"
                             || includes (ce_text e) "Vue"
                             || includes (ce_text e) "component"))
             0.5 "Frontend framework error detected" s in
  {| type := AppRegression;
     confidence := Math_min (fst s) 0.95;
     reasons := snd s;
     recommendation := getAppRegressionRecommendation evidence;
     fixable := (0.8 <? fst s)%float && isObviousAppFix evidence |}.

(** [m?.memory?.usedJSHeapSize && m.memory.usedJSHeapSize > 100000000]. *)
Definition highMemory (evidence : Evidence) : bool :=
  match performanceMetrics evidence with
  | Some m =>
      match memory m with
      | Some mem =>
          truthy (usedJSHeapSize mem) && (100000000 <? usedJSHeapSize mem)
      | None => false
      end
  | None => false
  end.

Definition classifyAsEnvironmentIssue (evidence : Evidence)
    : Classification :=
  let msg := errorMessage evidence in
  let nfs := networkFailures evidence in
  let s := start in
  let s := when (opt_some nfs
                   (fun f => opt_includes (nf_failure f) "ECONNREFUSED"))
             0.9 "Connection refused - service may be down" s in
  let s := when (opt_some nfs
                   (fun f => opt_includes (nf_failure f)
                               "net::ERR_CONNECTION_RESET"))
             0.8 "Connection reset - network instability" s in
  let s := when (opt_some nfs
                   (fun f => opt_includes (nf_failure f) "ENOTFOUND"))
             0.9 "DNS resolution failed" s in
  let s := when (opt_includes msg "Session closed"
                 || opt_includes msg "browser has been closed")
             0.8 "Browser session terminated unexpectedly" s in
  let s := when (highMemory evidence)
             0.3 "High memory usage detected" s in
  {| type := EnvironmentIssue;
     confidence := Math_min (fst s) 0.95;
     reasons := snd s;
     recommendation := getEnvironmentRecommendation (snd s);
     fixable := false |}.

Definition classifyAsDataProblem (evidence : Evidence) : Classification :=
  let msg := errorMessage evidence in
  let nfs := networkFailures evidence in
  let s := start in
  let s := when (opt_some nfs (fun f => nf_status f =? 401))
             0.7 "Authentication failure detected" s in
  let s := when (opt_includes msg "not found"
                 && opt_some nfs (fun f => nf_status f =? 404))
             0.6 "Test data not found (404)" s in
  let s := when (opt_some nfs (fun f => nf_status f =? 503))
             0.5 "Service unavailable - possible database issue" s in
  let s := when (opt_some nfs (fun f => nf_status f =? 422))
             0.4 "Validation error - data format issue" s in
  {| type := DataProblem;
     confidence := Math_min (fst s) 0.95;
     reasons := snd s;
     recommendation := getDataRecommendation (snd s);
     fixable := false |}.

(** [classifications.reduce((best, current) =>
      current.confidence > best.confidence ? current : best)]:
    without an initial value the fold starts at the first element. *)
Definition pickBest (best current : Classification) : Classification :=
  if (confidence best <? confidence current)%float then current else best.

Definition candidates (evidence : Evidence) : list Classification :=
  [ classifyAsTestFlake evidence;
    classifyAsAppRegression evidence;
    classifyAsEnvironmentIssue evidence;
    classifyAsDataProblem evidence ].

(** [classify]; [now] is the [new Date().toISOString()] read at the end. *)
Definition classify (now : string) (evidence : Evidence)
    : FullClassification :=
  let classifications := candidates evidence in
  let bestMatch :=
    fold_left pickBest (tl classifications)
      (classifyAsTestFlake evidence) in
  {| bestMatch := bestMatch;
     allClassifications := classifications;
     analysisTimestamp := now |}.

End FailureClassifier.

(** ** Page health scorer ([src/core/page-health.ts], first part) *)

Module PageHealth.
Import JS.

Inductive Severity := low | medium | high.

Record AccessibilityIssue := {
  issue_type : string;
  count : Z;
  elements : option (list string);
  severity : Severity
}.

Record HeapInfo := {
  usedJSHeapSize : Z;
  totalJSHeapSize : Z;
  jsHeapSizeLimit : Z
}.

(** Timings are [DOMHighResTimeStamp]s: fractional milliseconds. *)
Record PerformanceMetrics := {
  domContentLoaded : option Q;
  loadComplete : option Q;
  firstPaint : option Q;
  firstContentfulPaint : option Q;
  memory : option HeapInfo;
  resourceCount : Z;
  pm_timestamp : Z
}.

Record PageHealthMetrics := {
  m_consoleErrors : Z;
  m_networkFailures : Z;
  m_firstContentfulPaint : option Q;
  m_accessibilityIssues : Z;
  performanceScore : Z;
  errorScore : Z;
  accessibilityScore : Z
}.

Record PageHealthReport := {
  score : Z;
  issues : list string;
  recommendations : list string;
  metrics : PageHealthMetrics;
  url : string;
  timestamp : string
}.

Record ConsoleEntry := {
  entry_type : string;
  entry_text : string;
  entry_timestamp : Z
}.

Record FailureEntry := {
  failure_url : string;
  failure_status : option Z;
  failure_reason : option string;
  failure_timestamp : Z
}.

(** The private fields of the scorer. *)
Record PageHealthScorer := {
  consoleErrors : list ConsoleEntry;
  networkFailures : list FailureEntry;
  startTime : Z
}.

(** What the in-page accessibility script finds in the document:
    the [src] of every image without alternative text, the number of
    unlabelled inputs and of unnamed buttons, and the level of every
    heading. *)
Record Document := {
  imagesWithoutAlt : list string;
  inputsWithoutLabels : nat;
  buttonsWithoutText : nat;
  headings : list nat
}.

(** The page session as the scorer sees it: [None] stands for a
    [page.evaluate] call that throws. *)
Record Page := {
  page_url : string;
  page_performance : option PerformanceMetrics;
  page_document : option Document
}.

Definition reset (now : Z) : PageHealthScorer :=
  {| consoleErrors := []; networkFailures := []; startTime := now |}.

Definition constructor (now : Z) : PageHealthScorer := reset now.

(** The four listeners registered by [attachToPage]. *)
Definition onConsole (now : Z) (type text : string)
    (s : PageHealthScorer) : PageHealthScorer :=
  if String.eqb type "error" || String.eqb type "warning"
  then {| consoleErrors :=
            consoleErrors s ++
            [{| entry_type := type; entry_text := text;
                entry_timestamp := now |}];
          networkFailures := networkFailures s;
          startTime := startTime s |}
  else s.

Definition onPageError (now : Z) (message : string)
    (s : PageHealthScorer) : PageHealthScorer :=
  {| consoleErrors :=
       consoleErrors s ++
       [{| entry_type := "error"; entry_text := message;
           entry_timestamp := now |}];
     networkFailures := networkFailures s;
     startTime := startTime s |}.

Definition onResponse (now : Z) (status : Z) (url : string)
    (s : PageHealthScorer) : PageHealthScorer :=
  if 400 <=? status
  then {| consoleErrors := consoleErrors s;
          networkFailures :=
            networkFailures s ++
            [{| failure_url := url; failure_status := Some status;
                failure_reason := None; failure_timestamp := now |}];
          startTime := startTime s |}
  else s.

(** [request.failure()?.errorText || 'Unknown failure']. *)
Definition onRequestFailed (now : Z) (url : string)
    (errorText : option string) (s : PageHealthScorer)
    : PageHealthScorer :=
  let reason :=
    match errorText with
    | Some t => if String.eqb t "" then "Unknown failure" else t
    | None => "Unknown failure"
    end in
  {| consoleErrors := consoleErrors s;
     networkFailures :=
       networkFailures s ++
       [{| failure_url := url; failure_status := None;
           failure_reason := Some reason; failure_timestamp := now |}];
     startTime := startTime s |}.

(** [try { return await page.evaluate(..) } catch { return null }]. *)
Definition capturePerformanceMetrics (page : Page)
    : option PerformanceMetrics :=
  page_performance page.

Definition lengthZ {A} (l : list A) : Z := Z.of_nat (length l).

Definition h1Count (d : Document) : nat :=
  length (List.filter (Nat.eqb 1) (headings d)).

(** The in-page script of [checkAccessibilityIssues]; a throwing
    [page.evaluate] yields the empty list. *)
Definition checkAccessibilityIssues (page : Page)
    : list AccessibilityIssue :=
  match page_document page with
  | None => []
  | Some d =>
      (if (0 <? length (imagesWithoutAlt d))%nat
       then [{| issue_type := "missing-alt-text";
                count := lengthZ (imagesWithoutAlt d);
                elements := Some (firstn 5 (imagesWithoutAlt d));
                severity := medium |}]
       else [])
      ++ (if (0 <? inputsWithoutLabels d)%nat
          then [{| issue_type := "missing-form-labels";
                   count := Z.of_nat (inputsWithoutLabels d);
                   elements := None; severity := high |}]
          else [])
      ++ (if (0 <? buttonsWithoutText d)%nat
          then [{| issue_type := "unlabeled-buttons";
                   count := Z.of_nat (buttonsWithoutText d);
                   elements := None; severity := high |}]
          else [])
      ++ (if (length (headings d) =? 0)%nat
          then [{| issue_type := "missing-headings"; count := 1;
                   elements := None; severity := low |}]
          else if (h1Count d =? 0)%nat
          then [{| issue_type := "missing-h1"; count := 1;
                   elements := None; severity := medium |}]
          else if (1 <? h1Count d)%nat
          then [{| issue_type := "multiple-h1";
                   count := Z.of_nat (h1Count d);
                   elements := None; severity := low |}]
          else [])
  end.

(** The recency filter [(Date.now() - timestamp) < 5000]; the clock is
    read once per assessment. *)
Definition recent (now timestamp : Z) : bool := now - timestamp <? 5000.

(** The reducer of the accessibility penalty.  The [default] branch of
    the source's [switch] is unreachable for a value of type
    ['low' | 'medium' | 'high']. *)
Definition addPenalty (penalty : Z) (issue : AccessibilityIssue) : Z :=
  match severity issue with
  | high => penalty + count issue * 10
  | medium => penalty + count issue * 5
  | low => penalty + count issue * 2
  end.

(** [fcp && fcp > 3000] on an optional number. *)
Definition slowPaint (m : option PerformanceMetrics) : bool :=
  match m with
  | Some pm =>
      match firstContentfulPaint pm with
      | Some fcp => negb (Qeq_bool fcp 0) && negb (Qle_bool fcp 3000)
      | None => false
      end
  | None => false
  end.

(** [s.replace('-', ' ')]: only the first hyphen is replaced. *)
Fixpoint replaceFirstHyphen (s : string) : string :=
  match s with
  | EmptyString => EmptyString
  | String c rest =>
      if Ascii.eqb c "-"%char then String " "%char rest
      else String c (replaceFirstHyphen rest)
  end.

Definition showZ (z : Z) : string := pretty z.

(** Running state of [assessPageHealth]: the three mutable locals
    [score], [issues] and [recommendations].  All scores are integers, on
    which the source's final [Math.round] is the identity. *)
Record Tally := {
  t_score : Z;
  t_issues : list string;
  t_recommendations : list string
}.

Definition deduct (penalty : Z) (new_issues : list string)
    (advice : string) (t : Tally) : Tally :=
  {| t_score := t_score t - penalty;
     t_issues := t_issues t ++ new_issues;
     t_recommendations := t_recommendations t ++ [advice] |}.

Definition assessPageHealth (now : Z) (isoNow : string)
    (self : PageHealthScorer) (page : Page) : PageHealthReport :=
  let t := {| t_score := 100; t_issues := []; t_recommendations := [] |} in
  let performanceMetrics := capturePerformanceMetrics page in
  let recentErrors :=
    List.filter (fun e => recent now (entry_timestamp e))
      (consoleErrors self) in
  let errorScore :=
    if (0 <? length recentErrors)%nat
    then Z.max 0 (100 - lengthZ recentErrors * 10) else 100 in
  let t :=
    if (0 <? length recentErrors)%nat
    then deduct (lengthZ recentErrors * 10)
           [showZ (lengthZ recentErrors) +:+ " console errors detected"]
           "Check console for JavaScript errors and warnings" t
    else t in
  let recentFailures :=
    List.filter (fun f => recent now (failure_timestamp f))
      (networkFailures self) in
  let t :=
    if (0 <? length recentFailures)%nat
    then deduct (lengthZ recentFailures * 15)
           [showZ (lengthZ recentFailures) +:+ " network failures detected"]
           "Review failed network requests and API endpoints" t
    else t in
  let performanceScore :=
    if slowPaint performanceMetrics then 100 - 20 else 100 in
  let t :=
    if slowPaint performanceMetrics
    then deduct 20 ["Slow first contentful paint (>3s)"]
           "Optimize page loading performance and resource sizes" t
    else t in
  let accessibilityIssues := checkAccessibilityIssues page in
  let totalPenalty := fold_left addPenalty accessibilityIssues 0 in
  let accessibilityScore :=
    if (0 <? length accessibilityIssues)%nat
    then Z.max 0 (100 - totalPenalty) else 100 in
  let t :=
    if (0 <? length accessibilityIssues)%nat
    then deduct totalPenalty
           (List.map
              (fun issue =>
                 showZ (count issue) +:+ " "
                 +:+ replaceFirstHyphen (issue_type issue) +:+ " issues")
              accessibilityIssues)
           "Improve accessibility by adding missing labels and alt text" t
    else t in
  let score := Z.max 0 (t_score t) in
  {| score := score;
     issues := t_issues t;
     recommendations := t_recommendations t;
     metrics :=
       {| m_consoleErrors := lengthZ recentErrors;
          m_networkFailures := lengthZ recentFailures;
          m_firstContentfulPaint :=
            match performanceMetrics with
            | Some pm => firstContentfulPaint pm
            | None => None
            end;
          m_accessibilityIssues :=
            fold_left (fun total issue => total + count issue)
              accessibilityIssues 0;
          performanceScore := performanceScore;
          errorScore := errorScore;
          accessibilityScore := accessibilityScore |};
     url := page_url page;
     timestamp := isoNow |}.

Definition getCurrentErrors (now : Z) (self : PageHealthScorer)
    : Z * Z * Z * Z :=
  (lengthZ (consoleErrors self),
   lengthZ (networkFailures self),
   lengthZ (List.filter (fun e => recent now (entry_timestamp e))
              (consoleErrors self)),
   lengthZ (List.filter (fun f => recent now (failure_timestamp f))
              (networkFailures self))).

End PageHealth.

(** ** Effects: state, exceptions, process exit and pending promises *)

Module Eff.

(** How an awaited call ends, with the state it leaves behind:
    it returns, it throws (a rejected promise), the process exits, or the
    awaited promise never settles. *)
Inductive Outcome (St E A : Type) :=
| Returned (a : A) (st : St)
| Thrown (e : E) (st : St)
| Exited (code : Z) (st : St)
| Pending (st : St).

Arguments Returned {St E A} a st.
Arguments Thrown {St E A} e st.
Arguments Exited {St E A} code st.
Arguments Pending {St E A} st.

Definition M (St E A : Type) : Type := St -> Outcome St E A.

Definition ret {St E A} (a : A) : M St E A := fun st => Returned a st.

Definition bind {St E A B} (m : M St E A) (k : A -> M St E B)
    : M St E B :=
  fun st =>
    match m st with
    | Returned a st' => k a st'
    | Thrown e st' => Thrown e st'
    | Exited c st' => Exited c st'
    | Pending st' => Pending st'
    end.

Definition throw {St E A} (e : E) : M St E A := fun st => Thrown e st.

Definition exit {St E A} (code : Z) : M St E A :=
  fun st => Exited code st.

Definition get {St E} : M St E St := fun st => Returned st st.

Definition modify {St E} (f : St -> St) : M St E unit :=
  fun st => Returned tt (f st).

(** [try { body } catch (error) { handler(error) }]. *)
Definition try_catch {St E A} (body : M St E A) (handler : E -> M St E A)
    : M St E A :=
  fun st =>
    match body st with
    | Thrown e st' => handler e st'
    | other => other
    end.

Definition final_state {St E A} (o : Outcome St E A) : St :=
  match o with
  | Returned _ st | Thrown _ st | Exited _ st | Pending st => st
  end.

Module Notations.
Notation "x <- m ;; k" := (bind m (fun x => k))
  (at level 100, m at next level, right associativity).
Notation "m ;;; k" := (bind m (fun _ => k))
  (at level 100, right associativity).
End Notations.

End Eff.

(** ** Resource guard ([src/core/page-health.ts], second part) *)

Module ResourceGuard.
Import JS Eff Eff.Notations.

Record ResourceLimits := {
  maxRunTime : Z;
  maxMemoryMB : Z;
  maxRetries : Z;
  maxHealingAttempts : Z;
  maxConcurrentTests : Z;
  testTimeout : Z;
  pageTimeout : Z;
  elementTimeout : Z;
  networkTimeout : Z;
  screenshotTimeout : Z
}.

(** [Partial<ResourceLimits>]. *)
Record PartialLimits := {
  p_maxRunTime : option Z;
  p_maxMemoryMB : option Z;
  p_maxRetries : option Z;
  p_maxHealingAttempts : option Z;
  p_maxConcurrentTests : option Z;
  p_testTimeout : option Z;
  p_pageTimeout : option Z;
  p_elementTimeout : option Z;
  p_networkTimeout : option Z;
  p_screenshotTimeout : option Z
}.

Definition noCustomLimits : PartialLimits :=
  {| p_maxRunTime := None; p_maxMemoryMB := None; p_maxRetries := None;
     p_maxHealingAttempts := None; p_maxConcurrentTests := None;
     p_testTimeout := None; p_pageTimeout := None;
     p_elementTimeout := None; p_networkTimeout := None;
     p_screenshotTimeout := None |}.

Record ResourceStats := {
  startTime : Z;
  startMemory : Z;
  testsRun : Z;
  retriesUsed : Z;
  healingAttempts : Z;
  resourceWarnings : Z
}.

Inductive BreakerState := CLOSED | OPEN | HALF_OPEN.

Record CircuitBreakerState := {
  failures : Z;
  threshold : Z;
  timeout : Z;
  state : BreakerState;
  lastFailure : option Z
}.

(** The private fields of a guard; [monitoringInterval] tells whether the
    periodic timer is armed. *)
Record Guard := {
  limits : ResourceLimits;
  stats : ResourceStats;
  circuitBreaker : CircuitBreakerState;
  monitoringInterval : bool
}.

Inductive Event :=
| EvInvoke                     (* [operation()] is called *)
| EvSleep (ms : Z)             (* [await this.sleep(ms)] *)
| EvGarbageCollect             (* [global.gc()] *)
| EvClearInterval.             (* [clearInterval(monitoringInterval)] *)

Inductive Error :=
| OperationError (message : string)
| TimedOut (name : string) (timeout : Z)
| Undefined.                   (* [throw lastError!] with nothing caught *)

(** The guard together with the parts of its process it reads and writes:
    the clock ([Date.now()]), the heap ([process.memoryUsage()]), whether
    [global.gc] exists, the state [ext] that guarded operations act on,
    and the trace of observable actions. *)
Record World (S : Type) := {
  guard : Guard;
  clock : Z;
  heapUsed : Z;
  heapTotal : Z;
  gcExposed : bool;
  ext : S;
  trace : list Event
}.

Arguments guard {S} w.
Arguments clock {S} w.
Arguments heapUsed {S} w.
Arguments heapTotal {S} w.
Arguments gcExposed {S} w.
Arguments ext {S} w.
Arguments trace {S} w.

Section Methods.
Context {S : Type}.

Abbreviation World := (World S).
Abbreviation M := (M World Error).

Definition set_guard (g : Guard) (w : World) : World :=
  {| guard := g; clock := clock w; heapUsed := heapUsed w;
     heapTotal := heapTotal w; gcExposed := gcExposed w;
     ext := ext w; trace := trace w |}.

Definition set_clock (t : Z) (w : World) : World :=
  {| guard := guard w; clock := t; heapUsed := heapUsed w;
     heapTotal := heapTotal w; gcExposed := gcExposed w;
     ext := ext w; trace := trace w |}.

Definition set_heapUsed (h : Z) (w : World) : World :=
  {| guard := guard w; clock := clock w; heapUsed := h;
     heapTotal := heapTotal w; gcExposed := gcExposed w;
     ext := ext w; trace := trace w |}.

Definition set_ext (s : S) (w : World) : World :=
  {| guard := guard w; clock := clock w; heapUsed := heapUsed w;
     heapTotal := heapTotal w; gcExposed := gcExposed w;
     ext := s; trace := trace w |}.

Definition log_event (ev : Event) (w : World) : World :=
  {| guard := guard w; clock := clock w; heapUsed := heapUsed w;
     heapTotal := heapTotal w; gcExposed := gcExposed w;
     ext := ext w; trace := trace w ++ [ev] |}.

Definition set_stats (s : ResourceStats) (g : Guard) : Guard :=
  {| limits := limits g; stats := s;
     circuitBreaker := circuitBreaker g;
     monitoringInterval := monitoringInterval g |}.

Definition set_breaker (b : CircuitBreakerState) (g : Guard) : Guard :=
  {| limits := limits g; stats := stats g; circuitBreaker := b;
     monitoringInterval := monitoringInterval g |}.

Definition set_interval (armed : bool) (g : Guard) : Guard :=
  {| limits := limits g; stats := stats g;
     circuitBreaker := circuitBreaker g;
     monitoringInterval := armed |}.

Definition this : M Guard := fun w => Returned (guard w) w.
Definition Date_now : M Z := fun w => Returned (clock w) w.
Definition update (f : Guard -> Guard) : M unit :=
  modify (fun w => set_guard (f (guard w)) w).
Definition emit (ev : Event) : M unit := modify (log_event ev).

(** The object spread [{ ...defaults, ...customLimits }]. *)
Definition defaultLimits (suiteType : string) (custom : PartialLimits)
    : ResourceLimits :=
  {| maxRunTime :=
       default (if String.eqb suiteType "full"
                then 30 * 60 * 1000 else 10 * 60 * 1000)
         (p_maxRunTime custom);
     maxMemoryMB := default 512 (p_maxMemoryMB custom);
     maxRetries := default 3 (p_maxRetries custom);
     maxHealingAttempts := default 2 (p_maxHealingAttempts custom);
     maxConcurrentTests := default 1 (p_maxConcurrentTests custom);
     testTimeout := default 60000 (p_testTimeout custom);
     pageTimeout := default 30000 (p_pageTimeout custom);
     elementTimeout := default 15000 (p_elementTimeout custom);
     networkTimeout := default 30000 (p_networkTimeout custom);
     screenshotTimeout := default 5000 (p_screenshotTimeout custom) |}.

(** [new ResourceGuard(suiteType, customLimits)], constructed when the
    clock shows [now] and the heap holds [heap] bytes. *)
Definition constructor (suiteType : string) (custom : PartialLimits)
    (now heap : Z) : Guard :=
  {| limits := defaultLimits suiteType custom;
     stats := {| startTime := now; startMemory := heap; testsRun := 0;
                 retriesUsed := 0; healingAttempts := 0;
                 resourceWarnings := 0 |};
     circuitBreaker := {| failures := 0; threshold := 5;
                          timeout := 60000; state := CLOSED;
                          lastFailure := None |};
     monitoringInterval := true |}.

Definition emergencyShutdown {A} (reason : string) : M A :=
  g <- this ;;
  (if monitoringInterval g then emit EvClearInterval else ret tt) ;;;
  exit 1.

Definition handleResourceLimit {A} (reason : string) : M A :=
  emergencyShutdown reason.

Definition handleShutdown {A} (signal : string) : M A := exit 0.

(** [memory.heapUsed / 1024 / 1024], a fractional number of megabytes. *)
Definition memoryMB (heap : Z) : Q := inject_Z heap / 1024 / 1024.

Definition overMemory (g : Guard) (heap : Z) : bool :=
  negb (Qle_bool (memoryMB heap) (inject_Z (maxMemoryMB (limits g)))).

Definition bumpWarnings (g : Guard) : Guard :=
  let s := stats g in
  set_stats {| startTime := startTime s; startMemory := startMemory s;
               testsRun := testsRun s; retriesUsed := retriesUsed s;
               healingAttempts := healingAttempts s;
               resourceWarnings := resourceWarnings s + 1 |} g.

(** [lastFailure && Date.now() - lastFailure > timeout]. *)
Definition cooldownExpired (now : Z) (b : CircuitBreakerState) : bool :=
  match lastFailure b with
  | Some t => truthy t && (timeout b <? now - t)
  | None => false
  end.

Definition halfOpen (b : CircuitBreakerState) : CircuitBreakerState :=
  {| failures := failures b; threshold := threshold b;
     timeout := timeout b; state := HALF_OPEN;
     lastFailure := lastFailure b |}.

(** The third block of the monitor: the circuit-breaker cooldown. *)
Definition checkCircuitBreaker : M unit :=
  g <- this ;;
  match state (circuitBreaker g) with
  | OPEN =>
      now <- Date_now ;;
      if cooldownExpired now (circuitBreaker g)
      then update (set_breaker (halfOpen (circuitBreaker g)))
      else ret tt
  | _ => ret tt
  end.

(** The body of the periodic monitor (armed every 5000 ms by
    [startResourceMonitoring]). *)
Definition checkResourceLimits : M unit :=
  g <- this ;;
  now <- Date_now ;;
  w <- get ;;
  let runtime := now - startTime (stats g) in
  if maxRunTime (limits g) <? runtime
  then handleResourceLimit "MAX_RUNTIME"
  else
    (if overMemory g (heapUsed w)
     then
       update bumpWarnings ;;;
       g' <- this ;;
       if 3 <? resourceWarnings (stats g')
       then handleResourceLimit "MAX_MEMORY"
       else if gcExposed w then emit EvGarbageCollect else ret tt
     else ret tt) ;;;
    checkCircuitBreaker.

Definition canProceed : M bool :=
  g <- this ;;
  match state (circuitBreaker g) with
  | OPEN => ret false
  | _ => ret true
  end.

Definition recordCircuitBreakerFailure : M unit :=
  update (fun g =>
    let b := circuitBreaker g in
    set_breaker {| failures := failures b + 1; threshold := threshold b;
                   timeout := timeout b; state := state b;
                   lastFailure := lastFailure b |} g) ;;;
  g <- this ;;
  let b := circuitBreaker g in
  if threshold b <=? failures b
  then
    now <- Date_now ;;
    update (set_breaker {| failures := failures b;
                           threshold := threshold b;
                           timeout := timeout b; state := OPEN;
                           lastFailure := Some now |})
  else ret tt.

Definition recordCircuitBreakerSuccess : M unit :=
  update (fun g =>
    let b := circuitBreaker g in
    set_breaker {| failures := 0; threshold := threshold b;
                   timeout := timeout b;
                   state := match state b with
                            | HALF_OPEN => CLOSED
                            | s => s
                            end;
                   lastFailure := lastFailure b |} g).

Definition canAttemptHealing : M bool :=
  g <- this ;;
  ret (negb (maxHealingAttempts (limits g)
             <=? healingAttempts (stats g))).

Definition recordHealingAttempt : M unit :=
  update (fun g =>
    let s := stats g in
    set_stats {| startTime := startTime s; startMemory := startMemory s;
                 testsRun := testsRun s; retriesUsed := retriesUsed s;
                 healingAttempts := healingAttempts s + 1;
                 resourceWarnings := resourceWarnings s |} g).

Definition incrementTestCount : M unit :=
  update (fun g =>
    let s := stats g in
    set_stats {| startTime := startTime s; startMemory := startMemory s;
                 testsRun := testsRun s + 1;
                 retriesUsed := retriesUsed s;
                 healingAttempts := healingAttempts s;
                 resourceWarnings := resourceWarnings s |} g).

Definition bumpRetries (g : Guard) : Guard :=
  let s := stats g in
  set_stats {| startTime := startTime s; startMemory := startMemory s;
               testsRun := testsRun s;
               retriesUsed := retriesUsed s + 1;
               healingAttempts := healingAttempts s;
               resourceWarnings := resourceWarnings s |} g.

(** [await this.sleep(ms)]: the timer is taken to fire on time. *)
Definition sleep (ms : Z) : M unit :=
  emit (EvSleep ms) ;;;
  modify (fun w => set_clock (clock w + ms) w).

(** A guarded operation [() => Promise<T>], run on the state it acts on:
    its promise settles after [elapsed] ms with a value or an error, or
    never settles ([None]). *)
Record Settled (T : Type) := {
  elapsed : Z;
  result : Error + T
}.

Arguments elapsed {T} s.
Arguments result {T} s.

Definition Operation (T : Type) : Type := S -> option (Settled T) * S.

(** [await operation()]. *)
Definition await {T} (operation : Operation T) : M (Error + T) :=
  emit EvInvoke ;;;
  fun w =>
    let '(run, s') := operation (ext w) in
    match run with
    | Some r =>
        Returned (result r) (set_clock (clock w + elapsed r) (set_ext s' w))
    | None => Pending (set_ext s' w)
    end.

(** The delay Node gives a [setTimeout]: a value below 1 or above
    2^31 - 1 is replaced by 1. *)
Definition timerDelay (ms : Z) : Z :=
  if (ms <? 1) || (2147483647 <? ms) then 1 else ms.

(** [withTimeout]: the operation is started and raced against a timer.
    The operation wins when it settles before the timer fires; otherwise
    the promise is rejected with the timeout error, and what the operation
    did to its state stays done. *)
Definition withTimeout {T} (operation : Operation T) (name : string)
    (timeoutMs : option Z) : M T :=
  g <- this ;;
  let timeout := or_default timeoutMs (testTimeout (limits g)) in
  emit EvInvoke ;;;
  fun w =>
    let '(run, s') := operation (ext w) in
    let w' := set_ext s' w in
    match run with
    | Some r =>
        if elapsed r <? timerDelay timeout
        then
          match result r with
          | inr value => Returned value (set_clock (clock w + elapsed r) w')
          | inl error => Thrown error (set_clock (clock w + elapsed r) w')
          end
        else Thrown (TimedOut name timeout)
               (set_clock (clock w + timerDelay timeout) w')
    | None =>
        Thrown (TimedOut name timeout)
          (set_clock (clock w + timerDelay timeout) w')
    end.

(** [Math.min(1000 * Math.pow(2, attempt - 1), 10000)]. *)
Definition backoffMs (attempt : Z) : Z :=
  Z.min (1000 * 2 ^ (attempt - 1)) 10000.

(** The values taken by [attempt] in
    [for (let attempt = 1; attempt <= retries; attempt++)]. *)
Definition attemptNumbers (retries : Z) : list Z :=
  List.map Z.of_nat (seq 1 (Z.to_nat retries)).

(** The loop of [withRetry] over the remaining values of [attempt];
    running off its end is the final [throw lastError!]. *)
Fixpoint retryLoop {T} (operation : Operation T) (retries : Z)
    (attempts : list Z) (lastError : option Error) : M T :=
  match attempts with
  | [] => throw (default Undefined lastError)
  | attempt :: rest =>
      r <- await operation ;;
      match r with
      | inr value => ret value
      | inl error =>
          update bumpRetries ;;;
          if attempt =? retries
          then recordCircuitBreakerFailure ;;; throw error
          else sleep (backoffMs attempt) ;;;
               retryLoop operation retries rest (Some error)
      end
  end.

Definition withRetry {T} (operation : Operation T) (name : string)
    (maxRetries_ : option Z) : M T :=
  g <- this ;;
  let retries := or_default maxRetries_ (maxRetries (limits g)) in
  retryLoop operation retries (attemptNumbers retries) None.

End Methods.

Arguments elapsed {T} s.
Arguments result {T} s.

End ResourceGuard.

(** ** Evidence collector ([src/core/evidence-collector.ts]) *)

Module EvidenceCollector.
Import JS Eff Eff.Notations.

Record FailureInfo := {
  name : string;
  error : string;
  failure_type : option string
}.

Record ScreenshotEvidence := {
  ss_path : string;
  ss_type : string;
  ss_captured : bool;
  ss_error : option string
}.

Record DOMSnapshotEvidence := {
  dom_path : string;
  dom_size : Z;
  dom_captured : bool;
  dom_error : option string
}.

Record ConsoleErrorRecord := {
  cer_type : string;
  cer_message : option string;
  cer_location : option string;
  cer_timestamp : Z;
  cer_stack : option string
}.

Record ConsoleErrorsEvidence := {
  ce_count : Z;
  ce_errors : list ConsoleErrorRecord;
  ce_captured : option bool;
  ce_error : option string
}.

Record NetworkFailureRecord := {
  nfr_url : option string;
  nfr_status : option Z;
  nfr_error : option string;
  nfr_timestamp : Z
}.

Record NetworkFailuresEvidence := {
  nf_count : Z;
  nf_failures : list NetworkFailureRecord;
  nf_captured : option bool;
  nf_error : option string
}.

(** The value measured inside the page by the performance script. *)
Record PerformanceData := {
  navigation : option (list Q);
  paint : list (string * Q);
  resources_total : Z;
  resources_byType : list (string * Z);
  slowRequests : list (string * Q);
  memory : option (Z * Z * Z);
  pd_timestamp : Z
}.

Record PerformanceMetricsEvidence := {
  pm_data : PerformanceData;
  pm_captured : option bool;
  pm_error : option string
}.

Record StorageData := {
  localStorage : list (string * string);
  sessionStorage : list (string * string);
  cookies : string
}.

Record StorageStateEvidence := {
  st_data : StorageData;
  st_captured : option bool;
  st_error : option string
}.

Record AccessibilityData := {
  interactiveElements : list string;
  headings : list (Z * string * bool);
  title : string;
  lang : string;
  hasSkipLink : bool
}.

Record AccessibilityEvidence := {
  ax_data : AccessibilityData;
  ax_captured : option bool;
  ax_error : option string
}.

Record EvidenceBundle := {
  id : string;
  timestamp : string;
  testName : string;
  errorMessage : string;
  url : string;
  viewport : option (Z * Z);
  userAgent : string;
  screenshot : option ScreenshotEvidence;
  domSnapshot : option DOMSnapshotEvidence;
  consoleErrors : option ConsoleErrorsEvidence;
  networkFailures : option NetworkFailuresEvidence;
  performanceMetrics : option PerformanceMetricsEvidence;
  localStorage_ : option StorageStateEvidence;
  accessibility : option AccessibilityEvidence
}.

(** What a file holds: the value whose serialisation was written. *)
Inductive FileContent :=
| Image
| Html (text : string)
| ManifestJson (bundle : EvidenceBundle)
| ConsoleErrorsJson (v : ConsoleErrorsEvidence)
| NetworkFailuresJson (v : NetworkFailuresEvidence)
| PerformanceJson (v : PerformanceData)
| StorageJson (v : StorageData)
| AccessibilityJson (v : AccessibilityData).

(** Durable storage: the files written so far, the directories that exist,
    and for each path the error (if any) with which creating or writing it
    fails. *)
Record Disk := {
  files : gmap string FileContent;
  directories : list string;
  failing : string -> option string
}.

(** Entries of the untyped [page._consoleErrors] and
    [page._networkFailures] arrays. *)
Record RawConsoleError := {
  raw_type : option string;
  raw_text : option string;
  raw_message : option string;
  raw_location : option string;
  raw_timestamp : option Z;
  raw_stackTrace : option string
}.

Record RawNetworkFailure := {
  rawf_url : option string;
  rawf_status : option Z;
  rawf_failure : option string;
  rawf_timestamp : option Z
}.

(** The page session as the collector uses it; [inl message] is a call that
    throws an error with that message. *)
Record Page := {
  page_url : string;
  page_viewportSize : option (Z * Z);
  page_userAgent : string + string;
  page_screenshot : string + unit;
  page_cleanHTML : string + string;
  page_consoleErrors : option (list RawConsoleError);
  page_networkFailures : option (list RawNetworkFailure);
  page_performance : string + PerformanceData;
  page_storageState : string + StorageData;
  page_a11ySnapshot : string + AccessibilityData
}.

(** The two readings of the clock: [new Date().toISOString()] and
    [Date.now()]. *)
Record Clock := { iso : string; millis : Z }.

Abbreviation M := (M Disk string).

(** [path.join(dir, file)] for a directory and a plain file name. *)
Definition path_join (dir file : string) : string := dir +:+ "/" +:+ file.

(** The proper ancestors of a path, outermost first: ["a"] and ["a/b"]
    for ["a/b/c"], ["/a"] for ["/a/b"]. [seen] is the part of the path
    already read. *)
Fixpoint ancestorsFrom (seen rest : string) : list string :=
  match rest with
  | EmptyString => []
  | String c rest' =>
      (if Ascii.eqb c "/" && negb (String.eqb seen "") then [seen] else [])
      ++ ancestorsFrom (seen +:+ String c EmptyString) rest'
  end.

Definition ancestors (path : string) : list string :=
  ancestorsFrom "" path.

(** Making one directory: nothing happens when it exists. *)
Definition create (existing : list string) (dir : string) : list string :=
  if existsb (String.eqb dir) existing then existing else existing ++ [dir].

(** The disk after a successful [fs.mkdir(dir, { recursive: true })]: the
    missing ancestors are made, outermost first, and then the directory
    itself. *)
Definition made (dir : string) (d : Disk) : Disk :=
  {| files := files d;
     directories := fold_left create (ancestors dir ++ [dir]) (directories d);
     failing := failing d |}.

(** [fs.mkdir(dir, { recursive: true })]. *)
Definition fs_mkdir (dir : string) : M unit :=
  fun d =>
    match failing d dir with
    | Some message => Thrown message d
    | None => Returned tt (made dir d)
    end.

Definition fs_writeFile (path : string) (content : FileContent) : M unit :=
  fun d =>
    match failing d path with
    | Some message => Thrown message d
    | None =>
        Returned tt {| files := <[path := content]> (files d);
                       directories := directories d;
                       failing := failing d |}
    end.

(** [await] of a page call. *)
Definition page_call {A} (r : string + A) : M A :=
  match r with
  | inl message => throw message
  | inr a => ret a
  end.

Definition is_alnum (c : ascii) : bool :=
  let n := nat_of_ascii c in
  ((48 <=? n) && (n <=? 57) || (65 <=? n) && (n <=? 90)
   || (97 <=? n) && (n <=? 122))%nat.

Definition to_lower (c : ascii) : ascii :=
  let n := nat_of_ascii c in
  if ((65 <=? n) && (n <=? 90))%nat then ascii_of_nat (n + 32) else c.

Fixpoint map_chars (f : ascii -> ascii) (s : string) : string :=
  match s with
  | EmptyString => EmptyString
  | String c rest => String (f c) (map_chars f rest)
  end.

(** [new Date().toISOString().replace(/[:.]/g, '-')] followed by
    [name.replace(/[^a-zA-Z0-9]/g, '-').toLowerCase()]. A character of the
    embedding stands for one code unit of the JavaScript string, which is
    exact for a name of ASCII characters. *)
Definition generateEvidenceId (clock : Clock) (failure : FailureInfo)
    : string :=
  let timestamp :=
    map_chars (fun c => if Ascii.eqb c ":" || Ascii.eqb c "."
                        then "-"%char else c) (iso clock) in
  let testName :=
    map_chars to_lower
      (map_chars (fun c => if is_alnum c then c else "-"%char)
         (name failure)) in
  timestamp +:+ "-" +:+ testName.

Definition captureScreenshot (page : Page) (evidenceDir : string)
    : M ScreenshotEvidence :=
  try_catch
    (let screenshotPath := path_join evidenceDir "failure-screenshot.png" in
     page_call (page_screenshot page) ;;;
     fs_writeFile screenshotPath Image ;;;
     ret {| ss_path := screenshotPath; ss_type := "full-page";
            ss_captured := true; ss_error := None |})
    (fun errorMessage =>
       ret {| ss_path := ""; ss_type := ""; ss_captured := false;
              ss_error := Some errorMessage |}).

Definition captureDOMSnapshot (page : Page) (evidenceDir : string)
    : M DOMSnapshotEvidence :=
  try_catch
    (let snapshotPath := path_join evidenceDir "dom-snapshot.html" in
     cleanHTML <- page_call (page_cleanHTML page) ;;
     fs_writeFile snapshotPath (Html cleanHTML) ;;;
     ret {| dom_path := snapshotPath;
            dom_size := Z.of_nat (String.length cleanHTML);
            dom_captured := true; dom_error := None |})
    (fun errorMessage =>
       ret {| dom_path := ""; dom_size := 0; dom_captured := false;
              dom_error := Some errorMessage |}).

(** [a || b] on optional strings: [undefined] and the empty string are
    falsy. *)
Definition or_string (a b : option string) : option string :=
  match a with
  | Some s => if String.eqb s "" then b else a
  | None => b
  end.

Definition captureConsoleErrors (clock : Clock) (page : Page)
    (evidenceDir : string) : M ConsoleErrorsEvidence :=
  try_catch
    (let errors := default [] (page_consoleErrors page) in
     let errorData :=
       {| ce_count := Z.of_nat (length errors);
          ce_errors :=
            List.map
              (fun e =>
                 {| cer_type :=
                      default "error" (or_string (raw_type e) None);
                    cer_message := or_string (raw_text e) (raw_message e);
                    cer_location := raw_location e;
                    cer_timestamp :=
                      or_default (raw_timestamp e) (millis clock);
                    cer_stack := raw_stackTrace e |})
              errors;
          ce_captured := None; ce_error := None |} in
     fs_writeFile (path_join evidenceDir "console-errors.json")
       (ConsoleErrorsJson errorData) ;;;
     ret errorData)
    (fun errorMessage =>
       ret {| ce_count := 0; ce_errors := []; ce_captured := Some false;
              ce_error := Some errorMessage |}).

Definition captureNetworkFailures (clock : Clock) (page : Page)
    (evidenceDir : string) : M NetworkFailuresEvidence :=
  try_catch
    (let failures := default [] (page_networkFailures page) in
     let networkData :=
       {| nf_count := Z.of_nat (length failures);
          nf_failures :=
            List.map
              (fun f =>
                 {| nfr_url := rawf_url f;
                    nfr_status := rawf_status f;
                    nfr_error := rawf_failure f;
                    nfr_timestamp :=
                      or_default (rawf_timestamp f) (millis clock) |})
              failures;
          nf_captured := None; nf_error := None |} in
     fs_writeFile (path_join evidenceDir "network-failures.json")
       (NetworkFailuresJson networkData) ;;;
     ret networkData)
    (fun errorMessage =>
       ret {| nf_count := 0; nf_failures := []; nf_captured := Some false;
              nf_error := Some errorMessage |}).

Definition capturePerformanceMetrics (clock : Clock) (page : Page)
    (evidenceDir : string) : M PerformanceMetricsEvidence :=
  try_catch
    (metrics <- page_call (page_performance page) ;;
     fs_writeFile (path_join evidenceDir "performance-metrics.json")
       (PerformanceJson metrics) ;;;
     ret {| pm_data := metrics; pm_captured := None; pm_error := None |})
    (fun errorMessage =>
       ret {| pm_data :=
                {| navigation := None; paint := []; resources_total := 0;
                   resources_byType := []; slowRequests := [];
                   memory := None; pd_timestamp := millis clock |};
              pm_captured := Some false;
              pm_error := Some errorMessage |}).

Definition captureLocalStorageState (page : Page) (evidenceDir : string)
    : M StorageStateEvidence :=
  try_catch
    (storageState <- page_call (page_storageState page) ;;
     fs_writeFile (path_join evidenceDir "storage-state.json")
       (StorageJson storageState) ;;;
     ret {| st_data := storageState; st_captured := None;
            st_error := None |})
    (fun errorMessage =>
       ret {| st_data := {| localStorage := []; sessionStorage := [];
                            cookies := "" |};
              st_captured := Some false;
              st_error := Some errorMessage |}).

Definition captureAccessibilityTree (page : Page) (evidenceDir : string)
    : M AccessibilityEvidence :=
  try_catch
    (a11ySnapshot <- page_call (page_a11ySnapshot page) ;;
     fs_writeFile (path_join evidenceDir "accessibility-tree.json")
       (AccessibilityJson a11ySnapshot) ;;;
     ret {| ax_data := a11ySnapshot; ax_captured := None;
            ax_error := None |})
    (fun errorMessage =>
       ret {| ax_data := {| interactiveElements := []; headings := [];
                            title := ""; lang := ""; hasSkipLink := false |};
              ax_captured := Some false;
              ax_error := Some errorMessage |}).

(** One entry of [Promise.allSettled]: a rejection is turned into a value
    (the source only logs it and leaves the bundle's field unset). *)
Definition settled {A} (m : M A) : M (option A) :=
  try_catch (a <- m ;; ret (Some a)) (fun _ => ret None).

(** [collect].  The seven captures are started together and write seven
    different files; they are run here in the order of the array. *)
Definition collect (evidenceRoot : string) (clock : Clock) (page : Page)
    (failure : FailureInfo) : M EvidenceBundle :=
  let evidenceId := generateEvidenceId clock failure in
  let evidenceDir := path_join evidenceRoot evidenceId in
  fs_mkdir evidenceDir ;;;
  agent <- page_call (page_userAgent page) ;;
  r0 <- settled (captureScreenshot page evidenceDir) ;;
  r1 <- settled (captureDOMSnapshot page evidenceDir) ;;
  r2 <- settled (captureConsoleErrors clock page evidenceDir) ;;
  r3 <- settled (captureNetworkFailures clock page evidenceDir) ;;
  r4 <- settled (capturePerformanceMetrics clock page evidenceDir) ;;
  r5 <- settled (captureLocalStorageState page evidenceDir) ;;
  r6 <- settled (captureAccessibilityTree page evidenceDir) ;;
  let evidence :=
    {| id := evidenceId;
       timestamp := iso clock;
       testName := name failure;
       errorMessage := error failure;
       url := page_url page;
       viewport := page_viewportSize page;
       userAgent := agent;
       screenshot := r0;
       domSnapshot := r1;
       consoleErrors := r2;
       networkFailures := r3;
       performanceMetrics := r4;
       localStorage_ := r5;
       accessibility := r6 |} in
  fs_writeFile (path_join evidenceDir "evidence.json")
    (ManifestJson evidence) ;;;
  ret evidence.

End EvidenceCollector.

(** ** Page health scorer: the observation summary
    ([src/core/page-health.ts]) *)

Module PageHealthSummary.
Import JS PageHealth.

Record ObservationSummary := {
  totalConsoleErrors : Z;
  totalNetworkFailures : Z;
  observationDuration : Z;
  errorsByType : gmap string Z;
  failuresByStatus : gmap string Z
}.

(** [acc[key] = (acc[key] || 0) + 1]. *)
Definition countInto (acc : gmap string Z) (key : string) : gmap string Z :=
  <[key := default 0 (acc !! key) + 1]> acc.

(** [failure.status ? failure.status.toString() : 'failed']. *)
Definition statusKey (f : FailureEntry) : string :=
  match failure_status f with
  | Some status => if truthy status then pretty status else "failed"
  | None => "failed"
  end.

Definition getObservationSummary (now : Z) (self : PageHealthScorer)
    : ObservationSummary :=
  {| totalConsoleErrors := lengthZ (consoleErrors self);
     totalNetworkFailures := lengthZ (networkFailures self);
     observationDuration := now - startTime self;
     errorsByType :=
       fold_left (fun acc error => countInto acc (entry_type error))
         (consoleErrors self) ∅;
     failuresByStatus :=
       fold_left (fun acc failure => countInto acc (statusKey failure))
         (networkFailures self) ∅ |}.

End PageHealthSummary.

(** ** Resource guard: usage reports and the pre-flight check
    ([src/core/page-health.ts]) *)

Module ResourceGuardReports.
Import JS Eff Eff.Notations ResourceGuard.

(** [Math.round] of a fraction: the nearest integer, halves upwards. *)
Definition Math_round (q : Q) : Z := Qfloor (q + (1 # 2)).

Record ResourceUsage := {
  usage_runtime : Z;
  usage_memoryMB : Z;
  usage_testsRun : Z;
  usage_retriesUsed : Z;
  usage_healingAttempts : Z;
  usage_circuitBreakerState : BreakerState
}.

(** The five entries of the record returned by [isWithinLimits]. *)
Record WithinLimits := {
  within_runtime : bool;
  within_memory : bool;
  within_retries : bool;
  within_healing : bool;
  within_circuitBreaker : bool
}.

Section Reports.
Context {S : Type}.

Definition getResourceUsage (w : World S) : ResourceUsage :=
  let g := guard w in
  let runtime := clock w - startTime (stats g) in
  {| usage_runtime := Math_round (inject_Z runtime / 1000);
     usage_memoryMB := Math_round (memoryMB (heapUsed w));
     usage_testsRun := testsRun (stats g);
     usage_retriesUsed := retriesUsed (stats g);
     usage_healingAttempts := healingAttempts (stats g);
     usage_circuitBreakerState := state (circuitBreaker g) |}.

Definition Qltb (a b : Q) : bool := negb (Qle_bool b a).

Definition isWithinLimits (w : World S) : WithinLimits :=
  let g := guard w in
  let usage := getResourceUsage w in
  {| within_runtime :=
       Qltb (inject_Z (usage_runtime usage))
         (inject_Z (maxRunTime (limits g)) / 1000);
     within_memory := usage_memoryMB usage <? maxMemoryMB (limits g);
     within_retries :=
       usage_retriesUsed usage <? maxRetries (limits g) * 10;
     within_healing :=
       usage_healingAttempts usage <? maxHealingAttempts (limits g);
     within_circuitBreaker :=
       match state (circuitBreaker g) with
       | OPEN => false
       | _ => true
       end |}.

(** [validateEnvironment]: the value returned is the [memory] entry of the
    checks (the other entries are copied from [process] unchanged). *)
Definition validateEnvironment : M (World S) Error Z :=
  fun w =>
    let memory := Math_round (memoryMB (heapTotal w)) in
    if memory <? 32
    then Thrown (OperationError
                   "Insufficient memory available (minimum 32MB required)") w
    else Returned memory w.

End Reports.

End ResourceGuardReports.

(** ** Evidence collector: evidence of an unexpected error
    ([src/core/evidence-collector.ts]) *)

Module ErrorCapture.
Import JS Eff Eff.Notations.
Import EvidenceCollector.

(** The [Error] object passed in. *)
Record JsError := { message : string; stack : option string }.

Record ErrorEvidence := {
  ee_id : string;
  ee_timestamp : string;
  ee_type : string;
  ee_message : string;
  ee_stack : option string;
  ee_url : string;
  ee_screenshot : option string
}.

(** What a file of an error directory holds. *)
Inductive ErrorFile :=
| ErrorScreenshot
| ErrorManifestJson (evidence : ErrorEvidence).

Record ErrorDisk := {
  efiles : gmap string ErrorFile;
  edirectories : list string;
  efailing : string -> option string
}.

Abbreviation ME := (Eff.M ErrorDisk string).

(** [fs.mkdir(dir, { recursive: true })]: the missing ancestors are made,
    and then the directory itself. *)
Definition mkdir (dir : string) : ME unit :=
  fun d =>
    match efailing d dir with
    | Some message => Thrown message d
    | None =>
        Returned tt {| efiles := efiles d;
                       edirectories :=
                         fold_left create (ancestors dir ++ [dir])
                           (edirectories d);
                       efailing := efailing d |}
    end.

Definition writeFile (path : string) (content : ErrorFile) : ME unit :=
  fun d =>
    match efailing d path with
    | Some message => Thrown message d
    | None =>
        Returned tt {| efiles := <[path := content]> (efiles d);
                       edirectories := edirectories d;
                       efailing := efailing d |}
    end.

Definition call {A} (r : string + A) : ME A :=
  match r with
  | inl message => throw message
  | inr a => ret a
  end.

(** [captureError]; [random] is the text of
    [Math.random().toString(36).substr(2, 9)]. The [try] block assigns
    [errorEvidence.screenshot] after the screenshot has been written. *)
Definition captureError (evidenceRoot : string) (clock : Clock)
    (random : string) (page : Page) (error : JsError) : ME ErrorEvidence :=
  let errorId := "error-" +:+ pretty (millis clock) +:+ "-" +:+ random in
  let evidenceDir := path_join evidenceRoot errorId in
  mkdir evidenceDir ;;;
  let errorEvidence :=
    {| ee_id := errorId;
       ee_timestamp := iso clock;
       ee_type := "UnexpectedError";
       ee_message := message error;
       ee_stack := stack error;
       ee_url := page_url page;
       ee_screenshot := None |} in
  errorEvidence <-
    try_catch
      (call (page_screenshot page) ;;;
       writeFile (path_join evidenceDir "error-screenshot.png")
         ErrorScreenshot ;;;
       ret {| ee_id := ee_id errorEvidence;
              ee_timestamp := ee_timestamp errorEvidence;
              ee_type := ee_type errorEvidence;
              ee_message := ee_message errorEvidence;
              ee_stack := ee_stack errorEvidence;
              ee_url := ee_url errorEvidence;
              ee_screenshot := Some "error-screenshot.png" |})
      (fun _ => ret errorEvidence) ;;
  writeFile (path_join evidenceDir "error-evidence.json")
    (ErrorManifestJson errorEvidence) ;;;
  ret errorEvidence.

End ErrorCapture.

(** * Properties *)

(** ** Failure classifier *)

Module ClassifierProofs.
Import JS FailureClassifier.

(** A confidence lies in the closed interval from 0 to 0.95 (comparisons of
    doubles, as JavaScript performs them). *)
Definition bounded (c : float) : Prop :=
  (0 <=? c)%float = true /\ (c <=? 0.95)%float = true.

Definition blankEvidence : Evidence :=
  {| errorMessage := None; networkFailures := None; consoleErrors := None;
     performanceMetrics := None; screenshot := None; domSnapshot := None;
     url := "http://localhost:3000/";
     timestamp := "2024-01-01T00:00:00.000Z" |}.

Definition timeoutEvidence : Evidence :=
  {| errorMessage := Some "Timeout 30000ms exceeded waiting for selector";
     networkFailures := None; consoleErrors := None;
     performanceMetrics := None; screenshot := None; domSnapshot := None;
     url := "http://localhost:3000/";
     timestamp := "2024-01-01T00:00:00.000Z" |}.

Definition lowercaseTimeoutEvidence : Evidence :=
  {| errorMessage := Some "Test timeout of 30000ms exceeded";
     networkFailures := None; consoleErrors := None;
     performanceMetrics := None; screenshot := None; domSnapshot := None;
     url := "http://localhost:3000/";
     timestamp := "2024-01-01T00:00:00.000Z" |}.

(** Evidence whose only signal is one network failure with the given
    status. *)
Definition statusEvidence (status : Z) (failureUrl statusText : string)
    (pageUrl stamp : string) : Evidence :=
  {| errorMessage := None;
     networkFailures :=
       Some [{| nf_url := failureUrl; nf_status := status;
                nf_statusText := statusText; nf_failure := None |}];
     consoleErrors := None; performanceMetrics := None;
     screenshot := None; domSnapshot := None;
     url := pageUrl; timestamp := stamp |}.

Definition regressionEvidence : Evidence :=
  {| errorMessage := None;
     networkFailures :=
       Some [{| nf_url := "http://localhost:3000/api/items";
                nf_status := 500; nf_statusText := "Internal Server Error";
                nf_failure := None |}];
     consoleErrors :=
       Some [{| ce_type := "error";
                ce_text := "TypeError: Cannot read property of undefined";
                ce_location := None; ce_timestamp := 1700000000000 |}];
     performanceMetrics := None; screenshot := None; domSnapshot := None;
     url := "http://localhost:3000/";
     timestamp := "2024-01-01T00:00:00.000Z" |}.

(** Decide every condition of a heuristic: after this the accumulated
    confidence is a closed sum of doubles. *)
Ltac decide_conditions :=
  unfold when, start;
  repeat match goal with
         | |- context [if ?b then _ else _] => destruct b
         end;
  cbn [fst snd].

Lemma flake_bounded (e : Evidence) :
  bounded (confidence (classifyAsTestFlake e)).
Proof.
  unfold classifyAsTestFlake; cbn [confidence].
  decide_conditions; split; reflexivity.
Qed.

Lemma regression_bounded (e : Evidence) :
  bounded (confidence (classifyAsAppRegression e)).
Proof.
  unfold classifyAsAppRegression; cbn [confidence].
  decide_conditions; split; reflexivity.
Qed.

Lemma environment_bounded (e : Evidence) :
  bounded (confidence (classifyAsEnvironmentIssue e)).
Proof.
  unfold classifyAsEnvironmentIssue; cbn [confidence].
  decide_conditions; split; reflexivity.
Qed.

Lemma data_bounded (e : Evidence) :
  bounded (confidence (classifyAsDataProblem e)).
Proof.
  unfold classifyAsDataProblem; cbn [confidence].
  decide_conditions; split; reflexivity.
Qed.

Lemma pickBest_cases (a b : Classification) :
  pickBest a b = a \/ pickBest a b = b.
Proof. unfold pickBest. destruct (_ <? _)%float; auto. Qed.

(** The winner is one of the four candidates. *)
Lemma winner_is_candidate (now : string) (e : Evidence) :
  In (bestMatch (classify now e)) (candidates e).
Proof.
  unfold classify, candidates; cbn [bestMatch tl fold_left].
  repeat match goal with
         | |- context [pickBest ?a ?b] =>
             destruct (pickBest_cases a b) as [-> | ->]
         end;
  cbn [In]; auto.
Qed.

(** C1. For every evidence record, [classify] returns the four candidates
    TestFlake, AppRegression, EnvironmentIssue and DataProblem, each with a
    confidence between 0 and 0.95, and the confidence of the winning
    classification is between 0 and 0.95 as well, however many scoring
    conditions match. *)
Theorem classify_confidence_bounded (now : string) (e : Evidence) :
  List.map type (allClassifications (classify now e))
    = [TestFlake; AppRegression; EnvironmentIssue; DataProblem]
  /\ Forall (fun c => bounded (confidence c))
       (allClassifications (classify now e))
  /\ bounded (confidence (classify now e)).
Proof.
  assert (Hall : Forall (fun c => bounded (confidence c)) (candidates e)).
  { unfold candidates.
    repeat apply Forall_cons; try apply Forall_nil;
      auto using flake_bounded, regression_bounded,
        environment_bounded, data_bounded. }
  split; [reflexivity | split; [exact Hall |]].
  rewrite List.Forall_forall in Hall.
  apply Hall, winner_is_candidate.
Qed.

(** C2 (behaviour of the code on the input of the claim). With the error
    message "Timeout 30000ms exceeded waiting for selector" as the only
    signal, the case-sensitive search for "timeout" does not match the
    capitalised word: every candidate scores 0, the winner is the first
    candidate (TestFlake) with confidence 0, and its list of reasons is
    empty. *)
Theorem classify_capitalised_timeout (now : string) :
  type (classify now timeoutEvidence) = TestFlake
  /\ confidence (classify now timeoutEvidence) = 0%float
  /\ reasons (classify now timeoutEvidence) = []
  /\ List.map confidence (allClassifications (classify now timeoutEvidence))
     = [0; 0; 0; 0]%float
  /\ includes "Timeout 30000ms exceeded waiting for selector" "timeout"
     = false.
Proof. repeat split; vm_compute; reflexivity. Qed.

(** The same rule on a message that spells the word in lower case: the
    TestFlake heuristic scores 0.6 and wins, with a reason that mentions
    "timeout". *)
Lemma classify_lowercase_timeout (now : string) :
  type (classify now lowercaseTimeoutEvidence) = TestFlake
  /\ confidence (classify now lowercaseTimeoutEvidence) = 0.6%float
  /\ reasons (classify now lowercaseTimeoutEvidence)
     = ["Contains timeout error"]
  /\ existsb (fun r => includes r "timeout")
       (reasons (classify now lowercaseTimeoutEvidence)) = true.
Proof. repeat split; vm_compute; reflexivity. Qed.

(** C7. When the only signal is a single network failure with status 401,
    the winner is DataProblem with confidence 0.7 (the double nearest to
    0.7); the AppRegression candidate scores 0.6 through its 4xx rule and
    is beaten, and the two other candidates score 0. *)
Theorem classify_unauthorized
    (now failureUrl statusText pageUrl stamp : string) :
  let e := statusEvidence 401 failureUrl statusText pageUrl stamp in
  type (classify now e) = DataProblem
  /\ confidence (classify now e) = 0.7%float
  /\ reasons (classify now e) = ["Authentication failure detected"]
  /\ List.map confidence (allClassifications (classify now e))
     = [0; 0.6; 0; 0.7]%float
  /\ (confidence (classifyAsAppRegression e)
      <? confidence (classifyAsDataProblem e))%float = true.
Proof. repeat split; vm_compute; reflexivity. Qed.

(** C8 fails as stated: on evidence with a "Cannot read property" console
    error and a 500 response, the AppRegression candidate is the winner and
    its [fixable] flag is true. *)
Lemma fixable_regression_counterexample :
  let c := classifyAsAppRegression regressionEvidence in
  let full := classify "2024-01-01T00:00:00.000Z" regressionEvidence in
  In c (allClassifications full)
  /\ type c = AppRegression
  /\ fixable c = true
  /\ type full = AppRegression
  /\ fixable full = true.
Proof.
  split; [right; left; reflexivity |].
  repeat split; vm_compute; reflexivity.
Qed.

Lemma regression_fixable_rule (e : Evidence) :
  fixable (classifyAsAppRegression e)
  = (0.8 <? confidence (classifyAsAppRegression e))%float
    && isObviousAppFix e.
Proof.
  unfold classifyAsAppRegression; cbn [confidence fixable].
  decide_conditions; reflexivity.
Qed.

(** C8 (amended). For every evidence record: the TestFlake candidate is
    always fixable; the EnvironmentIssue and DataProblem candidates never
    are; the AppRegression candidate is fixable exactly when its confidence
    exceeds 0.8 and the evidence shows an obvious pattern (a console error
    containing "Cannot read property", or a 404 failure whose URL contains
    "/api/"). Hence a fixable classification is a TestFlake or such an
    AppRegression. *)
Theorem fixable_rule (now : string) (e : Evidence) :
  fixable (classifyAsTestFlake e) = true
  /\ fixable (classifyAsEnvironmentIssue e) = false
  /\ fixable (classifyAsDataProblem e) = false
  /\ fixable (classifyAsAppRegression e)
     = (0.8 <? confidence (classifyAsAppRegression e))%float
       && isObviousAppFix e
  /\ (forall c, In c (allClassifications (classify now e)) ->
       fixable c = true ->
       type c = TestFlake
       \/ (type c = AppRegression
           /\ (0.8 <? confidence c)%float = true
           /\ isObviousAppFix e = true)).
Proof.
  repeat split; try reflexivity; try apply regression_fixable_rule.
  intros c Hin Hfix.
  cbn [classify allClassifications candidates In] in Hin.
  destruct Hin as [<- | [<- | [<- | [<- | []]]]].
  - left; reflexivity.
  - right. rewrite regression_fixable_rule in Hfix.
    apply andb_true_iff in Hfix. destruct Hfix as [Hc Ho].
    repeat split; assumption.
  - discriminate Hfix.
  - discriminate Hfix.
Qed.

End ClassifierProofs.

(** ** Page health scorer *)

Module PageHealthProofs.
Import JS PageHealth.

(** *** The score as the specification words it *)

Definition weight (s : Severity) : Z :=
  match s with
  | high => 10
  | medium => 5
  | low => 2
  end.

(** The weighted accessibility penalty: for each issue, its weight times
    its number of occurrences. *)
Fixpoint weightedPenalty (issues : list AccessibilityIssue) : Z :=
  match issues with
  | [] => 0
  | issue :: rest => weight (severity issue) * count issue
                     + weightedPenalty rest
  end.

Definition recentConsoleErrors (now : Z) (self : PageHealthScorer) : Z :=
  lengthZ (List.filter (fun e => recent now (entry_timestamp e))
             (consoleErrors self)).

Definition recentNetworkFailures (now : Z) (self : PageHealthScorer) : Z :=
  lengthZ (List.filter (fun f => recent now (failure_timestamp f))
             (networkFailures self)).

(** The first contentful paint reported by the page, if any. *)
Definition paintOf (page : Page) : option Q :=
  match page_performance page with
  | Some pm => firstContentfulPaint pm
  | None => None
  end.

(** 20 points when the first contentful paint exceeds 3000 ms. *)
Definition paintPenalty (page : Page) : Z :=
  match paintOf page with
  | Some fcp => if Qlt_le_dec 3000 fcp then 20 else 0
  | None => 0
  end.

Definition clamp (lo hi x : Z) : Z := Z.max lo (Z.min hi x).

Definition expectedScore (now : Z) (self : PageHealthScorer) (page : Page)
    : Z :=
  clamp 0 100
    (100 - 10 * recentConsoleErrors now self
         - 15 * recentNetworkFailures now self
         - paintPenalty page
         - weightedPenalty (checkAccessibilityIssues page)).

(** *** The code against it *)

Lemma addPenalty_fold (issues : list AccessibilityIssue) (acc : Z) :
  fold_left addPenalty issues acc = acc + weightedPenalty issues.
Proof.
  revert acc; induction issues as [| issue rest IH]; intros acc; cbn.
  - lia.
  - rewrite IH. unfold addPenalty, weight.
    destruct (severity issue); lia.
Qed.

Lemma slowPaint_penalty (page : Page) :
  (if slowPaint (capturePerformanceMetrics page) then 20 else 0)
  = paintPenalty page.
Proof.
  unfold slowPaint, capturePerformanceMetrics, paintPenalty, paintOf.
  destruct (page_performance page) as [pm |]; [| reflexivity].
  destruct (firstContentfulPaint pm) as [fcp |]; [| reflexivity].
  destruct (Qlt_le_dec 3000 fcp) as [Hlt | Hle].
  - assert (Hz : Qeq_bool fcp 0 = false).
    { destruct (Qeq_bool fcp 0) eqn:E; [| reflexivity].
      apply Qeq_bool_iff in E. rewrite E in Hlt. discriminate Hlt. }
    assert (Hb : Qle_bool fcp 3000 = false).
    { destruct (Qle_bool fcp 3000) eqn:E; [| reflexivity].
      apply Qle_bool_iff in E.
      exfalso. exact (Qlt_not_le _ _ Hlt E). }
    rewrite Hz, Hb. reflexivity.
  - apply Qle_bool_iff in Hle. rewrite Hle.
    rewrite andb_false_r. reflexivity.
Qed.

Lemma deduct_score (b : bool) (p : Z) (i : list string) (a : string)
    (t : Tally) :
  t_score (if b then deduct p i a t else t)
  = t_score t - (if b then p else 0).
Proof. destruct b; cbn; lia. Qed.

Lemma positive_length {A} (l : list A) (k : Z) :
  (if (0 <? length l)%nat then lengthZ l * k else 0) = k * lengthZ l.
Proof.
  unfold lengthZ. destruct l; cbn [length Nat.ltb Nat.leb]; lia.
Qed.

Lemma positive_issues (issues : list AccessibilityIssue) :
  (if (0 <? length issues)%nat
   then fold_left addPenalty issues 0 else 0)
  = weightedPenalty issues.
Proof.
  destruct issues as [| issue rest]; [reflexivity |].
  cbn [length Nat.ltb Nat.leb]. rewrite addPenalty_fold. lia.
Qed.

(** The score before the final clamp, and the clamp the code applies. *)
Lemma score_unfolded (now : Z) (iso : string) (self : PageHealthScorer)
    (page : Page) :
  score (assessPageHealth now iso self page)
  = Z.max 0
      (100 - 10 * recentConsoleErrors now self
           - 15 * recentNetworkFailures now self
           - paintPenalty page
           - weightedPenalty (checkAccessibilityIssues page)).
Proof.
  unfold assessPageHealth; cbn [score].
  rewrite !deduct_score; cbn [t_score].
  rewrite !positive_length, positive_issues, slowPaint_penalty.
  reflexivity.
Qed.

Lemma issue_counts_nonneg (page : Page) :
  0 <= weightedPenalty (checkAccessibilityIssues page).
Proof.
  unfold checkAccessibilityIssues, lengthZ.
  destruct (page_document page) as [d |]; [| cbn; lia].
  repeat match goal with
         | |- context [if ?b then _ else _] => destruct b
         end;
  cbn; lia.
Qed.

Lemma lengthZ_nonneg {A} (l : list A) : 0 <= lengthZ l.
Proof. unfold lengthZ; lia. Qed.

Lemma paintPenalty_nonneg (page : Page) : 0 <= paintPenalty page.
Proof.
  unfold paintPenalty.
  destruct (paintOf page); [destruct (Qlt_le_dec _ _) |]; lia.
Qed.

Lemma score_formula (now : Z) (iso : string) (self : PageHealthScorer)
    (page : Page) :
  score (assessPageHealth now iso self page) = expectedScore now self page
  /\ 0 <= score (assessPageHealth now iso self page) <= 100.
Proof.
  rewrite score_unfolded. unfold expectedScore, clamp.
  pose proof (issue_counts_nonneg page).
  pose proof (paintPenalty_nonneg page).
  pose proof (lengthZ_nonneg
    (List.filter (fun e => recent now (entry_timestamp e))
       (consoleErrors self))).
  pose proof (lengthZ_nonneg
    (List.filter (fun f => recent now (failure_timestamp f))
       (networkFailures self))).
  unfold recentConsoleErrors, recentNetworkFailures. lia.
Qed.

(** Injecting one category of signal at a time: the deduction of that
    category alone is what separates the score from 100. *)
Lemma single_category_deductions (now : Z) (iso : string)
    (self : PageHealthScorer) (page : Page) :
  let report := assessPageHealth now iso self page in
  let quiet_log := recentConsoleErrors now self = 0 in
  let quiet_net := recentNetworkFailures now self = 0 in
  let fast := paintPenalty page = 0 in
  let accessible := checkAccessibilityIssues page = [] in
  (quiet_net -> fast -> accessible ->
     score report = Z.max 0 (100 - 10 * recentConsoleErrors now self))
  /\ (quiet_log -> fast -> accessible ->
     score report = Z.max 0 (100 - 15 * recentNetworkFailures now self))
  /\ (quiet_log -> quiet_net -> accessible ->
     score report = 100 - paintPenalty page)
  /\ (quiet_log -> quiet_net -> fast ->
     score report
     = Z.max 0 (100 - weightedPenalty (checkAccessibilityIssues page))).
Proof.
  cbv zeta. rewrite score_unfolded.
  pose proof (paintPenalty_nonneg page) as Hp.
  assert (Hp20 : paintPenalty page <= 20).
  { unfold paintPenalty.
    destruct (paintOf page); [destruct (Qlt_le_dec _ _) |]; lia. }
  repeat split; intros H1 H2 H3; rewrite ?H1, ?H2, ?H3; cbn [weightedPenalty];
    lia.
Qed.

Definition quietScorer : PageHealthScorer :=
  {| consoleErrors :=
       [{| entry_type := "error"; entry_text := "stale failure";
           entry_timestamp := 1000 |}];
     networkFailures := [];
     startTime := 0 |}.

Definition healthyPage : Page :=
  {| page_url := "http://localhost:3000/dashboard";
     page_performance :=
       Some {| domContentLoaded := Some (120 # 1);
               loadComplete := Some (40 # 1);
               firstPaint := Some (900 # 1);
               firstContentfulPaint := Some (1200 # 1);
               memory := None; resourceCount := 12;
               pm_timestamp := 9000 |};
     page_document :=
       Some {| imagesWithoutAlt := []; inputsWithoutLabels := 0;
               buttonsWithoutText := 0; headings := [1; 2; 2]%nat |} |}.

(** C9. The score returned by [assessPageHealth] equals 100 minus 10 per
    recent console error, minus 15 per recent network failure, minus 20
    when the first contentful paint exceeds 3000 ms, minus the weighted
    accessibility penalty (10, 5 and 2 per occurrence of a high, medium and
    low severity issue), clamped to the range 0..100. In particular a page
    with no console error and no network failure in the last 5 seconds, a
    first contentful paint below 3000 ms and no accessibility issue scores
    exactly 100. *)
Theorem assessPageHealth_score (now : Z) (iso : string)
    (self : PageHealthScorer) (page : Page) :
  let report := assessPageHealth now iso self page in
  score report = expectedScore now self page
  /\ 0 <= score report <= 100
  /\ (recentConsoleErrors now self = 0 ->
      recentNetworkFailures now self = 0 ->
      (forall fcp, paintOf page = Some fcp -> (fcp < 3000)%Q) ->
      checkAccessibilityIssues page = [] ->
      score report = 100).
Proof.
  cbv zeta.
  destruct (score_formula now iso self page) as [Hscore Hrange].
  split; [exact Hscore | split; [exact Hrange |]].
  intros He Hf Hfcp Ha.
  rewrite score_unfolded, He, Hf, Ha.
  assert (Hp : paintPenalty page = 0).
  { unfold paintPenalty.
    destruct (paintOf page) as [fcp |] eqn:E; [| reflexivity].
    destruct (Qlt_le_dec 3000 fcp) as [Hlt | Hle]; [| reflexivity].
    exfalso. specialize (Hfcp fcp eq_refl).
    exact (Qlt_irrefl _ (Qlt_trans _ _ _ Hlt Hfcp)). }
  rewrite Hp. reflexivity.
Qed.

(** A page without issues, assessed 9 s after a console error was logged:
    the error is outside the 5 s window and the score is 100. *)
Lemma assessPageHealth_score_witness :
  recentConsoleErrors 10000 quietScorer = 0
  /\ recentNetworkFailures 10000 quietScorer = 0
  /\ checkAccessibilityIssues healthyPage = []
  /\ score (assessPageHealth 10000 "2024-01-01T00:00:10.000Z"
              quietScorer healthyPage) = 100.
Proof.
  split; [reflexivity | split; [reflexivity | split; [reflexivity |]]].
  apply (assessPageHealth_score 10000 "2024-01-01T00:00:10.000Z"
           quietScorer healthyPage).
  - reflexivity.
  - reflexivity.
  - intros fcp H. injection H as <-. reflexivity.
  - reflexivity.
Defined.

End PageHealthProofs.

(** ** Resource guard *)

Module GuardProofs.
Import JS Eff Eff.Notations ResourceGuard.

Section Guard.
Context {S : Type}.

Definition breakerOf (w : World S) : CircuitBreakerState :=
  circuitBreaker (guard w).

Definition warningsOf (w : World S) : Z :=
  resourceWarnings (stats (guard w)).

Definition with_breaker (b : CircuitBreakerState) (w : World S) : World S :=
  set_guard (set_breaker b (guard w)) w.

(** The breaker of a newly constructed guard. *)
Definition freshBreaker : CircuitBreakerState :=
  {| failures := 0; threshold := 5; timeout := 60000; state := CLOSED;
     lastFailure := None |}.

(** *** The breaker as a transition system

    The three transitions of the state machine, read off the methods that
    perform them; the lemmas below show that the methods do exactly these
    steps on the breaker and touch nothing else. *)

Definition failureStep (now : Z) (b : CircuitBreakerState)
    : CircuitBreakerState :=
  if threshold b <=? failures b + 1
  then {| failures := failures b + 1; threshold := threshold b;
          timeout := timeout b; state := OPEN; lastFailure := Some now |}
  else {| failures := failures b + 1; threshold := threshold b;
          timeout := timeout b; state := state b;
          lastFailure := lastFailure b |}.

Definition successStep (b : CircuitBreakerState) : CircuitBreakerState :=
  {| failures := 0; threshold := threshold b; timeout := timeout b;
     state := match state b with
              | HALF_OPEN => CLOSED
              | s => s
              end;
     lastFailure := lastFailure b |}.

Definition cooldownStep (now : Z) (b : CircuitBreakerState)
    : CircuitBreakerState :=
  match state b with
  | OPEN => if cooldownExpired now b then halfOpen b else b
  | _ => b
  end.

Ltac unfold_methods :=
  unfold recordCircuitBreakerFailure, recordCircuitBreakerSuccess,
    canProceed, checkCircuitBreaker, checkResourceLimits,
    handleResourceLimit, emergencyShutdown, sleep, await,
    update, emit, this, Date_now,
    Eff.bind, Eff.modify, Eff.ret, Eff.get, Eff.exit, Eff.throw,
    with_breaker, breakerOf, warningsOf.

Ltac simpl_world :=
  repeat progress cbn beta iota zeta delta
      [guard clock heapUsed heapTotal gcExposed ext trace
       set_guard set_clock set_heapUsed set_ext log_event
       limits stats circuitBreaker monitoringInterval
       set_stats set_breaker set_interval bumpRetries bumpWarnings
       startTime startMemory testsRun retriesUsed healingAttempts
       resourceWarnings failures threshold timeout state lastFailure
       halfOpen final_state] in *.

Lemma recordCircuitBreakerFailure_step (w : World S) :
  recordCircuitBreakerFailure w
  = Returned tt (with_breaker (failureStep (clock w) (breakerOf w)) w).
Proof.
  destruct w as [[lim st cb mi] ck hu ht gc ex tr].
  unfold_methods; unfold failureStep; simpl_world.
  destruct (threshold cb <=? failures cb + 1); reflexivity.
Qed.

Lemma recordCircuitBreakerSuccess_step (w : World S) :
  recordCircuitBreakerSuccess w
  = Returned tt (with_breaker (successStep (breakerOf w)) w).
Proof. reflexivity. Qed.

Lemma checkCircuitBreaker_step (w : World S) :
  checkCircuitBreaker w
  = Returned tt (with_breaker (cooldownStep (clock w) (breakerOf w)) w).
Proof.
  destruct w as [[lim st [f th to s lf] mi] ck hu ht gc ex tr].
  unfold_methods; unfold cooldownStep; simpl_world.
  destruct s; simpl_world; try reflexivity.
  destruct (cooldownExpired ck _); reflexivity.
Qed.

Lemma canProceed_spec (w : World S) :
  canProceed w
  = Returned (match state (breakerOf w) with OPEN => false | _ => true end) w.
Proof.
  unfold_methods. destruct (state (circuitBreaker (guard w))); reflexivity.
Qed.

(** *** The periodic monitor *)

Definition runtimeOf (w : World S) : Z := clock w - startTime (stats (guard w)).

Definition overLimit (w : World S) : bool := overMemory (guard w) (heapUsed w).

(** The world left by [emergencyShutdown]. *)
Definition shutDown (w : World S) : World S :=
  if monitoringInterval (guard w) then log_event EvClearInterval w else w.

Definition warned (w : World S) : World S :=
  set_guard (bumpWarnings (guard w)) w.

Definition collected (w : World S) : World S :=
  if gcExposed w then log_event EvGarbageCollect w else w.

Lemma checkResourceLimits_cases (w : World S) :
  checkResourceLimits w
  = if maxRunTime (limits (guard w)) <? runtimeOf w
    then Exited 1 (shutDown w)
    else if overLimit w
    then if 3 <? warningsOf w + 1
         then Exited 1 (shutDown (warned w))
         else checkCircuitBreaker (collected (warned w))
    else checkCircuitBreaker w.
Proof.
  destruct w as [[lim st cb mi] ck hu ht gc ex tr].
  unfold checkResourceLimits, handleResourceLimit, emergencyShutdown,
    update, emit, this, Date_now, runtimeOf, overLimit, shutDown, warned,
    collected, warningsOf,
    Eff.bind, Eff.modify, Eff.ret, Eff.get, Eff.exit.
  simpl_world.
  destruct (maxRunTime lim <? ck - startTime st); simpl_world.
  - destruct mi; reflexivity.
  - destruct (overMemory _ hu); simpl_world.
    + destruct (3 <? resourceWarnings st + 1); simpl_world.
      * destruct mi; reflexivity.
      * destruct gc; reflexivity.
    + reflexivity.
Qed.

(** *** The circuit breaker cycle *)

(** The world after a call of [recordCircuitBreakerFailure] made when the
    clock shows [t]. *)
Definition failAt (t : Z) (w : World S) : World S :=
  final_state (recordCircuitBreakerFailure (set_clock t w)).

(** A run of the periodic monitor when the clock shows [t] and the heap
    holds [heap] bytes. *)
Definition monitorAt (t heap : Z) (w : World S)
    : Outcome (World S) Error unit :=
  checkResourceLimits (set_heapUsed heap (set_clock t w)).

Lemma cooldownStep_expired (now t : Z) (b : CircuitBreakerState) :
  state b = OPEN -> lastFailure b = Some t -> 0 < t ->
  timeout b < now - t ->
  cooldownStep now b = halfOpen b.
Proof.
  intros Hs Hl Ht Hc. unfold cooldownStep, cooldownExpired, truthy.
  rewrite Hs, Hl.
  replace (t =? 0) with false by (symmetry; apply Z.eqb_neq; lia).
  replace (timeout b <? now - t) with true
    by (symmetry; apply Z.ltb_lt; lia).
  reflexivity.
Qed.

(** A monitor run that hits neither ceiling returns, and its only effect
    on the breaker is the cooldown transition. *)
Lemma monitor_within_ceilings (w : World S) :
  runtimeOf w <= maxRunTime (limits (guard w)) ->
  (overLimit w = true -> warningsOf w < 3) ->
  exists w',
    checkResourceLimits w = Returned tt w'
    /\ breakerOf w' = cooldownStep (clock w) (breakerOf w).
Proof.
  intros Hrun Hmem. rewrite checkResourceLimits_cases.
  replace (maxRunTime (limits (guard w)) <? runtimeOf w) with false
    by (symmetry; apply Z.ltb_ge; lia).
  destruct (overLimit w).
  - replace (3 <? warningsOf w + 1) with false
      by (symmetry; apply Z.ltb_ge; specialize (Hmem eq_refl); lia).
    rewrite checkCircuitBreaker_step. eexists; split; [reflexivity |].
    unfold collected, warned, with_breaker, breakerOf.
    destruct (gcExposed _); reflexivity.
  - rewrite checkCircuitBreaker_step. eexists; split; reflexivity.
Qed.

(** C3. From a fresh breaker (CLOSED, no failure, threshold 5, cooldown
    60000 ms): after four recorded failures the breaker is still CLOSED and
    [canProceed] answers true; after the fifth, with no success recorded in
    between, it is OPEN, [lastFailure] is the time of that call and
    [canProceed] answers false. Once more than 60000 ms have passed since
    [lastFailure], a run of the periodic monitor (one that does not stop
    the process for the runtime or the memory ceiling) returns and leaves
    the breaker HALF_OPEN; a single recorded success then makes it CLOSED
    with the failure counter at 0. *)
Theorem circuit_breaker_cycle (w0 : World S) (t1 t2 t3 t4 t5 tc heap : Z) :
  breakerOf w0 = freshBreaker ->
  0 < t5 ->
  60000 < tc - t5 ->
  tc - startTime (stats (guard w0)) <= maxRunTime (limits (guard w0)) ->
  (overMemory (guard w0) heap = true -> warningsOf w0 < 3) ->
  let w4 := failAt t4 (failAt t3 (failAt t2 (failAt t1 w0))) in
  let w5 := failAt t5 w4 in
  let w6 := final_state (monitorAt tc heap w5) in
  let w7 := final_state (recordCircuitBreakerSuccess w6) in
  state (breakerOf w4) = CLOSED
  /\ canProceed w4 = Returned true w4
  /\ state (breakerOf w5) = OPEN
  /\ lastFailure (breakerOf w5) = Some t5
  /\ canProceed w5 = Returned false w5
  /\ monitorAt tc heap w5 = Returned tt w6
  /\ state (breakerOf w6) = HALF_OPEN
  /\ state (breakerOf w7) = CLOSED
  /\ failures (breakerOf w7) = 0.
Proof.
  intros Hfresh Ht5 Hcool Hrun Hmem w4 w5 w6 w7.
  destruct w0 as [[lim st cb mi] ck hu ht gc ex tr].
  unfold breakerOf, warningsOf in Hfresh, Hmem; simpl_world. subst cb.
  set (open5 := {| failures := 5; threshold := 5; timeout := 60000;
                   state := OPEN; lastFailure := Some t5 |}).
  assert (Hw4 : breakerOf w4
                = {| failures := 4; threshold := 5; timeout := 60000;
                     state := CLOSED; lastFailure := None |})
    by reflexivity.
  assert (Hw5 : w5 = {| guard := {| limits := lim; stats := st;
                                    circuitBreaker := open5;
                                    monitoringInterval := mi |};
                        clock := t5; heapUsed := hu; heapTotal := ht;
                        gcExposed := gc; ext := ex; trace := tr |})
    by reflexivity.
  destruct (monitor_within_ceilings
              (set_heapUsed heap (set_clock tc w5))) as (w' & Hmon & Hb').
  { rewrite Hw5. unfold runtimeOf; simpl_world. exact Hrun. }
  { rewrite Hw5. unfold overLimit, warningsOf; simpl_world. exact Hmem. }
  assert (Hw6 : w6 = w') by (unfold w6, monitorAt; rewrite Hmon; reflexivity).
  assert (Hb6 : breakerOf w6 = halfOpen open5).
  { rewrite Hw6, Hb', Hw5. unfold breakerOf; simpl_world.
    apply (cooldownStep_expired tc t5); [reflexivity | reflexivity | lia |].
    cbn [timeout open5]. lia. }
  assert (Hb7 : breakerOf w7 = successStep (halfOpen open5)).
  { unfold w7. rewrite recordCircuitBreakerSuccess_step.
    unfold with_breaker, breakerOf in *; simpl_world. rewrite Hb6.
    reflexivity. }
  split_and!.
  - rewrite Hw4; reflexivity.
  - rewrite canProceed_spec, Hw4. reflexivity.
  - rewrite Hw5; reflexivity.
  - rewrite Hw5; reflexivity.
  - rewrite canProceed_spec, Hw5. reflexivity.
  - unfold monitorAt. rewrite Hmon, Hw6. reflexivity.
  - rewrite Hb6; reflexivity.
  - rewrite Hb7; reflexivity.
  - rewrite Hb7; reflexivity.
Qed.

(** A monitor run past the runtime ceiling stops the process and leaves
    the breaker as it was, whatever its state. *)
Lemma monitor_past_runtime_ceiling (w : World S) :
  maxRunTime (limits (guard w)) < runtimeOf w ->
  checkResourceLimits w = Exited 1 (shutDown w)
  /\ breakerOf (shutDown w) = breakerOf w.
Proof.
  intros Hrun. rewrite checkResourceLimits_cases.
  replace (maxRunTime (limits (guard w)) <? runtimeOf w) with true
    by (symmetry; apply Z.ltb_lt; exact Hrun).
  split; [reflexivity |].
  unfold shutDown. destruct (monitoringInterval (guard w)); reflexivity.
Qed.

(** *** Memory warnings *)

(** C5 (amended). In a run of the periodic monitor that has not hit the
    runtime ceiling: when the measured heap exceeds [maxMemoryMB] the
    warning counter is incremented; if the counter then exceeds 3 (the
    fourth warning since the guard was constructed: the counter is never
    reset) the guard shuts the process down with exit code 1 without
    attempting a garbage collection; otherwise the run returns after a
    garbage collection attempted when [global.gc] is exposed. When the heap
    does not exceed the limit the counter keeps its value. *)
Theorem monitor_memory_warning (w : World S) :
  runtimeOf w <= maxRunTime (limits (guard w)) ->
  let o := checkResourceLimits w in
  let w' := final_state o in
  (overLimit w = true ->
     warningsOf w' = warningsOf w + 1
     /\ (3 < warningsOf w + 1 ->
         o = Exited 1 w'
         /\ trace w' = trace w ++ (if monitoringInterval (guard w)
                                   then [EvClearInterval] else []))
     /\ (warningsOf w + 1 <= 3 ->
         o = Returned tt w'
         /\ trace w' = trace w ++ (if gcExposed w
                                   then [EvGarbageCollect] else [])))
  /\ (overLimit w = false ->
      o = Returned tt w' /\ warningsOf w' = warningsOf w
      /\ trace w' = trace w).
Proof.
  intros Hrun. cbv zeta. rewrite checkResourceLimits_cases.
  replace (maxRunTime (limits (guard w)) <? runtimeOf w) with false
    by (symmetry; apply Z.ltb_ge; lia).
  split; intros Hover; rewrite Hover.
  - destruct (3 <? warningsOf w + 1) eqn:Hw;
      [apply Z.ltb_lt in Hw | apply Z.ltb_ge in Hw].
    + split_and!.
      * unfold shutDown, warned, warningsOf.
        destruct w as [[lim st cb []] ck hu ht gc ex tr]; reflexivity.
      * intros _. split; [reflexivity |].
        unfold shutDown, warned.
        destruct w as [[lim st cb []] ck hu ht gc ex tr]; cbn;
          rewrite ?app_nil_r; reflexivity.
      * intros Hle. lia.
    + rewrite checkCircuitBreaker_step. split_and!.
      * unfold collected, warned, with_breaker, warningsOf.
        destruct w as [[lim st cb mi] ck hu ht [] ex tr]; reflexivity.
      * intros Hlt. lia.
      * intros _. split; [reflexivity |].
        unfold collected, warned, with_breaker.
        destruct w as [[lim st cb mi] ck hu ht [] ex tr]; cbn;
          rewrite ?app_nil_r; reflexivity.
  - rewrite checkCircuitBreaker_step. split_and!; reflexivity.
Qed.

(** *** Retries *)

Section Operations.
Context {T : Type}.

Abbreviation Operation := (@Operation S T).

(** The operation throws on every invocation. *)
Definition throwsAlways (op : Operation) : Prop :=
  forall s, exists r e, fst (op s) = Some r /\ result r = inl e.

(** The error with which the invocation of [op] on state [s] ends. *)
Definition thrownBy (op : Operation) (s : S) : option Error :=
  match fst (op s) with
  | Some r => match result r with
              | inl e => Some e
              | inr _ => None
              end
  | None => None
  end.

(** The world after an invocation that settles as [r], counted as a used
    retry. *)
Definition failed (op : Operation) (r : Settled T) (w : World S)
    : World S :=
  let w1 := set_clock (clock w + elapsed r)
              (set_ext (snd (op (ext w))) (log_event EvInvoke w)) in
  set_guard (bumpRetries (guard w1)) w1.

Definition slept (ms : Z) (w : World S) : World S :=
  set_clock (clock w + ms) (log_event (EvSleep ms) w).

Lemma retryLoop_again (op : Operation) (retries attempt : Z)
    (rest : list Z) (last : option Error) (w : World S)
    (r : Settled T) (e : Error) :
  fst (op (ext w)) = Some r -> result r = inl e -> attempt <> retries ->
  retryLoop op retries (attempt :: rest) last w
  = retryLoop op retries rest (Some e)
      (slept (backoffMs attempt) (failed op r w)).
Proof.
  intros Hr He Hne.
  cbn [retryLoop]. unfold await, update, emit, sleep, Eff.bind, Eff.modify.
  simpl_world.
  destruct (op (ext w)) as [run s'] eqn:Hop. cbn [fst] in Hr. subst run.
  rewrite He.
  replace (attempt =? retries) with false
    by (symmetry; apply Z.eqb_neq; exact Hne).
  unfold failed, slept. rewrite Hop. reflexivity.
Qed.

Lemma retryLoop_give_up (op : Operation) (retries : Z)
    (rest : list Z) (last : option Error) (w : World S)
    (r : Settled T) (e : Error) :
  fst (op (ext w)) = Some r -> result r = inl e ->
  retryLoop op retries (retries :: rest) last w
  = Thrown e (with_breaker
                (failureStep (clock (failed op r w))
                   (breakerOf (failed op r w)))
                (failed op r w)).
Proof.
  intros Hr He.
  cbn [retryLoop]. unfold await, update, emit, Eff.bind, Eff.modify.
  simpl_world.
  destruct (op (ext w)) as [run s'] eqn:Hop. cbn [fst] in Hr. subst run.
  rewrite He, Z.eqb_refl.
  unfold Eff.throw.
  match goal with
  | |- context [recordCircuitBreakerFailure ?x] =>
      rewrite (recordCircuitBreakerFailure_step x)
  end.
  unfold failed. rewrite Hop. reflexivity.
Qed.

Definition invocations (tr : list Event) : nat :=
  length (List.filter
            (fun ev => match ev with EvInvoke => true | _ => false end) tr).

Definition sleeps (tr : list Event) : list Z :=
  flat_map (fun ev => match ev with EvSleep ms => [ms] | _ => [] end) tr.

(** Three attempts of an operation that always throws. *)
Lemma three_attempts (op : Operation) (w : World S) :
  throwsAlways op ->
  exists e w',
    retryLoop op 3 [1; 2; 3] None w = Thrown e w'
    /\ thrownBy op (snd (op (snd (op (ext w))))) = Some e
    /\ trace w' = trace w ++ [EvInvoke; EvSleep 1000; EvInvoke;
                              EvSleep 2000; EvInvoke]
    /\ ext w' = snd (op (snd (op (snd (op (ext w))))))
    /\ retriesUsed (stats (guard w'))
       = retriesUsed (stats (guard w)) + 3
    /\ breakerOf w' = failureStep (clock w') (breakerOf w).
Proof.
  intros Hop.
  destruct (Hop (ext w)) as (r1 & e1 & Hr1 & He1).
  rewrite (retryLoop_again op 3 1 _ _ w r1 e1 Hr1 He1) by lia.
  set (w1 := slept (backoffMs 1) (failed op r1 w)).
  destruct (Hop (ext w1)) as (r2 & e2 & Hr2 & He2).
  rewrite (retryLoop_again op 3 2 _ _ w1 r2 e2 Hr2 He2) by lia.
  set (w2 := slept (backoffMs 2) (failed op r2 w1)).
  destruct (Hop (ext w2)) as (r3 & e3 & Hr3 & He3).
  rewrite (retryLoop_give_up op 3 _ _ w2 r3 e3 Hr3 He3).
  assert (Hx1 : ext w1 = snd (op (ext w))) by reflexivity.
  assert (Hx2 : ext w2 = snd (op (ext w1))) by reflexivity.
  exists e3. eexists. split; [reflexivity |].
  split_and!.
  - unfold thrownBy. rewrite <- Hx1, <- Hx2, Hr3, He3. reflexivity.
  - unfold with_breaker, failed, slept, w2, w1, failed, slept.
    simpl_world. rewrite <- !app_assoc. reflexivity.
  - unfold with_breaker, failed; simpl_world. rewrite Hx2, Hx1.
    reflexivity.
  - unfold with_breaker, failed, slept, w2, w1, failed, slept.
    simpl_world. lia.
  - unfold with_breaker, breakerOf, failed, slept, w2, w1, failed, slept.
    simpl_world. reflexivity.
Qed.

Lemma backoff_monotone (k : Z) : 1 <= k -> backoffMs k <= backoffMs (k + 1).
Proof.
  intros Hk. unfold backoffMs.
  replace (k + 1 - 1) with k by lia.
  assert (2 ^ (k - 1) <= 2 ^ k) by (apply Z.pow_le_mono_r; lia).
  lia.
Qed.

Lemma failureStep_failures (now : Z) (b : CircuitBreakerState) :
  failures (failureStep now b) = failures b + 1.
Proof. unfold failureStep. destruct (_ <=? _); reflexivity. Qed.

Lemma invocations_app (tr1 tr2 : list Event) :
  invocations (tr1 ++ tr2) = (invocations tr1 + invocations tr2)%nat.
Proof.
  unfold invocations. rewrite List.filter_app, length_app. reflexivity.
Qed.

Lemma sleeps_app (tr1 tr2 : list Event) :
  sleeps (tr1 ++ tr2) = sleeps tr1 ++ sleeps tr2.
Proof. unfold sleeps. apply flat_map_app. Qed.

(** The attempt numbers [k], [k + 1], ..., [k + m - 1]. *)
Definition attemptsFrom (k m : nat) : list Z :=
  List.map Z.of_nat (seq k m).

(** Any number of attempts: an operation that always throws is invoked
    once per remaining attempt, with a sleep of [backoffMs k] after each
    failed attempt [k] but the last, and one breaker failure at the end. *)
Lemma retryLoop_exhausts (op : Operation) (n : nat) :
  throwsAlways op ->
  forall (m k : nat) (last : option Error) (w : World S),
    (k + m = n + 1)%nat -> (1 <= m)%nat ->
    exists e w',
      retryLoop op (Z.of_nat n) (attemptsFrom k m) last w = Thrown e w'
      /\ invocations (trace w') = (invocations (trace w) + m)%nat
      /\ sleeps (trace w')
         = sleeps (trace w) ++ List.map backoffMs (attemptsFrom k (m - 1))
      /\ failures (breakerOf w') = failures (breakerOf w) + 1.
Proof.
  intros Hop m. induction m as [| m IH]; intros k last w Hkm Hm; [lia |].
  destruct (Hop (ext w)) as (r & e & Hr & He).
  destruct m as [| m'].
  - assert (k = n) by lia. subst k.
    unfold attemptsFrom. cbn [seq List.map].
    rewrite (retryLoop_give_up op _ _ _ w r e Hr He).
    eexists; eexists; split; [reflexivity |].
    unfold with_breaker, breakerOf, failed; simpl_world.
    rewrite invocations_app, sleeps_app, failureStep_failures.
    cbn. rewrite app_nil_r. split_and!; [lia | reflexivity | reflexivity].
  - unfold attemptsFrom. cbn [seq List.map].
    rewrite (retryLoop_again op _ (Z.of_nat k) _ _ w r e Hr He) by lia.
    destruct (IH (Datatypes.S k) (Some e)
                (slept (backoffMs (Z.of_nat k)) (failed op r w)))
      as (e' & w' & Hrun & Hinv & Hsl & Hfail); [lia | lia |].
    exists e', w'. split; [exact Hrun |].
    rewrite Hinv, Hsl, Hfail.
    unfold slept, failed, breakerOf; simpl_world.
    rewrite !invocations_app, !sleeps_app. cbn.
    rewrite app_nil_r, Nat.sub_0_r. unfold attemptsFrom.
    split_and!; [lia | rewrite <- app_assoc; reflexivity | reflexivity].
Qed.

Lemma withRetry_exhausts (op : Operation) (name : string) (w : World S)
    (n : nat) :
  (1 <= n)%nat -> throwsAlways op ->
  exists e w',
    withRetry op name (Some (Z.of_nat n)) w = Thrown e w'
    /\ invocations (trace w') = (invocations (trace w) + n)%nat
    /\ sleeps (trace w')
       = sleeps (trace w) ++ List.map backoffMs (attemptsFrom 1 (n - 1))
    /\ failures (breakerOf w') = failures (breakerOf w) + 1.
Proof.
  intros Hn Hop.
  assert (Hloop : withRetry op name (Some (Z.of_nat n)) w
                  = retryLoop op (Z.of_nat n) (attemptsFrom 1 n) None w).
  { unfold withRetry, this, Eff.bind, or_default, truthy, attemptNumbers.
    replace (Z.of_nat n =? 0) with false
      by (symmetry; apply Z.eqb_neq; lia).
    cbn [negb]. rewrite Nat2Z.id. reflexivity. }
  rewrite Hloop. apply (retryLoop_exhausts op n Hop n 1%nat); lia.
Qed.

(** C4. With [maxRetries = 3] and an operation that throws on every
    invocation, [withRetry] invokes the operation exactly three times and
    sleeps exactly twice, 1000 ms after the first failure and 2000 ms after
    the second, with no sleep after the third; it then records one
    circuit-breaker failure and throws the error of the third invocation.
    In general the backoff after attempt [k] is
    [min (1000 * 2 ^ (k - 1)) 10000] ms, which never decreases with [k]. *)
Theorem withRetry_exhausted (op : Operation) (name : string) (w : World S) :
  throwsAlways op ->
  exists e w',
    withRetry op name (Some 3) w = Thrown e w'
    /\ thrownBy op (snd (op (snd (op (ext w))))) = Some e
    /\ trace w' = trace w ++ [EvInvoke; EvSleep 1000; EvInvoke;
                              EvSleep 2000; EvInvoke]
    /\ retriesUsed (stats (guard w'))
       = retriesUsed (stats (guard w)) + 3
    /\ breakerOf w' = failureStep (clock w') (breakerOf w)
    /\ failures (breakerOf w') = failures (breakerOf w) + 1
    /\ (forall k, 1 <= k ->
          backoffMs k = Z.min (1000 * 2 ^ (k - 1)) 10000
          /\ backoffMs k <= backoffMs (k + 1)).
Proof.
  intros Hop.
  change (withRetry op name (Some 3) w)
    with (retryLoop op 3 [1; 2; 3] None w).
  destruct (three_attempts op w Hop)
    as (e & w' & Hrun & Herr & Htrace & _ & Hused & Hbreaker).
  exists e, w'. split_and!; try assumption.
  - rewrite Hbreaker. apply failureStep_failures.
  - intros k Hk. split; [reflexivity | apply backoff_monotone; exact Hk].
Qed.


End Operations.

End Guard.

(** *** Concrete runs *)

(** A guard constructed at time 1000 with the default limits of a smoke
    suite, in a process whose heap is small. *)
Definition quietWorld : World unit :=
  {| guard := constructor "smoke" noCustomLimits 1000 40000000;
     clock := 1000; heapUsed := 40000000; heapTotal := 80000000;
     gcExposed := true; ext := tt; trace := [] |}.

(** The same guard in a process whose heap holds 600 MB, above the default
    limit of 512 MB. *)
Definition overloadedWorld : World unit :=
  {| guard := constructor "smoke" noCustomLimits 1000 40000000;
     clock := 1000; heapUsed := 629145600; heapTotal := 700000000;
     gcExposed := true; ext := tt; trace := [] |}.

(** The next run of the monitor, if the process is still alive. *)
Definition thenMonitor (t heap : Z)
    (o : Outcome (World unit) Error unit) : Outcome (World unit) Error unit :=
  match o with
  | Returned _ w => monitorAt t heap w
  | other => other
  end.

Definition flaky : @Operation unit nat :=
  fun s => (Some {| elapsed := 250;
                    result := inl (OperationError "socket hang up") |}, s).

Lemma flaky_throwsAlways : throwsAlways flaky.
Proof. intros s. eexists; eexists; split; reflexivity. Qed.

(** An operation whose promise never settles, and one that returns 7
    after half a second. *)
Definition hanging : @Operation unit nat := fun s => (None, s).

Definition slow : @Operation unit nat :=
  fun s => (Some {| elapsed := 500; result := inr 7%nat |}, s).

(** On a default guard ([limits.testTimeout = 60000], clock at 1 s) an
    override of 0 leaves the 60 s timer in force: the hanging operation is
    rejected at 61 s and the slow one returns, whereas an override of
    100 ms times the slow one out. *)
Example zero_timeout_runs :
  (exists w',
     withTimeout hanging "load" (Some 0) quietWorld
     = Thrown (TimedOut "load" 60000) w'
     /\ clock w' = 61000)
  /\ (exists w',
        withTimeout slow "load" (Some 0) quietWorld = Returned 7%nat w')
  /\ (exists w',
        withTimeout slow "load" (Some 100) quietWorld
        = Thrown (TimedOut "load" 100) w').
Proof. split_and!; eexists; try split; cbv; reflexivity. Qed.

(** The cycle on a default guard: failures at 2 s, 3 s, 4 s, 5 s and 6 s,
    a monitor run at 70 s, then one success. *)
Lemma circuit_breaker_cycle_witness :
  breakerOf quietWorld = freshBreaker
  /\ state (breakerOf
       (final_state (recordCircuitBreakerSuccess
          (final_state (monitorAt 70000 40000000
             (failAt 6000 (failAt 5000 (failAt 4000 (failAt 3000
                (failAt 2000 quietWorld))))))))))
     = CLOSED.
Proof.
  split; [reflexivity |].
  refine (proj1 (proj2 (proj2 (proj2 (proj2 (proj2 (proj2 (proj2
    (circuit_breaker_cycle quietWorld 2000 3000 4000 5000 6000 70000
       40000000 _ _ _ _ _)))))))));
    [ reflexivity | lia | lia | apply Z.leb_le; reflexivity
    | intros _; apply Z.ltb_lt; reflexivity ].
Defined.

(** Three attempts of an operation that fails after 250 ms each time. *)
Lemma withRetry_exhausted_witness :
  exists e w',
    withRetry flaky "open dashboard" (Some 3) quietWorld = Thrown e w'
    /\ trace w' = [EvInvoke; EvSleep 1000; EvInvoke; EvSleep 2000; EvInvoke].
Proof.
  destruct (withRetry_exhausted flaky "open dashboard" quietWorld
              flaky_throwsAlways)
    as (e & w' & Hrun & _ & Htrace & _).
  exists e, w'. split; [exact Hrun | exact Htrace].
Defined.

(** The first monitor run of a process that holds 600 MB of heap. *)
Lemma monitor_memory_warning_witness :
  runtimeOf overloadedWorld <= maxRunTime (limits (guard overloadedWorld))
  /\ overLimit overloadedWorld = true
  /\ warningsOf (final_state (checkResourceLimits overloadedWorld)) = 1.
Proof.
  split; [apply Z.leb_le; reflexivity | split; [reflexivity |]].
  refine (proj1 (proj1 (monitor_memory_warning overloadedWorld _) _));
    [apply Z.leb_le; reflexivity | reflexivity].
Defined.

(** C5 fails as stated: three warnings in a row do not shut the process
    down. After three consecutive monitor runs that each find 600 MB of
    heap against a limit of 512 MB, the third run returns normally with the
    counter at 3 and a third garbage collection attempted; only the fourth
    such run exits, and that run attempts no garbage collection. *)
Lemma memory_shutdown_counterexample :
  let hot := 629145600 in
  let third :=
    thenMonitor 16000 hot
      (thenMonitor 11000 hot (monitorAt 6000 hot overloadedWorld)) in
  let fourth := thenMonitor 21000 hot third in
  overLimit overloadedWorld = true
  /\ third = Returned tt (final_state third)
  /\ warningsOf (final_state third) = 3
  /\ trace (final_state third)
     = [EvGarbageCollect; EvGarbageCollect; EvGarbageCollect]
  /\ fourth = Exited 1 (final_state fourth)
  /\ trace (final_state fourth)
     = [EvGarbageCollect; EvGarbageCollect; EvGarbageCollect;
        EvClearInterval].
Proof. cbv zeta. split_and!; vm_compute; reflexivity. Qed.

End GuardProofs.

(** ** Evidence collector *)

Module CollectorProofs.
Import JS Eff Eff.Notations EvidenceCollector.

(** A computation that always returns and leaves the failure behaviour of
    the disk as it was. *)
Definition returns {A} (m : M A) : Prop :=
  forall d, exists a d', m d = Returned a d' /\ failing d' = failing d.

Lemma bind_Returned {A B} (m : M A) (k : A -> M B) (d d' : Disk) (a : A) :
  m d = Returned a d' -> Eff.bind m k d = k a d'.
Proof. intros H. unfold Eff.bind. rewrite H. reflexivity. Qed.

Lemma bind_Thrown {A B} (m : M A) (k : A -> M B) (d d' : Disk) (e : string) :
  m d = Thrown e d' -> Eff.bind m k d = Thrown e d'.
Proof. intros H. unfold Eff.bind. rewrite H. reflexivity. Qed.

Ltac unfold_capture :=
  unfold captureScreenshot, captureDOMSnapshot, captureConsoleErrors,
    captureNetworkFailures, capturePerformanceMetrics,
    captureLocalStorageState, captureAccessibilityTree,
    try_catch, Eff.bind, Eff.ret, Eff.throw, page_call, fs_writeFile.

(** Case analysis on what the page call and the file write of a capture
    do; every case ends in a returned record. *)
Ltac capture_cases d :=
  unfold returns; intros d; unfold_capture;
  repeat first
    [ progress cbn beta iota
    | progress unfold Eff.ret, Eff.throw
    | match goal with
      | |- context [match ?r with inl _ => _ | inr _ => _ end] =>
          destruct r
      | |- context [failing d ?p] => destruct (failing d p)
      end ];
  eexists; eexists; split; reflexivity.

Lemma captureScreenshot_returns (page : Page) (dir : string) :
  returns (captureScreenshot page dir).
Proof. capture_cases d. Qed.

Lemma captureDOMSnapshot_returns (page : Page) (dir : string) :
  returns (captureDOMSnapshot page dir).
Proof. capture_cases d. Qed.

Lemma captureConsoleErrors_returns (clock : Clock) (page : Page)
    (dir : string) :
  returns (captureConsoleErrors clock page dir).
Proof. capture_cases d. Qed.

Lemma captureNetworkFailures_returns (clock : Clock) (page : Page)
    (dir : string) :
  returns (captureNetworkFailures clock page dir).
Proof. capture_cases d. Qed.

Lemma capturePerformanceMetrics_returns (clock : Clock) (page : Page)
    (dir : string) :
  returns (capturePerformanceMetrics clock page dir).
Proof. capture_cases d. Qed.

Lemma captureLocalStorageState_returns (page : Page) (dir : string) :
  returns (captureLocalStorageState page dir).
Proof. capture_cases d. Qed.

Lemma captureAccessibilityTree_returns (page : Page) (dir : string) :
  returns (captureAccessibilityTree page dir).
Proof. capture_cases d. Qed.

(** Every entry of [Promise.allSettled] is fulfilled. *)
Lemma settled_fulfilled {A} (m : M A) (d : Disk) :
  returns m ->
  exists a d',
    settled m d = Returned (Some a) d'
    /\ m d = Returned a d' /\ failing d' = failing d.
Proof.
  intros Hm. destruct (Hm d) as (a & d' & Hrun & Hfail).
  exists a, d'. split; [| split; assumption].
  unfold settled, try_catch, Eff.bind. rewrite Hrun. reflexivity.
Qed.

(** *** What each capture reports *)

Lemma captureScreenshot_thrown (page : Page) (dir message : string)
    (d : Disk) :
  page_screenshot page = inl message ->
  captureScreenshot page dir d
  = Returned {| ss_path := ""; ss_type := ""; ss_captured := false;
                ss_error := Some message |} d.
Proof. intros H. unfold_capture. rewrite H. reflexivity. Qed.

Lemma captureDOMSnapshot_captured (page : Page) (dir html : string)
    (d d' : Disk) (v : DOMSnapshotEvidence) :
  page_cleanHTML page = inr html ->
  failing d (path_join dir "dom-snapshot.html") = None ->
  captureDOMSnapshot page dir d = Returned v d' ->
  dom_captured v = true.
Proof.
  intros Hp Hf. unfold_capture. rewrite Hp. unfold Eff.ret. rewrite Hf.
  intros [= <- _]. reflexivity.
Qed.

Lemma captureConsoleErrors_captured (clock : Clock) (page : Page)
    (dir : string) (d d' : Disk) (v : ConsoleErrorsEvidence) :
  failing d (path_join dir "console-errors.json") = None ->
  captureConsoleErrors clock page dir d = Returned v d' ->
  ce_captured v = None.
Proof.
  intros Hf. unfold_capture. rewrite Hf. intros [= <- _]. reflexivity.
Qed.

Lemma captureNetworkFailures_captured (clock : Clock) (page : Page)
    (dir : string) (d d' : Disk) (v : NetworkFailuresEvidence) :
  failing d (path_join dir "network-failures.json") = None ->
  captureNetworkFailures clock page dir d = Returned v d' ->
  nf_captured v = None.
Proof.
  intros Hf. unfold_capture. rewrite Hf. intros [= <- _]. reflexivity.
Qed.

Lemma capturePerformanceMetrics_captured (clock : Clock) (page : Page)
    (dir : string) (data : PerformanceData) (d d' : Disk)
    (v : PerformanceMetricsEvidence) :
  page_performance page = inr data ->
  failing d (path_join dir "performance-metrics.json") = None ->
  capturePerformanceMetrics clock page dir d = Returned v d' ->
  pm_captured v = None.
Proof.
  intros Hp Hf. unfold_capture. rewrite Hp. unfold Eff.ret. rewrite Hf.
  intros [= <- _]. reflexivity.
Qed.

Lemma captureLocalStorageState_captured (page : Page) (dir : string)
    (data : StorageData) (d d' : Disk) (v : StorageStateEvidence) :
  page_storageState page = inr data ->
  failing d (path_join dir "storage-state.json") = None ->
  captureLocalStorageState page dir d = Returned v d' ->
  st_captured v = None.
Proof.
  intros Hp Hf. unfold_capture. rewrite Hp. unfold Eff.ret. rewrite Hf.
  intros [= <- _]. reflexivity.
Qed.

Lemma captureAccessibilityTree_captured (page : Page) (dir : string)
    (data : AccessibilityData) (d d' : Disk) (v : AccessibilityEvidence) :
  page_a11ySnapshot page = inr data ->
  failing d (path_join dir "accessibility-tree.json") = None ->
  captureAccessibilityTree page dir d = Returned v d' ->
  ax_captured v = None.
Proof.
  intros Hp Hf. unfold_capture. rewrite Hp. unfold Eff.ret. rewrite Hf.
  intros [= <- _]. reflexivity.
Qed.

(** *** The bundle and its manifest *)

(** All seven categories are present in the bundle. *)
Definition complete (b : EvidenceBundle) : Prop :=
  is_Some (screenshot b) /\ is_Some (domSnapshot b)
  /\ is_Some (consoleErrors b) /\ is_Some (networkFailures b)
  /\ is_Some (performanceMetrics b) /\ is_Some (localStorage_ b)
  /\ is_Some (accessibility b).

(** The six captures other than the screenshot succeed: their page calls
    return and their files can be written. *)
Definition othersSucceed (page : Page) (d : Disk) (dir : string) : Prop :=
  (exists html, page_cleanHTML page = inr html)
  /\ (exists data, page_performance page = inr data)
  /\ (exists data, page_storageState page = inr data)
  /\ (exists data, page_a11ySnapshot page = inr data)
  /\ failing d (path_join dir "dom-snapshot.html") = None
  /\ failing d (path_join dir "console-errors.json") = None
  /\ failing d (path_join dir "network-failures.json") = None
  /\ failing d (path_join dir "performance-metrics.json") = None
  /\ failing d (path_join dir "storage-state.json") = None
  /\ failing d (path_join dir "accessibility-tree.json") = None.

(** [captured !== false] for the six categories other than the
    screenshot. *)
Definition othersCaptured (b : EvidenceBundle) : Prop :=
  (exists v, domSnapshot b = Some v /\ dom_captured v <> false)
  /\ (exists v, consoleErrors b = Some v /\ ce_captured v <> Some false)
  /\ (exists v, networkFailures b = Some v /\ nf_captured v <> Some false)
  /\ (exists v, performanceMetrics b = Some v
                /\ pm_captured v <> Some false)
  /\ (exists v, localStorage_ b = Some v /\ st_captured v <> Some false)
  /\ (exists v, accessibility b = Some v /\ ax_captured v <> Some false).

(** C6 (amended). Whenever the bundle directory can be created, the user
    agent can be read from the page and the manifest file can be written,
    [collect] returns a bundle and writes it as the [evidence.json]
    manifest, whatever happens in the seven captures, each of which is
    present in the bundle. If moreover the screenshot call throws while the
    six other captures succeed, the bundle's screenshot entry has
    [captured = false] with the error message, and the six other entries
    have [captured] different from [false]. *)
Theorem collect_writes_manifest (root : string) (clock : Clock)
    (page : Page) (failure : FailureInfo) (d : Disk) (agent : string) :
  let dir := path_join root (generateEvidenceId clock failure) in
  let manifest := path_join dir "evidence.json" in
  failing d dir = None ->
  page_userAgent page = inr agent ->
  failing d manifest = None ->
  exists bundle d',
    collect root clock page failure d = Returned bundle d'
    /\ files d' !! manifest = Some (ManifestJson bundle)
    /\ complete bundle
    /\ (forall message,
          page_screenshot page = inl message ->
          othersSucceed page d dir ->
          screenshot bundle
          = Some {| ss_path := ""; ss_type := ""; ss_captured := false;
                    ss_error := Some message |}
          /\ othersCaptured bundle).
Proof.
  intros dir manifest Hmk Hua Hman.
  set (d1 := made dir d).
  assert (H1 : fs_mkdir dir d = Returned tt d1)
    by (unfold fs_mkdir; rewrite Hmk; reflexivity).
  destruct (settled_fulfilled (captureScreenshot page dir) d1
              (captureScreenshot_returns _ _)) as (v0 & d2 & S0 & R0 & F2).
  destruct (settled_fulfilled (captureDOMSnapshot page dir) d2
              (captureDOMSnapshot_returns _ _)) as (v1 & d3 & S1 & R1 & F3).
  destruct (settled_fulfilled (captureConsoleErrors clock page dir) d3
              (captureConsoleErrors_returns _ _ _))
    as (v2 & d4 & S2 & R2 & F4).
  destruct (settled_fulfilled (captureNetworkFailures clock page dir) d4
              (captureNetworkFailures_returns _ _ _))
    as (v3 & d5 & S3 & R3 & F5).
  destruct (settled_fulfilled (capturePerformanceMetrics clock page dir) d5
              (capturePerformanceMetrics_returns _ _ _))
    as (v4 & d6 & S4 & R4 & F6).
  destruct (settled_fulfilled (captureLocalStorageState page dir) d6
              (captureLocalStorageState_returns _ _))
    as (v5 & d7 & S5 & R5 & F7).
  destruct (settled_fulfilled (captureAccessibilityTree page dir) d7
              (captureAccessibilityTree_returns _ _))
    as (v6 & d8 & S6 & R6 & F8).
  assert (E2 : failing d2 = failing d) by (rewrite F2; reflexivity).
  assert (E3 : failing d3 = failing d) by congruence.
  assert (E4 : failing d4 = failing d) by congruence.
  assert (E5 : failing d5 = failing d) by congruence.
  assert (E6 : failing d6 = failing d) by congruence.
  assert (E7 : failing d7 = failing d) by congruence.
  assert (E8 : failing d8 = failing d) by congruence.
  eexists. eexists. split; [| split; [| split]].
  - unfold collect. cbv zeta. fold dir.
    rewrite (bind_Returned _ _ _ _ _ H1).
    rewrite Hua. unfold page_call.
    rewrite (bind_Returned (Eff.ret agent) _ d1 d1 agent eq_refl).
    rewrite (bind_Returned _ _ _ _ _ S0).
    rewrite (bind_Returned _ _ _ _ _ S1).
    rewrite (bind_Returned _ _ _ _ _ S2).
    rewrite (bind_Returned _ _ _ _ _ S3).
    rewrite (bind_Returned _ _ _ _ _ S4).
    rewrite (bind_Returned _ _ _ _ _ S5).
    rewrite (bind_Returned _ _ _ _ _ S6).
    unfold Eff.bind, fs_writeFile. fold manifest.
    rewrite E8, Hman. reflexivity.
  - cbn [files]. apply lookup_insert_eq.
  - unfold complete; cbn. split_and!; eexists; reflexivity.
  - intros message Hshot (Hdom & Hperf & Hstore & Hax & P1 & P2 & P3 & P4
                          & P5 & P6).
    destruct Hdom as [html Hdom], Hperf as [perf Hperf],
      Hstore as [store Hstore], Hax as [ax Hax].
    cbn [screenshot].
    rewrite (captureScreenshot_thrown page dir message d1 Hshot) in R0.
    injection R0 as <- <-.
    split; [reflexivity |].
    unfold othersCaptured; cbn.
    split_and!; eexists; (split; [reflexivity |]).
    + rewrite (captureDOMSnapshot_captured page dir html d1 d3 v1 Hdom);
        [discriminate | exact P1 | exact R1].
    + rewrite (captureConsoleErrors_captured clock page dir d3 d4 v2);
        [discriminate | rewrite E3; exact P2 | exact R2].
    + rewrite (captureNetworkFailures_captured clock page dir d4 d5 v3);
        [discriminate | rewrite E4; exact P3 | exact R3].
    + rewrite (capturePerformanceMetrics_captured clock page dir perf
                 d5 d6 v4 Hperf);
        [discriminate | rewrite E5; exact P4 | exact R4].
    + rewrite (captureLocalStorageState_captured page dir store
                 d6 d7 v5 Hstore);
        [discriminate | rewrite E6; exact P5 | exact R5].
    + rewrite (captureAccessibilityTree_captured page dir ax
                 d7 d8 v6 Hax);
        [discriminate | rewrite E7; exact P6 | exact R6].
Qed.

(** *** Concrete runs *)

Definition emptyDisk : Disk :=
  {| files := ∅; directories := []; failing := fun _ => None |}.

(** A disk on which nothing can be created or written. *)
Definition readOnlyDisk : Disk :=
  {| files := ∅; directories := [];
     failing := fun _ => Some "EROFS: read-only file system" |}.

Definition noon : Clock :=
  {| iso := "2024-01-01T12:00:00.000Z"; millis := 1704110400000 |}.

Definition loginFailure : FailureInfo :=
  {| name := "Login Test #1"; error := "expected dashboard to be visible";
     failure_type := None |}.

Definition noPerformance : PerformanceData :=
  {| navigation := None; paint := []; resources_total := 0;
     resources_byType := []; slowRequests := []; memory := None;
     pd_timestamp := 1704110400000 |}.

Definition noStorage : StorageData :=
  {| localStorage := []; sessionStorage := []; cookies := "" |}.

Definition noAccessibility : AccessibilityData :=
  {| interactiveElements := []; headings := []; title := "Sign in";
     lang := "en"; hasSkipLink := false |}.

(** A page on which only the screenshot call throws. *)
Definition blindPage : Page :=
  {| page_url := "http://localhost:3000/login";
     page_viewportSize := Some (1280, 720);
     page_userAgent := inr "Mozilla/5.0";
     page_screenshot := inl "Protocol error: unable to capture screenshot";
     page_cleanHTML := inr "<html><head></head><body></body></html>";
     page_consoleErrors := None;
     page_networkFailures := None;
     page_performance := inr noPerformance;
     page_storageState := inr noStorage;
     page_a11ySnapshot := inr noAccessibility |}.

(** A page whose browser has gone: every call into the page throws. *)
Definition closedPage : Page :=
  {| page_url := "http://localhost:3000/login";
     page_viewportSize := None;
     page_userAgent := inl "Target page, context or browser has been closed";
     page_screenshot := inl "Target page, context or browser has been closed";
     page_cleanHTML := inl "Target page, context or browser has been closed";
     page_consoleErrors := None;
     page_networkFailures := None;
     page_performance :=
       inl "Target page, context or browser has been closed";
     page_storageState :=
       inl "Target page, context or browser has been closed";
     page_a11ySnapshot :=
       inl "Target page, context or browser has been closed" |}.

Example generateEvidenceId_example :
  generateEvidenceId noon loginFailure
  = "2024-01-01T12-00-00-000Z-login-test--1".
Proof. reflexivity. Qed.

(** C6 fails as stated: [collect] can throw, and then writes no manifest.
    On a page whose browser has been closed the unguarded read of the user
    agent throws before any capture starts and nothing is written; on a
    disk where the bundle directory cannot be created, [collect] throws as
    well, even though every call into the page would succeed. *)
Lemma collect_throws_counterexample :
  let crashed :=
    collect "artifacts/evidence" noon closedPage loginFailure emptyDisk in
  let unwritable :=
    collect "artifacts/evidence" noon blindPage loginFailure readOnlyDisk in
  crashed = Thrown "Target page, context or browser has been closed"
              (final_state crashed)
  /\ files (final_state crashed) = ∅
  /\ unwritable = Thrown "EROFS: read-only file system" readOnlyDisk.
Proof. cbv zeta. split_and!; vm_compute; reflexivity. Qed.

(** Collecting on a page where only the screenshot call throws. *)
Lemma collect_writes_manifest_witness :
  exists bundle d',
    collect "artifacts/evidence" noon blindPage loginFailure emptyDisk
    = Returned bundle d'
    /\ files d' !! "artifacts/evidence/2024-01-01T12-00-00-000Z-login-test--1/evidence.json"
       = Some (ManifestJson bundle)
    /\ screenshot bundle
       = Some {| ss_path := ""; ss_type := ""; ss_captured := false;
                 ss_error :=
                   Some "Protocol error: unable to capture screenshot" |}
    /\ othersCaptured bundle.
Proof.
  destruct (collect_writes_manifest "artifacts/evidence" noon blindPage
              loginFailure emptyDisk "Mozilla/5.0" eq_refl eq_refl eq_refl)
    as (bundle & d' & Hrun & Hfile & _ & Hshot).
  exists bundle, d'.
  split; [exact Hrun | split; [exact Hfile |]].
  apply Hshot; [reflexivity |].
  unfold othersSucceed.
  split_and!; try reflexivity; eexists; reflexivity.
Defined.

End CollectorProofs.

(** * Further properties of the code *)

(** ** Failure classifier: the choice of the winner *)

Module ClassifierExtras.
Import JS FailureClassifier ClassifierProofs.

(** The position of a heuristic in the array built by [classify]. *)
Definition rank (t : ClassificationType) : nat :=
  match t with
  | TestFlake => 0
  | AppRegression => 1
  | EnvironmentIssue => 2
  | DataProblem => 3
  end.

(** What the choice of the winner looks at: type and confidence. *)
Definition summary (c : Classification) : ClassificationType * float :=
  (type c, confidence c).

Definition pickSummary (best current : ClassificationType * float)
    : ClassificationType * float :=
  if (snd best <? snd current)%float then current else best.

(** The confidence accumulated over the rules that fired. *)
Definition accumulate (rules : list (bool * float)) : float :=
  fold_left
    (fun (acc : float) (r : bool * float) =>
       if fst r then (acc + snd r)%float else acc)
    rules 0%float.

(** Rule number [i] of the conditions [c], worth [d]. *)
Definition rule (c : list bool) (i : nat) (d : float) : bool * float :=
  (nth i c false, d).

(** The four confidences as a function of the eighteen conditions, in the
    order in which the source tests them. *)
Definition confidences (c : list bool) : list (ClassificationType * float) :=
  [ (TestFlake,
     Math_min (accumulate [rule c 0 0.6; rule c 1 0.4; rule c 2 0.3;
                           rule c 3 0.5; rule c 4 0.2]) 0.95);
    (AppRegression,
     Math_min (accumulate [rule c 5 0.7; rule c 6 0.8; rule c 7 0.6;
                           rule c 8 0.5]) 0.95);
    (EnvironmentIssue,
     Math_min (accumulate [rule c 9 0.9; rule c 10 0.8; rule c 11 0.9;
                           rule c 12 0.8; rule c 13 0.3]) 0.95);
    (DataProblem,
     Math_min (accumulate [rule c 14 0.7; rule c 15 0.6; rule c 16 0.5;
                           rule c 17 0.4]) 0.95) ].

(** The conditions of an evidence record. *)
Definition conditions (e : Evidence) : list bool :=
  let msg := errorMessage e in
  let nfs := networkFailures e in
  [ opt_includes msg "timeout";
    opt_includes msg "Element not found";
    opt_some nfs (fun f => opt_includes (nf_failure f) "timeout");
    opt_includes msg "not visible" || opt_includes msg "not attached";
    opt_some (consoleErrors e)
      (fun e => includes (ce_text e) "animation"
                || includes (ce_text e) "transition");
    (0 <? length (appErrors e))%nat;
    (0 <? length (serverErrors e))%nat;
    (0 <? length (clientErrors e))%nat;
    opt_some (consoleErrors e)
      (fun e => includes (ce_text e) "React" || includes (ce_text e) "Vue"
                || includes (ce_text e) "component");
    opt_some nfs (fun f => opt_includes (nf_failure f) "ECONNREFUSED");
    opt_some nfs
      (fun f => opt_includes (nf_failure f) "net::ERR_CONNECTION_RESET");
    opt_some nfs (fun f => opt_includes (nf_failure f) "ENOTFOUND");
    opt_includes msg "Session closed"
    || opt_includes msg "browser has been closed";
    highMemory e;
    opt_some nfs (fun f => nf_status f =? 401);
    opt_includes msg "not found"
    && opt_some nfs (fun f => nf_status f =? 404);
    opt_some nfs (fun f => nf_status f =? 503);
    opt_some nfs (fun f => nf_status f =? 422) ].

Lemma candidates_summary (e : Evidence) :
  List.map summary (candidates e) = confidences (conditions e).
Proof.
  unfold candidates, confidences, conditions, summary.
  unfold rule. cbn [List.map nth].
  repeat f_equal.
  - unfold classifyAsTestFlake; cbn [type confidence].
    decide_conditions; reflexivity.
  - unfold classifyAsAppRegression; cbn [type confidence].
    decide_conditions; reflexivity.
  - unfold classifyAsEnvironmentIssue; cbn [type confidence].
    decide_conditions; reflexivity.
  - unfold classifyAsDataProblem; cbn [type confidence].
    decide_conditions; reflexivity.
Qed.

(** A boolean function holds on every list of [n] booleans. *)
Fixpoint forall_flags (n : nat) (f : list bool -> bool) : bool :=
  match n with
  | O => f []
  | Datatypes.S n' =>
      forall_flags n' (fun l => f (true :: l))
      && forall_flags n' (fun l => f (false :: l))
  end.

Lemma forall_flags_spec (n : nat) :
  forall f, forall_flags n f = true ->
  forall l, length l = n -> f l = true.
Proof.
  induction n as [| n IH]; intros f H l Hl.
  - destruct l; [exact H | discriminate Hl].
  - destruct l as [| b l]; [discriminate Hl |].
    cbn in H. apply andb_true_iff in H. destruct H as [Ht Hf].
    injection Hl as Hl.
    destruct b; [apply (IH _ Ht) | apply (IH _ Hf)]; exact Hl.
Qed.

Definition winnerOf (s : list (ClassificationType * float))
    : ClassificationType * float :=
  fold_left pickSummary (tl s) (hd (TestFlake, 0%float) s).

(** The winner has the highest confidence, and no candidate placed before
    it in the array has the same confidence. *)
Definition wellChosen (s : list (ClassificationType * float)) : bool :=
  let w := winnerOf s in
  forallb
    (fun c => (snd c <=? snd w)%float
              && (negb (snd w <=? snd c)%float
                  || (rank (fst w) <=? rank (fst c))%nat))
    s.

Lemma all_conditions_wellChosen :
  forall_flags 18 (fun c => wellChosen (confidences c)) = true.
Proof. vm_compute. reflexivity. Qed.

Lemma summary_pickBest (a b : Classification) :
  summary (pickBest a b) = pickSummary (summary a) (summary b).
Proof.
  unfold pickBest, pickSummary, summary; cbn [snd].
  destruct (confidence a <? confidence b)%float; reflexivity.
Qed.

Lemma summary_winner (now : string) (e : Evidence) :
  summary (bestMatch (classify now e)) = winnerOf (confidences (conditions e)).
Proof.
  rewrite <- candidates_summary.
  unfold classify, candidates, winnerOf;
    cbn [bestMatch tl hd fold_left List.map].
  rewrite !summary_pickBest. reflexivity.
Qed.

(** X1. The winner returned by [classify] has the highest confidence of
    the four candidates, and among candidates of that confidence it is the
    one placed first in the array (TestFlake, AppRegression,
    EnvironmentIssue, DataProblem). *)
Theorem winner_is_first_maximum (now : string) (e : Evidence) :
  Forall
    (fun c =>
       (confidence c <=? confidence (classify now e))%float = true
       /\ ((confidence (classify now e) <=? confidence c)%float = true ->
           (rank (type (classify now e)) <= rank (type c))%nat))
    (allClassifications (classify now e)).
Proof.
  apply List.Forall_forall. intros c Hin.
  pose proof (forall_flags_spec 18 _ all_conditions_wellChosen
                (conditions e) eq_refl) as H.
  unfold wellChosen in H. rewrite forallb_forall in H.
  specialize (H (summary c)).
  rewrite <- (summary_winner now) in H.
  assert (Hc : In (summary c) (confidences (conditions e))).
  { rewrite <- candidates_summary. apply in_map. exact Hin. }
  specialize (H Hc). cbn [summary fst snd] in H.
  apply andb_true_iff in H. destruct H as [Hle Htie].
  split; [exact Hle |].
  intros Hge. rewrite Hge in Htie. cbn in Htie.
  apply Nat.leb_le. exact Htie.
Qed.

(** Settle a comparison of the goal from the arithmetic hypotheses. *)
Ltac settle b v :=
  replace b with v
    by (symmetry;
        first [ apply Z.leb_le | apply Z.leb_gt | apply Z.ltb_lt
              | apply Z.ltb_ge | apply Z.eqb_eq | apply Z.eqb_neq ];
        lia).

(** X2. Evidence whose only signal is one network failure is classified by
    its status alone: 5xx gives AppRegression at 0.8, 401 gives DataProblem
    at 0.7, any other 4xx gives AppRegression at 0.6, and a status below
    400 matches no rule, which leaves the default TestFlake at 0. None of
    these verdicts but the last is marked fixable. *)
Theorem single_failure_verdict (status : Z)
    (now failureUrl statusText pageUrl stamp : string) :
  let full :=
    classify now (statusEvidence status failureUrl statusText pageUrl stamp) in
  (type full, confidence full, fixable full)
  = if 500 <=? status then (AppRegression, 0.8%float, false)
    else if status =? 401 then (DataProblem, 0.7%float, false)
    else if 400 <=? status then (AppRegression, 0.6%float, false)
    else (TestFlake, 0%float, true).
Proof.
  cbv zeta.
  assert (Hcases :
            status < 400 \/ status = 401 \/ status = 404 \/ status = 422
            \/ status = 503
            \/ (400 <= status < 500 /\ status <> 401 /\ status <> 404
                /\ status <> 422)
            \/ (500 <= status /\ status <> 503)) by lia.
  destruct Hcases as [H | [-> | [-> | [-> | [-> | [H | H]]]]]];
    [ | vm_compute; reflexivity | vm_compute; reflexivity
      | vm_compute; reflexivity | vm_compute; reflexivity | | ];
    unfold classify, candidates, classifyAsTestFlake,
      classifyAsAppRegression, classifyAsEnvironmentIssue,
      classifyAsDataProblem, isObviousAppFix, appErrors, serverErrors,
      clientErrors, highMemory, statusEvidence, opt_some, opt_filter,
      opt_includes;
    cbn [errorMessage networkFailures consoleErrors performanceMetrics
         existsb List.filter nf_status nf_failure nf_url orb andb].
  - settle (500 <=? status) false. settle (400 <=? status) false.
    settle (status =? 401) false. settle (status =? 404) false.
    settle (status =? 503) false. settle (status =? 422) false.
    vm_compute; reflexivity.
  - settle (500 <=? status) false. settle (400 <=? status) true.
    settle (status <? 500) true.
    settle (status =? 401) false. settle (status =? 404) false.
    settle (status =? 503) false. settle (status =? 422) false.
    vm_compute; reflexivity.
  - settle (500 <=? status) true. settle (400 <=? status) true.
    settle (status <? 500) false.
    settle (status =? 401) false. settle (status =? 404) false.
    settle (status =? 503) false. settle (status =? 422) false.
    vm_compute; reflexivity.
Qed.

Lemma getFlakeRecommendation_nonempty (reasons : list string) :
  getFlakeRecommendation reasons <> [].
Proof.
  unfold getFlakeRecommendation.
  repeat match goal with
         | |- context [if existsb ?p ?l then _ else _] =>
             destruct (existsb p l)
         end;
  cbn; discriminate.
Qed.

Lemma getAppRegressionRecommendation_nonempty (e : Evidence) :
  getAppRegressionRecommendation e <> [].
Proof.
  unfold getAppRegressionRecommendation.
  repeat match goal with
         | |- context [if opt_some ?o ?p then _ else _] =>
             destruct (opt_some o p)
         end;
  cbn; discriminate.
Qed.

Lemma getEnvironmentRecommendation_nonempty (reasons : list string) :
  getEnvironmentRecommendation reasons <> [].
Proof.
  unfold getEnvironmentRecommendation.
  repeat match goal with
         | |- context [if existsb ?p ?l then _ else _] =>
             destruct (existsb p l)
         end;
  cbn; discriminate.
Qed.

Lemma getDataRecommendation_nonempty (reasons : list string) :
  getDataRecommendation reasons <> [].
Proof.
  unfold getDataRecommendation.
  repeat match goal with
         | |- context [if existsb ?p ?l then _ else _] =>
             destruct (existsb p l)
         end;
  cbn; discriminate.
Qed.

(** X3. Every classification returned by [classify], the winner and each
    of the four candidates, carries at least one recommendation: when no
    targeted recommendation applies, the heuristic's generic one is
    given. *)
Theorem recommendation_never_empty (now : string) (e : Evidence) :
  recommendation (classify now e) <> []
  /\ Forall (fun c => recommendation c <> [])
       (allClassifications (classify now e)).
Proof.
  assert (Hall : Forall (fun c => recommendation c <> []) (candidates e)).
  { unfold candidates.
    repeat apply List.Forall_cons; try apply List.Forall_nil; cbn [recommendation].
    - apply getFlakeRecommendation_nonempty.
    - apply getAppRegressionRecommendation_nonempty.
    - apply getEnvironmentRecommendation_nonempty.
    - apply getDataRecommendation_nonempty. }
  split; [| exact Hall].
  rewrite List.Forall_forall in Hall.
  apply Hall, winner_is_candidate.
Qed.

(** A double that is greater than 0 is not 0. *)
Lemma positive_not_zero (x : float) :
  (0 <? x)%float = true -> x <> 0%float.
Proof. intros H ->. vm_compute in H. discriminate H. Qed.

(** Decide the conditions of a heuristic and settle, in each case, whether
    the reasons are empty and whether the confidence is 0. *)
Ltac reasons_vs_confidence :=
  cbn [reasons confidence];
  decide_conditions;
  split;
  (let H := fresh "H" in
   intros H;
   first [ reflexivity
         | discriminate H
         | exfalso; revert H; apply positive_not_zero; reflexivity ]).

(** X4. For each of the four candidates, the list of reasons is empty
    exactly when the confidence is 0: a heuristic reports a reason for
    every rule that contributed, and every rule contributes. *)
Theorem no_reason_iff_zero_confidence (now : string) (e : Evidence) :
  Forall (fun c => reasons c = [] <-> confidence c = 0%float)
    (allClassifications (classify now e)).
Proof.
  unfold classify, candidates; cbn [allClassifications].
  repeat apply List.Forall_cons; try apply List.Forall_nil.
  - unfold classifyAsTestFlake. reasons_vs_confidence.
  - unfold classifyAsAppRegression. reasons_vs_confidence.
  - unfold classifyAsEnvironmentIssue. reasons_vs_confidence.
  - unfold classifyAsDataProblem. reasons_vs_confidence.
Qed.

End ClassifierExtras.

(** ** Page health scorer: listeners, ageing and the report *)

Module PageHealthExtras.
Import JS PageHealth PageHealthProofs PageHealthSummary.

(** *** Listeners and assessment *)

Lemma recent_console_app (now : Z) (s : PageHealthScorer)
    (entry : ConsoleEntry) :
  recentConsoleErrors now
    {| consoleErrors := consoleErrors s ++ [entry];
       networkFailures := networkFailures s; startTime := startTime s |}
  = recentConsoleErrors now s
    + (if recent now (entry_timestamp entry) then 1 else 0).
Proof.
  unfold recentConsoleErrors, lengthZ; cbn [consoleErrors].
  rewrite List.filter_app, length_app. cbn [List.filter].
  destruct (recent now (entry_timestamp entry)); cbn [length]; lia.
Qed.

Lemma recent_network_app (now : Z) (s : PageHealthScorer)
    (entry : FailureEntry) :
  recentNetworkFailures now
    {| consoleErrors := consoleErrors s;
       networkFailures := networkFailures s ++ [entry];
       startTime := startTime s |}
  = recentNetworkFailures now s
    + (if recent now (failure_timestamp entry) then 1 else 0).
Proof.
  unfold recentNetworkFailures, lengthZ; cbn [networkFailures].
  rewrite List.filter_app, length_app. cbn [List.filter].
  destruct (recent now (failure_timestamp entry)); cbn [length]; lia.
Qed.

(** X5. What a listener records costs points at the next assessment only
    while it is recent: a page error, or a console message of type error
    or warning, observed less than 5 s before the assessment lowers the
    score by 10 (not below 0); a response with status 400 or more, or a
    failed request, lowers it by 15; console messages of other types,
    responses below 400 and observations 5 s old or older change
    nothing. *)
Theorem observation_cost (now t status : Z) (iso msg type text url : string)
    (errorText : option string) (s : PageHealthScorer) (page : Page) :
  let sc x := score (assessPageHealth now iso x page) in
  sc (onPageError t msg s)
    = (if recent now t then Z.max 0 (sc s - 10) else sc s)
  /\ sc (onConsole t type text s)
    = (if (String.eqb type "error" || String.eqb type "warning")
          && recent now t
       then Z.max 0 (sc s - 10) else sc s)
  /\ sc (onResponse t status url s)
    = (if (400 <=? status) && recent now t
       then Z.max 0 (sc s - 15) else sc s)
  /\ sc (onRequestFailed t url errorText s)
    = (if recent now t then Z.max 0 (sc s - 15) else sc s).
Proof.
  cbv beta zeta. rewrite !score_unfolded.
  unfold onPageError, onConsole, onResponse, onRequestFailed.
  split_and!.
  - rewrite recent_console_app.
    change (recentNetworkFailures now _) with (recentNetworkFailures now s).
    cbn [entry_timestamp]. destruct (recent now t); lia.
  - destruct (String.eqb type "error" || String.eqb type "warning");
      cbn [andb]; [| reflexivity].
    rewrite recent_console_app.
    change (recentNetworkFailures now _) with (recentNetworkFailures now s).
    cbn [entry_timestamp]. destruct (recent now t); lia.
  - destruct (400 <=? status); cbn [andb]; [| reflexivity].
    rewrite recent_network_app.
    change (recentConsoleErrors now _) with (recentConsoleErrors now s).
    cbn [failure_timestamp]. destruct (recent now t); lia.
  - rewrite recent_network_app.
    change (recentConsoleErrors now _) with (recentConsoleErrors now s).
    cbn [failure_timestamp]. destruct (recent now t); lia.
Qed.

(** *** Ageing of the log *)

Lemma recent_antitone (now later timestamp : Z) :
  now <= later -> recent later timestamp = true ->
  recent now timestamp = true.
Proof. unfold recent. rewrite !Z.ltb_lt. lia. Qed.

Lemma filter_length_mono {A} (p q : A -> bool) (l : list A) :
  (forall x, q x = true -> p x = true) ->
  (length (List.filter q l) <= length (List.filter p l))%nat.
Proof.
  intros Himp. induction l as [| x l IH]; cbn [List.filter]; [lia |].
  destruct (q x) eqn:Hq.
  - rewrite (Himp x Hq). cbn [length]. lia.
  - destruct (p x); cbn [length]; lia.
Qed.

Definition agedScorer : PageHealthScorer :=
  {| consoleErrors :=
       [{| entry_type := "error"; entry_text := "boom";
           entry_timestamp := 6000 |}];
     networkFailures :=
       [{| failure_url := "/api/items"; failure_status := Some 500;
           failure_reason := None; failure_timestamp := 7000 |}];
     startTime := 0 |}.

(** X6. Observations age out and are never counted again: with an
    unchanged log and page, an assessment made later never scores lower
    than one made earlier. *)
Theorem score_never_drops_with_time (now later : Z) (iso iso' : string)
    (s : PageHealthScorer) (page : Page) :
  now <= later ->
  score (assessPageHealth now iso s page)
  <= score (assessPageHealth later iso' s page).
Proof.
  intros Hle. rewrite !score_unfolded.
  assert (He : recentConsoleErrors later s <= recentConsoleErrors now s).
  { unfold recentConsoleErrors, lengthZ. apply inj_le.
    apply filter_length_mono. intros x. apply recent_antitone, Hle. }
  assert (Hf : recentNetworkFailures later s <= recentNetworkFailures now s).
  { unfold recentNetworkFailures, lengthZ. apply inj_le.
    apply filter_length_mono. intros x. apply recent_antitone, Hle. }
  lia.
Qed.

Lemma score_never_drops_with_time_witness :
  score (assessPageHealth 8000 "a" agedScorer healthyPage)
  <= score (assessPageHealth 11500 "b" agedScorer healthyPage).
Proof.
  apply score_never_drops_with_time. lia.
Defined.

Lemma filter_none {A} (p : A -> bool) (l : list A) :
  Forall (fun x => p x = false) l -> List.filter p l = [].
Proof.
  induction 1 as [| x l Hx _ IH]; cbn [List.filter]; [reflexivity |].
  rewrite Hx. exact IH.
Qed.

(** X7. Once every logged observation is at least 5 s old, the log no
    longer influences the score: the assessment gives what a scorer with
    an empty log gives. *)
Theorem stale_log_is_ignored (now t0 : Z) (iso : string)
    (s : PageHealthScorer) (page : Page) :
  Forall (fun e => entry_timestamp e + 5000 <= now) (consoleErrors s) ->
  Forall (fun f => failure_timestamp f + 5000 <= now) (networkFailures s) ->
  score (assessPageHealth now iso s page)
  = score (assessPageHealth now iso (reset t0) page).
Proof.
  intros He Hf. rewrite !score_unfolded.
  assert (He0 : recentConsoleErrors now s = 0).
  { unfold recentConsoleErrors. rewrite filter_none; [reflexivity |].
    eapply Forall_impl; [exact He |]. cbv beta. intros e H.
    unfold recent. apply Z.ltb_ge. lia. }
  assert (Hf0 : recentNetworkFailures now s = 0).
  { unfold recentNetworkFailures. rewrite filter_none; [reflexivity |].
    eapply Forall_impl; [exact Hf |]. cbv beta. intros f H.
    unfold recent. apply Z.ltb_ge. lia. }
  rewrite He0, Hf0. reflexivity.
Qed.

Lemma stale_log_is_ignored_witness :
  score (assessPageHealth 12000 "a" agedScorer healthyPage)
  = score (assessPageHealth 12000 "a" (reset 0) healthyPage).
Proof.
  apply stale_log_is_ignored.
  - apply List.Forall_cons; [cbn; lia | apply List.Forall_nil].
  - apply List.Forall_cons; [cbn; lia | apply List.Forall_nil].
Defined.

(** *** The accessibility check *)

(** Every reported issue has at least one occurrence. *)
Lemma issues_counted (page : Page) :
  Forall (fun issue => 1 <= count issue) (checkAccessibilityIssues page).
Proof.
  unfold checkAccessibilityIssues, lengthZ.
  destruct (page_document page) as [d |]; [| apply List.Forall_nil].
  repeat apply Forall_app_2;
    repeat match goal with
           | |- context [if ?b then _ else _] => destruct b eqn:?
           end;
    repeat (apply List.Forall_cons || apply List.Forall_nil); cbn [count];
    repeat match goal with
           | H : (_ <? _)%nat = true |- _ => apply Nat.ltb_lt in H
           end; lia.
Qed.

(** X8. The accessibility check reports nothing exactly when the in-page
    script could not run at all, or when the document has no image without
    alternative text, no unlabelled input, no unnamed button and exactly
    one first-level heading. It reports at most four issues, each with at
    least one occurrence. *)
Theorem accessibility_issues_spec (page : Page) :
  (checkAccessibilityIssues page = [] <->
     match page_document page with
     | None => True
     | Some d =>
         imagesWithoutAlt d = [] /\ inputsWithoutLabels d = 0%nat
         /\ buttonsWithoutText d = 0%nat /\ h1Count d = 1%nat
     end)
  /\ (length (checkAccessibilityIssues page) <= 4)%nat
  /\ Forall (fun issue => 1 <= count issue) (checkAccessibilityIssues page).
Proof.
  split; [| split; [| apply issues_counted]];
    unfold checkAccessibilityIssues, lengthZ;
    (destruct (page_document page) as [d |]; [| cbn; first [tauto | lia]]).
  - assert (Hh : length (headings d) = 0%nat -> h1Count d = 0%nat).
    { unfold h1Count. destruct (headings d); [reflexivity | discriminate]. }
    destruct (imagesWithoutAlt d) as [| img imgs];
      destruct (inputsWithoutLabels d) as [| inputs];
      destruct (buttonsWithoutText d) as [| buttons];
      cbn [length Nat.ltb Nat.leb app];
      destruct (length (headings d) =? 0)%nat eqn:H0;
      first [apply Nat.eqb_eq in H0; specialize (Hh H0) | clear Hh];
      try (destruct (h1Count d) as [| [| n]];
           cbn [Nat.eqb Nat.ltb Nat.leb]);
      (split;
       [ intros H; try discriminate H; split_and!; try reflexivity; try lia
       | intros (H1 & H2 & H3 & H4);
         try discriminate H1; try discriminate H2;
         try discriminate H3; try discriminate H4;
         try reflexivity; try lia ]).
  - rewrite !length_app.
    repeat match goal with
           | |- context [if ?b then _ else _] => destruct b
           end; cbn [length]; lia.
Qed.

(** *** Score, issues and sub-scores *)

Lemma positive_issues_fold (issues : list AccessibilityIssue) :
  fold_left addPenalty issues 0 = weightedPenalty issues.
Proof. rewrite addPenalty_fold. lia. Qed.

Lemma deduct_issues (b : bool) (p : Z) (i : list string) (a : string)
    (t : Tally) :
  t_issues (if b then deduct p i a t else t)
  = t_issues t ++ (if b then i else []).
Proof. destruct b; cbn; [reflexivity | rewrite app_nil_r; reflexivity]. Qed.

Lemma deduct_recommendations (b : bool) (p : Z) (i : list string)
    (a : string) (t : Tally) :
  t_recommendations (if b then deduct p i a t else t)
  = t_recommendations t ++ (if b then [a] else []).
Proof. destruct b; cbn; [reflexivity | rewrite app_nil_r; reflexivity]. Qed.

Lemma weightedPenalty_positive (l : list AccessibilityIssue) :
  Forall (fun issue => 1 <= count issue) l ->
  2 * Z.of_nat (length l) <= weightedPenalty l.
Proof.
  induction 1 as [| issue l Hc _ IH]; cbn [weightedPenalty length]; [lia |].
  unfold weight. destruct (severity issue); lia.
Qed.

(** X9. A report has the perfect score 100 exactly when it lists no issue,
    and it lists no issue exactly when it gives no recommendation: every
    deduction comes with an issue line and a recommendation, and every
    issue line costs points. *)
Theorem perfect_score_iff_no_issue (now : Z) (iso : string)
    (s : PageHealthScorer) (page : Page) :
  let report := assessPageHealth now iso s page in
  (score report = 100 <-> issues report = [])
  /\ (issues report = [] <-> recommendations report = []).
Proof.
  cbv zeta. rewrite score_unfolded.
  unfold assessPageHealth; cbn [issues recommendations].
  rewrite !deduct_issues, !deduct_recommendations; cbn [t_issues t_recommendations app].
  pose proof (weightedPenalty_positive _ (issues_counted page)) as Hpen.
  pose proof (slowPaint_penalty page) as Hpaint.
  unfold recentConsoleErrors, recentNetworkFailures, lengthZ.
  destruct (List.filter _ (consoleErrors s)) as [| e es];
    destruct (List.filter _ (networkFailures s)) as [| f fs];
    destruct (slowPaint (capturePerformanceMetrics page));
    destruct (checkAccessibilityIssues page) as [| a l];
    cbn [length Nat.ltb Nat.leb app List.map weightedPenalty] in *;
    rewrite <- ?Hpaint;
    (split; split; intros H; first [reflexivity | discriminate H | lia]).
Qed.

(** X10. The overall score never exceeds any of the three sub-scores
    reported in the metrics, and each sub-score lies between 0 and 100. *)
Theorem score_below_sub_scores (now : Z) (iso : string)
    (s : PageHealthScorer) (page : Page) :
  let report := assessPageHealth now iso s page in
  let m := metrics report in
  score report <= errorScore m
  /\ score report <= performanceScore m
  /\ score report <= accessibilityScore m
  /\ 0 <= errorScore m <= 100
  /\ 0 <= performanceScore m <= 100
  /\ 0 <= accessibilityScore m <= 100.
Proof.
  cbv zeta. rewrite score_unfolded.
  unfold assessPageHealth;
    cbn [metrics errorScore performanceScore accessibilityScore].
  pose proof (issue_counts_nonneg page) as Ha.
  pose proof (paintPenalty_nonneg page) as Hp.
  pose proof (slowPaint_penalty page) as Hpaint.
  rewrite positive_issues_fold.
  unfold recentConsoleErrors, recentNetworkFailures, lengthZ.
  destruct (List.filter _ (consoleErrors s)) as [| e es];
    destruct (List.filter _ (networkFailures s)) as [| f fs];
    destruct (slowPaint (capturePerformanceMetrics page));
    destruct (checkAccessibilityIssues page) as [| a l];
    cbn [length Nat.ltb Nat.leb] in *; rewrite <- ?Hpaint in *; lia.
Qed.

(** *** The observation summary *)

(** The number of elements of [l] filed under [key]. *)
Definition occurrences {A} (keyOf : A -> string) (key : string)
    (l : list A) : Z :=
  Z.of_nat (length (List.filter (fun x => String.eqb (keyOf x) key) l)).

Lemma countInto_fold {A} (keyOf : A -> string) (key : string)
    (l : list A) (acc : gmap string Z) :
  fold_left (fun acc x => countInto acc (keyOf x)) l acc !! key
  = if occurrences keyOf key l =? 0 then acc !! key
    else Some (default 0 (acc !! key) + occurrences keyOf key l).
Proof.
  revert acc. unfold occurrences.
  induction l as [| x l IH]; intros acc; cbn [fold_left List.filter].
  - reflexivity.
  - rewrite IH. unfold countInto.
    destruct (String.eqb (keyOf x) key) eqn:Hk.
    + apply String.eqb_eq in Hk. rewrite Hk, lookup_insert_eq.
      cbn [length default].
      destruct (Z.of_nat (length (List.filter _ l)) =? 0) eqn:Hz.
      * apply Z.eqb_eq in Hz.
        replace (Z.of_nat (Datatypes.S _) =? 0) with false
          by (symmetry; apply Z.eqb_neq; lia).
        f_equal. unfold id. lia.
      * replace (Z.of_nat (Datatypes.S _) =? 0) with false
          by (symmetry; apply Z.eqb_neq; lia).
        f_equal. unfold id. lia.
    + apply String.eqb_neq in Hk. rewrite lookup_insert_ne by exact Hk.
      reflexivity.
Qed.

(** What the page does while the scorer is attached. *)
Inductive Observation :=
| ConsoleMessage (t : Z) (type text : string)
| PageError (t : Z) (message : string)
| Response (t status : Z) (url : string)
| RequestFailed (t : Z) (url : string) (errorText : option string).

(** The listener that the observation triggers. *)
Definition observe (s : PageHealthScorer) (o : Observation)
    : PageHealthScorer :=
  match o with
  | ConsoleMessage t type text => onConsole t type text s
  | PageError t message => onPageError t message s
  | Response t status url => onResponse t status url s
  | RequestFailed t url errorText => onRequestFailed t url errorText s
  end.

(** The scorer constructed at [t0], after the observations [os]. *)
Definition observed (t0 : Z) (os : list Observation) : PageHealthScorer :=
  fold_left observe os (constructor t0).

(** The type under which an observation counts as a console error, and
    the key under which it counts as a network failure. *)
Definition errorType (o : Observation) : option string :=
  match o with
  | ConsoleMessage _ type _ =>
      if String.eqb type "error" || String.eqb type "warning"
      then Some type else None
  | PageError _ _ => Some "error"
  | _ => None
  end.

Definition failureKey (o : Observation) : option string :=
  match o with
  | Response _ status _ =>
      if 400 <=? status then Some (pretty status) else None
  | RequestFailed _ _ _ => Some "failed"
  | _ => None
  end.

Definition filedUnder (key : string) (k : option string) : bool :=
  match k with
  | Some k' => String.eqb k' key
  | None => false
  end.

(** The number of observations filed under [key]. *)
Definition filed (keyOf : Observation -> option string) (key : string)
    (os : list Observation) : Z :=
  Z.of_nat (length (List.filter (fun o => filedUnder key (keyOf o)) os)).

Lemma observe_logs (o : Observation) (s : PageHealthScorer) :
  exists es fs,
    consoleErrors (observe s o) = consoleErrors s ++ es
    /\ networkFailures (observe s o) = networkFailures s ++ fs
    /\ (forall key,
          occurrences entry_type key es
          = if filedUnder key (errorType o) then 1 else 0)
    /\ (forall key,
          occurrences statusKey key fs
          = if filedUnder key (failureKey o) then 1 else 0).
Proof.
  destruct o as [t type text | t message | t status url | t url errorText];
    cbn [observe errorType failureKey];
    unfold onConsole, onPageError, onResponse, onRequestFailed.
  - destruct (String.eqb type "error" || String.eqb type "warning").
    + eexists; exists []; cbn [consoleErrors networkFailures].
      split_and!; [reflexivity | now rewrite app_nil_r | | reflexivity].
      intros key. unfold occurrences.
      cbn [List.filter entry_type filedUnder].
      destruct (String.eqb type key); reflexivity.
    + exists [], []. rewrite !app_nil_r. split_and!; reflexivity.
  - eexists; exists []; cbn [consoleErrors networkFailures].
    split_and!; [reflexivity | now rewrite app_nil_r | | reflexivity].
    intros key. unfold occurrences.
    cbn [List.filter entry_type filedUnder].
    destruct (String.eqb "error" key); reflexivity.
  - destruct (400 <=? status) eqn:Hs.
    + exists []; eexists; cbn [consoleErrors networkFailures].
      split_and!; [now rewrite app_nil_r | reflexivity | reflexivity |].
      intros key. unfold occurrences, statusKey, truthy.
      cbn [List.filter failure_status filedUnder].
      replace (status =? 0) with false
        by (symmetry; apply Z.eqb_neq; apply Z.leb_le in Hs; lia).
      cbn [negb]. destruct (String.eqb (pretty status) key); reflexivity.
    + exists [], []. rewrite !app_nil_r. split_and!; reflexivity.
  - exists []; eexists; cbn [consoleErrors networkFailures].
    split_and!; [now rewrite app_nil_r | reflexivity | reflexivity |].
    intros key. unfold occurrences, statusKey.
    cbn [List.filter failure_status filedUnder].
    destruct (String.eqb "failed" key); reflexivity.
Qed.

Lemma occurrences_app {A} (keyOf : A -> string) (key : string)
    (l l' : list A) :
  occurrences keyOf key (l ++ l')
  = occurrences keyOf key l + occurrences keyOf key l'.
Proof. unfold occurrences. rewrite List.filter_app, length_app. lia. Qed.

Lemma observed_counts (os : list Observation) :
  forall (s : PageHealthScorer) (key : string),
    occurrences entry_type key (consoleErrors (fold_left observe os s))
    = occurrences entry_type key (consoleErrors s) + filed errorType key os
    /\ occurrences statusKey key (networkFailures (fold_left observe os s))
       = occurrences statusKey key (networkFailures s)
         + filed failureKey key os.
Proof.
  induction os as [| o os IH]; intros s key; cbn [fold_left].
  - unfold filed; cbn. lia.
  - destruct (IH (observe s o) key) as [IHe IHf]. rewrite IHe, IHf.
    destruct (observe_logs o s) as (es & fs & He & Hf & Hes & Hfs).
    rewrite He, Hf, !occurrences_app, Hes, Hfs.
    unfold filed; cbn [List.filter].
    destruct (filedUnder key (errorType o));
      destruct (filedUnder key (failureKey o)); cbn [length]; lia.
Qed.

Lemma observed_types (os : list Observation) :
  forall s : PageHealthScorer,
    Forall (fun e => entry_type e = "error" \/ entry_type e = "warning")
      (consoleErrors s) ->
    Forall (fun e => entry_type e = "error" \/ entry_type e = "warning")
      (consoleErrors (fold_left observe os s)).
Proof.
  induction os as [| o os IH]; intros s Hs; cbn [fold_left]; [exact Hs |].
  apply IH.
  destruct o as [t type text | t message | t status url | t url errorText];
    cbn [observe];
    unfold onConsole, onPageError, onResponse, onRequestFailed.
  - destruct (String.eqb type "error") eqn:H1;
      [| destruct (String.eqb type "warning") eqn:H2]; cbn [orb];
      try exact Hs; cbn [consoleErrors];
      (apply Forall_app_2; [exact Hs |]);
      apply List.Forall_cons; try apply List.Forall_nil; cbn.
    + left. now apply String.eqb_eq.
    + right. now apply String.eqb_eq.
  - cbn [consoleErrors]. apply Forall_app_2; [exact Hs |].
    apply List.Forall_cons; [left; reflexivity | apply List.Forall_nil].
  - destruct (400 <=? status); exact Hs.
  - exact Hs.
Qed.

Lemma two_types (l : list ConsoleEntry) :
  Forall (fun e => entry_type e = "error" \/ entry_type e = "warning") l ->
  lengthZ l
  = occurrences entry_type "error" l + occurrences entry_type "warning" l.
Proof.
  unfold lengthZ, occurrences.
  induction 1 as [| e l [He | He] _ IH]; cbn [List.filter length];
    [reflexivity | |]; rewrite He; cbn; lia.
Qed.

Definition present (n : Z) : option Z := if n =? 0 then None else Some n.

(** X11. For a scorer that has been attached to a page since it was
    constructed, the two histograms of the observation summary count
    exactly. [errorsByType] maps "error" to the number of page errors and
    console messages of type error, and "warning" to the number of console
    warnings; [failuresByStatus] maps a decimal status to the number of
    responses with that status (400 or more), and "failed" to the number of
    failed requests. A key under which nothing was logged is absent, so
    [errorsByType] has no other key than those two, and their counts add up
    to [totalConsoleErrors]. *)
Theorem observation_summary_counts (t0 now : Z) (os : list Observation)
    (key : string) :
  let summary := getObservationSummary now (observed t0 os) in
  errorsByType summary !! key = present (filed errorType key os)
  /\ failuresByStatus summary !! key = present (filed failureKey key os)
  /\ (key <> "error" -> key <> "warning" ->
      errorsByType summary !! key = None)
  /\ totalConsoleErrors summary
     = filed errorType "error" os + filed errorType "warning" os.
Proof.
  cbv zeta. unfold getObservationSummary, observed, present;
    cbn [errorsByType failuresByStatus totalConsoleErrors].
  rewrite !countInto_fold, !lookup_empty. cbn [default].
  pose proof (observed_counts os (constructor t0)) as Hc.
  assert (He : forall k,
            occurrences entry_type k
              (consoleErrors (fold_left observe os (constructor t0)))
            = filed errorType k os)
    by (intros k; destruct (Hc k) as [H _]; rewrite H; reflexivity).
  assert (Hf : occurrences statusKey key
                 (networkFailures (fold_left observe os (constructor t0)))
               = filed failureKey key os)
    by (destruct (Hc key) as [_ H]; rewrite H; reflexivity).
  pose proof (observed_types os (constructor t0) (List.Forall_nil _)) as Ht.
  rewrite He, Hf.
  split_and!.
  - destruct (_ =? 0); reflexivity.
  - destruct (_ =? 0); reflexivity.
  - intros H1 H2.
    replace (filed errorType key os) with 0; [reflexivity |].
    rewrite <- He. unfold occurrences.
    rewrite filter_none; [reflexivity |].
    eapply Forall_impl; [exact Ht |]. cbv beta.
    intros e [H | H]; rewrite H; apply String.eqb_neq; congruence.
  - rewrite <- !He. apply two_types. exact Ht.
Qed.

(** *** Counters, summary and report at one instant *)

(** X12. The counters of [getCurrentErrors] agree with what the other two
    reports say at the same instant: its totals are those of
    [getObservationSummary], its recent counts are the [consoleErrors] and
    [networkFailures] metrics of [assessPageHealth], a recent count never
    exceeds its total, and the report's [errorScore] is 100 less 10 per
    recent console error, floored at 0. *)
Theorem current_errors_agree (now : Z) (iso : string)
    (s : PageHealthScorer) (page : Page) :
  let current := getCurrentErrors now s in
  let total := fst (fst current) in
  let recentErrors := snd (fst current) in
  let recentFailures := snd current in
  let m := metrics (assessPageHealth now iso s page) in
  let summary := getObservationSummary now s in
  fst total = totalConsoleErrors summary
  /\ snd total = totalNetworkFailures summary
  /\ recentErrors = m_consoleErrors m
  /\ recentFailures = m_networkFailures m
  /\ 0 <= recentErrors <= fst total
  /\ 0 <= recentFailures <= snd total
  /\ errorScore m = Z.max 0 (100 - 10 * recentErrors).
Proof.
  cbv zeta. unfold getCurrentErrors, getObservationSummary, assessPageHealth.
  cbn [fst snd metrics m_consoleErrors m_networkFailures errorScore
       totalConsoleErrors totalNetworkFailures].
  unfold lengthZ.
  pose proof (List.filter_length_le
                (fun e => recent now (entry_timestamp e)) (consoleErrors s)).
  pose proof (List.filter_length_le
                (fun f => recent now (failure_timestamp f))
                (networkFailures s)).
  split_and!; try reflexivity; try lia.
  destruct (List.filter _ (consoleErrors s)); cbn [length Nat.ltb Nat.leb];
    lia.
Qed.

End PageHealthExtras.

(** ** Resource guard: retries, timeouts and the life of a guard *)

Module GuardExtras.
Import JS Eff Eff.Notations ResourceGuard GuardProofs ResourceGuardReports.

(** *** Backoff *)

(** X13. Every backoff lies between 1 s and 10 s, and from the fifth
    failed attempt on it is the 10 s ceiling. *)
Theorem backoff_bounds (k : Z) :
  1 <= k ->
  1000 <= backoffMs k <= 10000 /\ (5 <= k -> backoffMs k = 10000).
Proof.
  intros Hk. unfold backoffMs.
  assert (H0 : 2 ^ 0 <= 2 ^ (k - 1)) by (apply Z.pow_le_mono_r; lia).
  change (2 ^ 0) with 1 in H0.
  split; [lia |].
  intros H5.
  assert (H4 : 2 ^ 4 <= 2 ^ (k - 1)) by (apply Z.pow_le_mono_r; lia).
  change (2 ^ 4) with 16 in H4. lia.
Qed.

Lemma backoff_bounds_witness :
  1000 <= backoffMs 7 <= 10000 /\ (5 <= 7 -> backoffMs 7 = 10000).
Proof. apply backoff_bounds. lia. Defined.

(** *** Memory figures *)

Lemma memoryMB_fraction (h : Z) : memoryMB h = (h * 1 * 1 # 1048576).
Proof. reflexivity. Qed.

Lemma Math_round_memoryMB (h : Z) :
  Math_round (memoryMB h) = (2 * h + 1048576) / 2097152.
Proof.
  rewrite memoryMB_fraction. unfold Math_round, Qfloor, Qplus.
  cbn [Qnum Qden]. f_equal; lia.
Qed.

Lemma overMemory_bytes {S} (w : World S) :
  overLimit w = (maxMemoryMB (limits (guard w)) * 1048576 <? heapUsed w).
Proof.
  unfold overLimit, overMemory. rewrite memoryMB_fraction.
  unfold Qle_bool, inject_Z; cbn [Qnum Qden].
  destruct (_ <=? _) eqn:H1; destruct (_ <? _) eqn:H2; try reflexivity;
    [apply Z.leb_le in H1; apply Z.ltb_lt in H2
    | apply Z.leb_gt in H1; apply Z.ltb_ge in H2]; lia.
Qed.

(** X14. [validateEnvironment] throws exactly when the heap total is below
    33030144 bytes (31.5 MiB, which is what rounds to less than 32 MB), and
    otherwise returns the rounded figure; it never changes the guard. *)
Theorem validateEnvironment_threshold {S} (w : World S) :
  validateEnvironment w
  = if heapTotal w <? 33030144
    then Thrown (OperationError
                   "Insufficient memory available (minimum 32MB required)") w
    else Returned (Math_round (memoryMB (heapTotal w))) w.
Proof.
  unfold validateEnvironment. rewrite Math_round_memoryMB.
  destruct (_ / _ <? 32) eqn:H1; destruct (heapTotal w <? _) eqn:H2;
    try reflexivity; exfalso;
    [apply Z.ltb_lt in H1; apply Z.ltb_ge in H2
    | apply Z.ltb_ge in H1; apply Z.ltb_lt in H2];
    revert H1; generalize (heapTotal w) H2; clear; intros h H2 H1;
    Z.div_mod_to_equations; lia.
Qed.

(** X15. [isWithinLimits] and the monitor draw the memory line in
    different places: the monitor warns when the heap exceeds
    [maxMemoryMB] MiB, while [isWithinLimits] reports [memory: false] from
    half a MiB below that figure, because it compares the rounded number of
    megabytes. So whenever the monitor would warn, [isWithinLimits]
    reports [memory: false]. Its [circuitBreaker] and [healing] entries
    agree with [canProceed] and [canAttemptHealing]. *)
Theorem isWithinLimits_spec {S} (w : World S) :
  let limit := maxMemoryMB (limits (guard w)) * 1048576 in
  within_memory (isWithinLimits w) = (heapUsed w <? limit - 524288)
  /\ overLimit w = (limit <? heapUsed w)
  /\ (overLimit w = true -> within_memory (isWithinLimits w) = false)
  /\ canProceed w = Returned (within_circuitBreaker (isWithinLimits w)) w
  /\ canAttemptHealing w = Returned (within_healing (isWithinLimits w)) w.
Proof.
  cbv zeta.
  assert (Hm : within_memory (isWithinLimits w)
               = (heapUsed w
                  <? maxMemoryMB (limits (guard w)) * 1048576 - 524288)).
  { unfold isWithinLimits, getResourceUsage;
      cbn [within_memory usage_memoryMB].
    rewrite Math_round_memoryMB.
    destruct (_ / _ <? _) eqn:H1; destruct (heapUsed w <? _) eqn:H2;
      try reflexivity; exfalso;
      [apply Z.ltb_lt in H1; apply Z.ltb_ge in H2
      | apply Z.ltb_ge in H1; apply Z.ltb_lt in H2];
      revert H1 H2;
      generalize (heapUsed w) (maxMemoryMB (limits (guard w)));
      clear; intros h m H1 H2; Z.div_mod_to_equations; lia. }
  split_and!.
  - exact Hm.
  - apply overMemory_bytes.
  - rewrite Hm, overMemory_bytes. intros H. apply Z.ltb_lt in H.
    apply Z.ltb_ge. lia.
  - rewrite canProceed_spec. reflexivity.
  - unfold canAttemptHealing, this, Eff.bind, Eff.ret, isWithinLimits,
      getResourceUsage; cbn [within_healing usage_healingAttempts].
    f_equal. rewrite Z.ltb_antisym. reflexivity.
Qed.

(** *** Retries that do not exhaust *)

Section Retries.
Context {S T : Type}.

Abbreviation Operation := (@Operation S T).

Ltac simpl_world :=
  repeat progress cbn beta iota zeta delta
      [guard clock heapUsed heapTotal gcExposed ext trace
       set_guard set_clock set_heapUsed set_ext log_event
       limits stats circuitBreaker monitoringInterval
       set_stats set_breaker set_interval bumpRetries bumpWarnings
       startTime startMemory testsRun retriesUsed healingAttempts
       resourceWarnings failures threshold timeout state lastFailure
       halfOpen final_state] in *.

(** X16. With a retry count that is zero or negative after defaulting (a
    negative override, or no override and [limits.maxRetries] at 0 or
    below), [withRetry] never invokes the operation: it throws the
    unassigned [lastError] and leaves the guard, the clock and the trace
    untouched. *)
Theorem withRetry_without_attempts (op : Operation) (name : string)
    (maxRetries_ : option Z) (w : World S) :
  or_default maxRetries_ (maxRetries (limits (guard w))) <= 0 ->
  withRetry op name maxRetries_ w = Thrown Undefined w.
Proof.
  intros H. unfold withRetry, this, Eff.bind, attemptNumbers.
  replace (Z.to_nat _) with 0%nat by lia.
  reflexivity.
Qed.

(** The state of the operation after [i] invocations. *)
Definition stateAfter (op : Operation) (i : nat) (s : S) : S :=
  Nat.iter i (fun s => snd (op s)) s.

(** The operation throws on its first [j] invocations and returns [v] on
    the next. *)
Definition succeedsAfter (op : Operation) (j : nat) (v : T) (s : S) : Prop :=
  (forall i, (i < j)%nat ->
     exists r e, fst (op (stateAfter op i s)) = Some r /\ result r = inl e)
  /\ exists r, fst (op (stateAfter op j s)) = Some r /\ result r = inr v.

Lemma retryLoop_returns (op : Operation) (retries attempt : Z)
    (rest : list Z) (last : option Error) (w : World S)
    (r : Settled T) (v : T) :
  fst (op (ext w)) = Some r -> result r = inr v ->
  retryLoop op retries (attempt :: rest) last w
  = Returned v (set_clock (clock w + elapsed r)
                  (set_ext (snd (op (ext w))) (log_event EvInvoke w))).
Proof.
  intros Hr Hv.
  cbn [retryLoop]. unfold await, emit, Eff.bind, Eff.modify, Eff.ret.
  simpl_world.
  destruct (op (ext w)) as [run s'] eqn:Hop. cbn [fst] in Hr. subst run.
  rewrite Hv. reflexivity.
Qed.

Lemma succeedsAfter_shift (op : Operation) (j : nat) (v : T) (s : S) :
  succeedsAfter op (Datatypes.S j) v s ->
  succeedsAfter op j v (snd (op s)).
Proof.
  intros [Hfail Hok]. unfold stateAfter in *. split.
  - intros i Hi. specialize (Hfail (Datatypes.S i) ltac:(lia)).
    rewrite Nat.iter_succ_r in Hfail. exact Hfail.
  - rewrite Nat.iter_succ_r in Hok. exact Hok.
Qed.

Lemma retryLoop_recovers (op : Operation) (n : nat) (v : T) :
  forall (j m k : nat) (last : option Error) (w : World S),
    (k + m = n + 1)%nat -> (j < m)%nat ->
    succeedsAfter op j v (ext w) ->
    exists w',
      retryLoop op (Z.of_nat n) (attemptsFrom k m) last w = Returned v w'
      /\ invocations (trace w') = (invocations (trace w) + j + 1)%nat
      /\ sleeps (trace w')
         = sleeps (trace w) ++ List.map backoffMs (attemptsFrom k j)
      /\ retriesUsed (stats (guard w'))
         = retriesUsed (stats (guard w)) + Z.of_nat j
      /\ breakerOf w' = breakerOf w
      /\ ext w' = stateAfter op (j + 1) (ext w).
Proof.
  induction j as [| j IH]; intros m k last w Hkm Hjm Hop.
  - destruct Hop as [_ (r & Hr & Hv)]. cbn [stateAfter Nat.iter] in Hr.
    destruct m as [| m]; [lia |].
    unfold attemptsFrom at 1. cbn [seq List.map].
    rewrite (retryLoop_returns op _ _ _ _ w r v Hr Hv).
    eexists; split; [reflexivity |].
    unfold breakerOf; simpl_world.
    rewrite invocations_app, sleeps_app. cbn.
    rewrite !app_nil_r. split_and!; try reflexivity; lia.
  - pose proof (succeedsAfter_shift op j v (ext w) Hop) as Hnext.
    destruct Hop as [Hfail _].
    destruct (Hfail 0%nat ltac:(lia)) as (r & e & Hr & He).
    cbn [stateAfter Nat.iter] in Hr.
    destruct m as [| m]; [lia |].
    unfold attemptsFrom at 1. cbn [seq List.map].
    rewrite (retryLoop_again op _ (Z.of_nat k) _ _ w r e Hr He) by lia.
    destruct (IH m (Datatypes.S k) (Some e)
                (slept (backoffMs (Z.of_nat k)) (failed op r w)))
      as (w' & Hrun & Hinv & Hsl & Hused & Hbr & Hext);
      [lia | lia | exact Hnext |].
    exists w'. split; [exact Hrun |].
    rewrite Hinv, Hsl, Hused, Hbr, Hext.
    unfold slept, failed, breakerOf, stateAfter; simpl_world.
    rewrite !invocations_app, !sleeps_app. cbn.
    rewrite !app_nil_r. unfold attemptsFrom. cbn [seq List.map].
    split_and!; try reflexivity; try lia.
    + rewrite <- app_assoc. reflexivity.
    + symmetry.
      exact (Nat.iter_succ_r (j + 1) (fun s => snd (op s)) (ext w)).
Qed.

(** X17. When the operation throws [j] times and then returns [v], with
    [j] below the retry count, [withRetry] returns [v] after [j + 1]
    invocations and [j] sleeps (the backoffs of attempts 1 to [j]); it
    counts [j] used retries and leaves the circuit breaker exactly as it
    was: a success is never recorded on the breaker. *)
Theorem withRetry_recovers (op : Operation) (name : string) (w : World S)
    (n j : nat) (v : T) :
  (j < n)%nat ->
  succeedsAfter op j v (ext w) ->
  exists w',
    withRetry op name (Some (Z.of_nat n)) w = Returned v w'
    /\ invocations (trace w') = (invocations (trace w) + j + 1)%nat
    /\ sleeps (trace w')
       = sleeps (trace w) ++ List.map backoffMs (attemptsFrom 1 j)
    /\ retriesUsed (stats (guard w'))
       = retriesUsed (stats (guard w)) + Z.of_nat j
    /\ breakerOf w' = breakerOf w.
Proof.
  intros Hj Hop.
  assert (Hloop : withRetry op name (Some (Z.of_nat n)) w
                  = retryLoop op (Z.of_nat n) (attemptsFrom 1 n) None w).
  { unfold withRetry, this, Eff.bind, or_default, truthy, attemptNumbers.
    replace (Z.of_nat n =? 0) with false
      by (symmetry; apply Z.eqb_neq; lia).
    cbn [negb]. rewrite Nat2Z.id. reflexivity. }
  rewrite Hloop.
  destruct (retryLoop_recovers op n v j n 1%nat None w)
    as (w' & Hrun & Hinv & Hsl & Hused & Hbr & _); [lia | lia | exact Hop |].
  exists w'. split_and!; assumption.
Qed.

End Retries.

(** *** Timeouts, healing and the life of a guard *)

Section Lifecycle.
Context {S : Type}.

(** The promise settled: it returned or threw. *)
Definition settles {A} (o : Outcome (World S) Error A) : Prop :=
  match o with
  | Returned _ _ | Thrown _ _ => True
  | _ => False
  end.

(** X18. [withTimeout] always settles, also on an operation that never
    does, and no later than the timer: it invokes the operation exactly
    once, never touches the guard (no retry is counted and the breaker is
    not informed), and when the operation has not settled by then it
    throws the timeout error that names the operation and the timeout in
    force. *)
Theorem withTimeout_settles {T} (op : @ResourceGuard.Operation S T)
    (name : string) (timeoutMs : option Z) (w : World S) :
  let timeout := or_default timeoutMs (testTimeout (limits (guard w))) in
  let o := withTimeout op name timeoutMs w in
  settles o
  /\ guard (final_state o) = guard w
  /\ trace (final_state o) = trace w ++ [EvInvoke]
  /\ ext (final_state o) = snd (op (ext w))
  /\ clock (final_state o) <= clock w + timerDelay timeout
  /\ (fst (op (ext w)) = None ->
      o = Thrown (TimedOut name timeout) (final_state o)).
Proof.
  cbv zeta. unfold withTimeout, this, emit, Eff.bind, Eff.modify.
  cbn [guard log_event ext].
  destruct (op (ext w)) as [[r |] s'].
  - destruct (elapsed r <? timerDelay _) eqn:Hlt.
    + apply Z.ltb_lt in Hlt.
      destruct (result r); cbn; split_and!; try reflexivity; try exact I;
        try lia; discriminate.
    + cbn; split_and!; try reflexivity; try exact I; try lia; discriminate.
  - cbn; split_and!; try reflexivity; try exact I; lia.
Qed.

(** The world after [k] calls of [recordHealingAttempt]. *)
Definition healed (k : nat) (w : World S) : World S :=
  Nat.iter k (fun w => final_state (recordHealingAttempt w)) w.

Lemma healed_attempts (k : nat) (w : World S) :
  healingAttempts (stats (guard (healed k w)))
  = healingAttempts (stats (guard w)) + Z.of_nat k
  /\ limits (guard (healed k w)) = limits (guard w).
Proof.
  unfold healed. induction k as [| k [IH1 IH2]].
  - cbn. split; [lia | reflexivity].
  - rewrite !Nat.iter_succ.
    remember (Nat.iter k (fun w => final_state (recordHealingAttempt w)) w)
      as w' eqn:Hw'.
    unfold recordHealingAttempt, update, Eff.modify.
    cbn [final_state guard set_guard set_stats stats limits healingAttempts].
    rewrite IH1, IH2. split; [lia | reflexivity].
Qed.

(** X19. Healing attempts are capped by a counter that only grows: after
    [k] further recorded attempts [canAttemptHealing] answers true exactly
    when the attempts made so far stay below [limits.maxHealingAttempts],
    and asking does not change the guard. *)
Theorem healing_cap (k : nat) (w : World S) :
  canAttemptHealing (healed k w)
  = Returned
      (healingAttempts (stats (guard w)) + Z.of_nat k
       <? maxHealingAttempts (limits (guard w)))
      (healed k w).
Proof.
  destruct (healed_attempts k w) as [Ha Hl].
  unfold canAttemptHealing, this, Eff.bind, Eff.ret.
  rewrite Ha, Hl, Z.ltb_antisym. reflexivity.
Qed.

(** What a caller, or the timer, can do to a guard. *)
Inductive Action :=
| RecordFailure (t : Z)
| RecordSuccess
| Monitor (t heap : Z)
| HealingAttempt
| TestRun.

Definition perform (a : Action) (w : World S)
    : Outcome (World S) Error unit :=
  match a with
  | RecordFailure t => recordCircuitBreakerFailure (set_clock t w)
  | RecordSuccess => recordCircuitBreakerSuccess w
  | Monitor t heap => monitorAt t heap w
  | HealingAttempt => recordHealingAttempt w
  | TestRun => incrementTestCount w
  end.

(** The actions one after the other, for as long as the process lives. *)
Fixpoint performAll (actions : list Action) (w : World S)
    : Outcome (World S) Error unit :=
  match actions with
  | [] => Returned tt w
  | a :: rest =>
      match perform a w with
      | Returned _ w' => performAll rest w'
      | other => other
      end
  end.

(** A process that has just constructed its guard. *)
Definition newProcess (suiteType : string) (custom : PartialLimits)
    (now heap total : Z) (gc : bool) (s : S) : World S :=
  {| guard := constructor suiteType custom now heap;
     clock := now; heapUsed := heap; heapTotal := total;
     gcExposed := gc; ext := s; trace := [] |}.

Definition sound (w : World S) : Prop :=
  let b := breakerOf w in
  threshold b = 5 /\ timeout b = 60000
  /\ (state b = CLOSED -> 0 <= failures b < 5)
  /\ (state b <> CLOSED -> 0 <= failures b /\ lastFailure b <> None)
  /\ 0 <= warningsOf w <= 3.

Definition soundOutcome (o : Outcome (World S) Error unit) : Prop :=
  match o with
  | Returned _ w => sound w
  | Exited code _ => code = 1
  | _ => False
  end.

Ltac simpl_guard :=
  repeat progress cbn beta iota zeta delta
      [guard clock heapUsed heapTotal gcExposed ext trace
       set_guard set_clock set_heapUsed set_ext log_event
       limits stats circuitBreaker monitoringInterval
       set_stats set_breaker set_interval bumpRetries bumpWarnings
       startTime startMemory testsRun retriesUsed healingAttempts
       resourceWarnings failures threshold timeout state lastFailure
       halfOpen final_state] in *.

(** Close the conjuncts of [sound] from the facts in the context. *)
Ltac close_sound :=
  unfold soundOutcome, sound, with_breaker, breakerOf, warningsOf;
  simpl_guard;
  split_and!;
  first [ reflexivity
        | lia
        | let H := fresh in
          intros H;
          first [ congruence
                | lia
                | split; [lia | first [assumption | congruence]] ] ].

Lemma perform_sound (a : Action) (w : World S) :
  sound w -> soundOutcome (perform a w).
Proof.
  intros (Hth & Hto & Hclosed & Hopen & Hwarn).
  destruct w as [[lim st [f th to s lf] mi] ck hu ht gc ex tr].
  unfold breakerOf, warningsOf in *. simpl_guard. subst th to.
  assert (Hf : 0 <= f).
  { destruct s; [apply Hclosed; reflexivity | |];
      apply Hopen; discriminate. }
  assert (Hl : s <> CLOSED -> lf <> None) by (intros H; apply Hopen, H).
  assert (Hc : s = CLOSED -> f < 5) by (intros H; apply Hclosed, H).
  clear Hclosed Hopen.
  destruct a as [t | | t heap | |]; cbn [perform].
  - rewrite recordCircuitBreakerFailure_step.
    unfold with_breaker, breakerOf, failureStep. simpl_guard.
    destruct (5 <=? f + 1) eqn:H5;
      [apply Z.leb_le in H5 | apply Z.leb_gt in H5];
      destruct s; try (specialize (Hc eq_refl));
        try (specialize (Hl ltac:(discriminate)));
      close_sound.
  - rewrite recordCircuitBreakerSuccess_step.
    unfold with_breaker, breakerOf, successStep. simpl_guard.
    destruct s; try (specialize (Hc eq_refl));
        try (specialize (Hl ltac:(discriminate))); close_sound.
  - unfold monitorAt. rewrite checkResourceLimits_cases.
    destruct (_ <? runtimeOf _); [reflexivity |].
    destruct (overLimit _).
    + unfold warningsOf. simpl_guard.
      destruct (3 <? resourceWarnings st + 1) eqn:H3;
        [reflexivity | apply Z.ltb_ge in H3].
      rewrite checkCircuitBreaker_step.
      unfold with_breaker, breakerOf, cooldownStep, collected, warned.
      simpl_guard.
      destruct gc; simpl_guard;
        (destruct s; try (specialize (Hc eq_refl));
        try (specialize (Hl ltac:(discriminate)));
         simpl_guard;
         [ | destruct (cooldownExpired _ _); simpl_guard | ];
         close_sound).
    + rewrite checkCircuitBreaker_step.
      unfold with_breaker, breakerOf, cooldownStep. simpl_guard.
      destruct s; try (specialize (Hc eq_refl));
        try (specialize (Hl ltac:(discriminate))); simpl_guard;
        [ | destruct (cooldownExpired _ _); simpl_guard | ];
        close_sound.
  - unfold recordHealingAttempt, update, Eff.modify.
    destruct s; try (specialize (Hc eq_refl));
        try (specialize (Hl ltac:(discriminate))); close_sound.
  - unfold incrementTestCount, update, Eff.modify.
    destruct s; try (specialize (Hc eq_refl));
        try (specialize (Hl ltac:(discriminate))); close_sound.
Qed.

Lemma performAll_sound (actions : list Action) :
  forall w, sound w -> soundOutcome (performAll actions w).
Proof.
  induction actions as [| a rest IH]; intros w Hw; cbn [performAll].
  - exact Hw.
  - pose proof (perform_sound a w Hw) as Ha.
    destruct (perform a w); cbn [soundOutcome] in *;
      [apply IH; exact Ha | contradiction | exact Ha | contradiction].
Qed.

(** X20. Whatever sequence of breaker failures, breaker successes, monitor
    runs, healing attempts and test counts a newly constructed guard goes
    through, nothing ever throws and the only way out is the emergency
    exit with code 1; as long as the process lives, a CLOSED breaker holds
    fewer than 5 failures, an OPEN or HALF_OPEN breaker has [lastFailure]
    stamped, threshold and cooldown keep their values, and the warning
    counter never exceeds 3. *)
Theorem guard_stays_sound (suiteType : string) (custom : PartialLimits)
    (now heap total : Z) (gc : bool) (s : S) (actions : list Action) :
  soundOutcome
    (performAll actions (newProcess suiteType custom now heap total gc s)).
Proof.
  apply performAll_sound.
  unfold sound, newProcess, breakerOf, warningsOf; cbn.
  split_and!; try reflexivity; try lia; intros H; try lia;
    contradiction.
Qed.

(** *** Re-opening from HALF_OPEN *)

Lemma failAt_guard (t : Z) (w : World S) :
  guard (failAt t w) = set_breaker (failureStep t (breakerOf w)) (guard w).
Proof.
  unfold failAt. rewrite recordCircuitBreakerFailure_step. reflexivity.
Qed.

Lemma set_breaker_same (g : Guard) : set_breaker (circuitBreaker g) g = g.
Proof. destruct g; reflexivity. Qed.

Lemma failAt_over (t : Z) (w : World S) (b : CircuitBreakerState)
    (g : Guard) :
  guard w = set_breaker b g ->
  guard (failAt t w) = set_breaker (failureStep t b) g.
Proof.
  intros H. rewrite failAt_guard. unfold breakerOf. rewrite H. reflexivity.
Qed.

Lemma success_guard (w : World S) :
  guard (final_state (recordCircuitBreakerSuccess w))
  = set_breaker (successStep (breakerOf w)) (guard w).
Proof. reflexivity. Qed.

(** A monitor run on a world with the guard [g], within both ceilings. *)
Lemma monitor_breaker (t heap : Z) (w : World S) :
  t - startTime (stats (guard w)) <= maxRunTime (limits (guard w)) ->
  (overMemory (guard w) heap = true -> warningsOf w < 3) ->
  breakerOf (final_state (monitorAt t heap w))
  = cooldownStep t (breakerOf w).
Proof.
  intros Hrun Hmem.
  destruct (monitor_within_ceilings (set_heapUsed heap (set_clock t w)))
    as (w' & Hmon & Hb); [exact Hrun | exact Hmem |].
  unfold monitorAt. rewrite Hmon. exact Hb.
Qed.

(** X21. What a failure does to a HALF_OPEN breaker depends on the
    counter, which the cooldown does not reset. After five failures and
    the cooldown, the first further failure re-opens the breaker and
    stamps [lastFailure] anew. But a success recorded while the breaker
    was OPEN resets the counter without closing the breaker
    ([canProceed] stays false); after the cooldown, that HALF_OPEN breaker
    then tolerates four further failures ([canProceed] true) and re-opens
    only on the fifth. *)
Theorem half_open_reopening (w0 : World S)
    (t1 t2 t3 t4 t5 tc heap u1 u2 u3 u4 u5 : Z) :
  breakerOf w0 = freshBreaker ->
  0 < t5 ->
  60000 < tc - t5 ->
  tc - startTime (stats (guard w0)) <= maxRunTime (limits (guard w0)) ->
  (overMemory (guard w0) heap = true -> warningsOf w0 < 3) ->
  let opened := failAt t5 (failAt t4 (failAt t3 (failAt t2 (failAt t1 w0)))) in
  let half := final_state (monitorAt tc heap opened) in
  let forgiven := final_state (recordCircuitBreakerSuccess opened) in
  let half' := final_state (monitorAt tc heap forgiven) in
  let four := failAt u4 (failAt u3 (failAt u2 (failAt u1 half'))) in
  state (breakerOf half) = HALF_OPEN
  /\ state (breakerOf (failAt u1 half)) = OPEN
  /\ lastFailure (breakerOf (failAt u1 half)) = Some u1
  /\ state (breakerOf forgiven) = OPEN
  /\ failures (breakerOf forgiven) = 0
  /\ canProceed forgiven = Returned false forgiven
  /\ state (breakerOf half') = HALF_OPEN
  /\ state (breakerOf four) = HALF_OPEN
  /\ canProceed four = Returned true four
  /\ state (breakerOf (failAt u5 four)) = OPEN.
Proof.
  intros Hfresh Ht5 Hcool Hrun Hmem opened half forgiven half' four.
  set (open5 := {| failures := 5; threshold := 5; timeout := 60000;
                   state := OPEN; lastFailure := Some t5 |}).
  assert (Hbase : guard w0 = set_breaker freshBreaker (guard w0)).
  { rewrite <- Hfresh. symmetry. apply set_breaker_same. }
  assert (Hopened : guard opened = set_breaker open5 (guard w0)).
  { pose proof (failAt_over t5 _ _ _ (failAt_over t4 _ _ _
      (failAt_over t3 _ _ _ (failAt_over t2 _ _ _
      (failAt_over t1 w0 freshBreaker (guard w0) Hbase))))) as H.
    exact H. }
  assert (Hhalf : breakerOf half = halfOpen open5).
  { unfold half. rewrite monitor_breaker.
    - unfold breakerOf. rewrite Hopened.
      apply (cooldownStep_expired tc t5); [reflexivity | reflexivity | lia |].
      cbn. lia.
    - rewrite Hopened. exact Hrun.
    - unfold warningsOf. rewrite Hopened. exact Hmem. }
  assert (Hforgiven : guard forgiven
                      = set_breaker (successStep open5) (guard w0)).
  { unfold forgiven. rewrite success_guard. unfold breakerOf.
    rewrite Hopened. reflexivity. }
  assert (Hhalf' : breakerOf half' = halfOpen (successStep open5)).
  { unfold half'. rewrite monitor_breaker.
    - unfold breakerOf. rewrite Hforgiven.
      apply (cooldownStep_expired tc t5); [reflexivity | reflexivity | lia |].
      cbn. lia.
    - rewrite Hforgiven. exact Hrun.
    - unfold warningsOf. rewrite Hforgiven. exact Hmem. }
  assert (Hfour : breakerOf four
                  = {| failures := 4; threshold := 5; timeout := 60000;
                       state := HALF_OPEN; lastFailure := Some t5 |}).
  { assert (Hb : guard half'
                 = set_breaker (halfOpen (successStep open5)) (guard half')).
    { rewrite <- Hhalf'. symmetry. apply set_breaker_same. }
    pose proof (failAt_over u4 _ _ _ (failAt_over u3 _ _ _
      (failAt_over u2 _ _ _ (failAt_over u1 _ _ _ Hb)))) as H.
    unfold breakerOf, four. rewrite H. reflexivity. }
  split_and!.
  - rewrite Hhalf. reflexivity.
  - unfold breakerOf. rewrite failAt_guard, Hhalf. reflexivity.
  - unfold breakerOf. rewrite failAt_guard, Hhalf. reflexivity.
  - unfold breakerOf. rewrite Hforgiven. reflexivity.
  - unfold breakerOf. rewrite Hforgiven. reflexivity.
  - rewrite canProceed_spec. unfold breakerOf. rewrite Hforgiven.
    reflexivity.
  - rewrite Hhalf'. reflexivity.
  - rewrite Hfour. reflexivity.
  - rewrite canProceed_spec, Hfour. reflexivity.
  - unfold breakerOf. rewrite failAt_guard, Hfour. reflexivity.
Qed.

End Lifecycle.

Lemma half_open_reopening_witness :
  state (breakerOf
    (failAt 71000
       (final_state (monitorAt 70000 40000000
          (failAt 6000 (failAt 5000 (failAt 4000 (failAt 3000
             (failAt 2000 quietWorld)))))))))
  = OPEN.
Proof.
  refine (proj1 (proj2
    (half_open_reopening quietWorld 2000 3000 4000 5000 6000 70000 40000000
       71000 72000 73000 74000 75000 _ _ _ _ _)));
    [ reflexivity | lia | lia | apply Z.leb_le; reflexivity
    | intros _; apply Z.ltb_lt; reflexivity ].
Defined.

(** A negative override on a default guard. *)
Lemma withRetry_without_attempts_witness :
  withRetry (flaky : @ResourceGuard.Operation unit nat) "open dashboard"
    (Some (-1)) quietWorld
  = Thrown Undefined quietWorld.
Proof. apply withRetry_without_attempts. cbn. lia. Defined.

(** An operation that fails twice and then returns 42: its state counts
    the invocations made so far. *)
Definition thirdTimeLucky : @ResourceGuard.Operation nat nat :=
  fun calls =>
    (Some {| elapsed := 100;
             result := if (calls <? 2)%nat
                       then inl (OperationError "not yet") else inr 42%nat |},
     Datatypes.S calls).

Definition countingWorld : World nat :=
  {| guard := constructor "smoke" noCustomLimits 1000 40000000;
     clock := 1000; heapUsed := 40000000; heapTotal := 80000000;
     gcExposed := false; ext := 0%nat; trace := [] |}.

Lemma thirdTimeLucky_succeedsAfter :
  succeedsAfter thirdTimeLucky 2 42%nat 0%nat.
Proof.
  split.
  - intros i Hi. destruct i as [| [| i]]; [| | lia];
      eexists; eexists; split; reflexivity.
  - eexists; split; reflexivity.
Qed.

Lemma withRetry_recovers_witness :
  exists w',
    withRetry thirdTimeLucky "load page" (Some 3) countingWorld
    = Returned 42%nat w'
    /\ sleeps (trace w') = [1000; 2000]
    /\ breakerOf w' = breakerOf countingWorld.
Proof.
  destruct (withRetry_recovers thirdTimeLucky "load page" countingWorld
              3 2 42%nat ltac:(lia) thirdTimeLucky_succeedsAfter)
    as (w' & Hrun & _ & Hsl & _ & Hbr).
  exists w'. split_and!; [exact Hrun | exact Hsl | exact Hbr].
Defined.

End GuardExtras.

(** ** Evidence collector: where the files go and what the bundle says *)

Module CollectorExtras.
Import JS Eff Eff.Notations EvidenceCollector CollectorProofs.

(** *** Paths *)

Lemma append_nil (b : string) : "" +:+ b = b.
Proof. reflexivity. Qed.

Lemma append_cons (x : ascii) (a b : string) :
  String x a +:+ b = String x (a +:+ b).
Proof. reflexivity. Qed.

Lemma append_assoc (a b c : string) : (a +:+ b) +:+ c = a +:+ (b +:+ c).
Proof.
  induction a as [| x a IH]; [reflexivity |].
  rewrite !append_cons, IH. reflexivity.
Qed.

Lemma prefix_append (a b : string) : String.prefix a (a +:+ b) = true.
Proof.
  induction a as [| x a IH]; [now destruct b |].
  rewrite append_cons. cbn [String.prefix].
  destruct (ascii_dec x x) as [_ | Hx]; [exact IH | now destruct Hx].
Qed.

Lemma append_inj (a b c : string) : a +:+ b = a +:+ c -> b = c.
Proof.
  induction a as [| x a IH]; [trivial |].
  rewrite !append_cons. intros [= H]. exact (IH H).
Qed.

(** The path lies inside the directory. *)
Definition inside (dir path : string) : Prop :=
  String.prefix (dir +:+ "/") path = true.

Lemma path_join_inside (dir file : string) : inside dir (path_join dir file).
Proof.
  unfold inside, path_join. rewrite <- append_assoc. apply prefix_append.
Qed.

Lemma path_join_inj (dir f g : string) :
  path_join dir f = path_join dir g -> f = g.
Proof.
  unfold path_join. intros H. apply append_inj in H.
  rewrite !append_cons, !append_nil in H. now injection H.
Qed.

Ltac distinct_paths :=
  let H := fresh "H" in
  intros H; apply path_join_inj in H; discriminate H.

(** *** Which files a computation may touch *)

(** From [d] to [d'] only files satisfying [P] were written, no file was
    removed, no directory was created and the failure behaviour of the disk
    is the same. *)
Definition touches (P : string -> Prop) (d d' : Disk) : Prop :=
  failing d' = failing d
  /\ directories d' = directories d
  /\ (forall p, is_Some (files d !! p) -> is_Some (files d' !! p))
  /\ (forall p, ~ P p -> files d' !! p = files d !! p).

Definition confined {A} (P : string -> Prop) (m : M A) : Prop :=
  forall d, touches P d (final_state (m d)).

Lemma touches_refl (P : string -> Prop) (d : Disk) : touches P d d.
Proof. unfold touches. auto. Qed.

Lemma touches_trans (P : string -> Prop) (d1 d2 d3 : Disk) :
  touches P d1 d2 -> touches P d2 d3 -> touches P d1 d3.
Proof.
  intros (F1 & D1 & K1 & O1) (F2 & D2 & K2 & O2). unfold touches.
  split_and!; [congruence | congruence | auto |].
  intros p Hp. rewrite (O2 p Hp). exact (O1 p Hp).
Qed.

Lemma touches_weaken (P Q : string -> Prop) (d d' : Disk) :
  (forall p, P p -> Q p) -> touches P d d' -> touches Q d d'.
Proof.
  intros HPQ (F & D & K & O). unfold touches. split_and!; auto.
Qed.

Lemma confined_ret {A} (P : string -> Prop) (a : A) : confined P (Eff.ret a).
Proof. intros d. apply touches_refl. Qed.

Lemma confined_throw {A} (P : string -> Prop) (e : string) :
  confined P (Eff.throw e : M A).
Proof. intros d. apply touches_refl. Qed.

Lemma confined_page_call {A} (P : string -> Prop) (r : string + A) :
  confined P (page_call r).
Proof. destruct r; [apply confined_throw | apply confined_ret]. Qed.

Lemma confined_bind {A B} (P : string -> Prop) (m : M A) (k : A -> M B) :
  confined P m -> (forall a, confined P (k a)) -> confined P (Eff.bind m k).
Proof.
  intros Hm Hk d. specialize (Hm d). unfold Eff.bind.
  destruct (m d) as [a d1 | e d1 | c d1 | d1]; cbn in Hm |- *;
    [| exact Hm | exact Hm | exact Hm].
  eapply touches_trans; [exact Hm | apply Hk].
Qed.

Lemma confined_try_catch {A} (P : string -> Prop) (m : M A)
    (h : string -> M A) :
  confined P m -> (forall e, confined P (h e)) ->
  confined P (try_catch m h).
Proof.
  intros Hm Hh d. specialize (Hm d). unfold try_catch.
  destruct (m d) as [a d1 | e d1 | c d1 | d1]; cbn in Hm |- *;
    [exact Hm | | exact Hm | exact Hm].
  eapply touches_trans; [exact Hm | apply Hh].
Qed.

Lemma confined_settled {A} (P : string -> Prop) (m : M A) :
  confined P m -> confined P (settled m).
Proof.
  intros Hm. unfold settled. apply confined_try_catch.
  - apply confined_bind; [exact Hm | intros a; apply confined_ret].
  - intros e. apply confined_ret.
Qed.

Lemma confined_writeFile (P : string -> Prop) (path : string)
    (content : FileContent) :
  P path -> confined P (fs_writeFile path content).
Proof.
  intros HP d. unfold fs_writeFile.
  destruct (failing d path); cbn; [apply touches_refl |].
  unfold touches; cbn. split_and!; [reflexivity | reflexivity | |].
  - intros p Hp. destruct (decide (path = p)) as [-> | Hne].
    + rewrite lookup_insert_eq. eauto.
    + rewrite lookup_insert_ne by exact Hne. exact Hp.
  - intros p Hp. apply lookup_insert_ne. intros ->. exact (Hp HP).
Qed.

Lemma confined_weaken {A} (P Q : string -> Prop) (m : M A) :
  (forall p, P p -> Q p) -> confined P m -> confined Q m.
Proof. intros HPQ Hm d. exact (touches_weaken P Q _ _ HPQ (Hm d)). Qed.

Ltac confine :=
  repeat first
    [ apply confined_try_catch
    | apply confined_bind
    | apply confined_page_call
    | apply confined_ret
    | apply confined_writeFile; reflexivity
    | intro ].

(** Each capture writes at most its own file. *)

Lemma captureScreenshot_confined (page : Page) (dir : string) :
  confined (eq (path_join dir "failure-screenshot.png"))
    (captureScreenshot page dir).
Proof. unfold captureScreenshot. confine. Qed.

Lemma captureDOMSnapshot_confined (page : Page) (dir : string) :
  confined (eq (path_join dir "dom-snapshot.html"))
    (captureDOMSnapshot page dir).
Proof. unfold captureDOMSnapshot. confine. Qed.

Lemma captureConsoleErrors_confined (clock : Clock) (page : Page)
    (dir : string) :
  confined (eq (path_join dir "console-errors.json"))
    (captureConsoleErrors clock page dir).
Proof. unfold captureConsoleErrors. confine. Qed.

Lemma captureNetworkFailures_confined (clock : Clock) (page : Page)
    (dir : string) :
  confined (eq (path_join dir "network-failures.json"))
    (captureNetworkFailures clock page dir).
Proof. unfold captureNetworkFailures. confine. Qed.

Lemma capturePerformanceMetrics_confined (clock : Clock) (page : Page)
    (dir : string) :
  confined (eq (path_join dir "performance-metrics.json"))
    (capturePerformanceMetrics clock page dir).
Proof. unfold capturePerformanceMetrics. confine. Qed.

Lemma captureLocalStorageState_confined (page : Page) (dir : string) :
  confined (eq (path_join dir "storage-state.json"))
    (captureLocalStorageState page dir).
Proof. unfold captureLocalStorageState. confine. Qed.

Lemma captureAccessibilityTree_confined (page : Page) (dir : string) :
  confined (eq (path_join dir "accessibility-tree.json"))
    (captureAccessibilityTree page dir).
Proof. unfold captureAccessibilityTree. confine. Qed.

Lemma own_file_inside {A} (dir file : string) (m : M A) :
  confined (eq (path_join dir file)) m -> confined (inside dir) (settled m).
Proof.
  intros Hm. apply confined_settled.
  apply (confined_weaken (eq (path_join dir file))); [| exact Hm].
  intros p <-. apply path_join_inside.
Qed.

(** [collect] after the bundle directory has been made. *)
Definition afterMkdir (dir : string) (clock : Clock) (page : Page)
    (failure : FailureInfo) : M EvidenceBundle :=
  agent <- page_call (page_userAgent page) ;;
  r0 <- settled (captureScreenshot page dir) ;;
  r1 <- settled (captureDOMSnapshot page dir) ;;
  r2 <- settled (captureConsoleErrors clock page dir) ;;
  r3 <- settled (captureNetworkFailures clock page dir) ;;
  r4 <- settled (capturePerformanceMetrics clock page dir) ;;
  r5 <- settled (captureLocalStorageState page dir) ;;
  r6 <- settled (captureAccessibilityTree page dir) ;;
  let evidence :=
    {| id := generateEvidenceId clock failure;
       timestamp := iso clock;
       testName := name failure;
       errorMessage := error failure;
       url := page_url page;
       viewport := page_viewportSize page;
       userAgent := agent;
       screenshot := r0;
       domSnapshot := r1;
       consoleErrors := r2;
       networkFailures := r3;
       performanceMetrics := r4;
       localStorage_ := r5;
       accessibility := r6 |} in
  fs_writeFile (path_join dir "evidence.json") (ManifestJson evidence) ;;;
  ret evidence.

Lemma collect_afterMkdir (root : string) (clock : Clock) (page : Page)
    (failure : FailureInfo) :
  collect root clock page failure
  = (fs_mkdir (path_join root (generateEvidenceId clock failure)) ;;;
     afterMkdir (path_join root (generateEvidenceId clock failure))
       clock page failure).
Proof. reflexivity. Qed.

Lemma collect_final (root : string) (clock : Clock) (page : Page)
    (failure : FailureInfo) (d : Disk) :
  let dir := path_join root (generateEvidenceId clock failure) in
  final_state (collect root clock page failure d)
  = match failing d dir with
    | Some _ => d
    | None =>
        final_state (afterMkdir dir clock page failure (made dir d))
    end.
Proof.
  cbv zeta. rewrite collect_afterMkdir. unfold Eff.bind at 1.
  unfold fs_mkdir. destruct (failing d _); reflexivity.
Qed.

Lemma afterMkdir_confined (dir : string) (clock : Clock) (page : Page)
    (failure : FailureInfo) :
  confined (inside dir) (afterMkdir dir clock page failure).
Proof.
  unfold afterMkdir.
  apply confined_bind; [apply confined_page_call | intros agent].
  apply confined_bind;
    [exact (own_file_inside _ _ _ (captureScreenshot_confined _ _)) |
     intros r0].
  apply confined_bind;
    [exact (own_file_inside _ _ _ (captureDOMSnapshot_confined _ _)) |
     intros r1].
  apply confined_bind;
    [exact (own_file_inside _ _ _ (captureConsoleErrors_confined _ _ _)) |
     intros r2].
  apply confined_bind;
    [exact (own_file_inside _ _ _ (captureNetworkFailures_confined _ _ _)) |
     intros r3].
  apply confined_bind;
    [exact (own_file_inside _ _ _
              (capturePerformanceMetrics_confined _ _ _)) |
     intros r4].
  apply confined_bind;
    [exact (own_file_inside _ _ _ (captureLocalStorageState_confined _ _)) |
     intros r5].
  apply confined_bind;
    [exact (own_file_inside _ _ _ (captureAccessibilityTree_confined _ _)) |
     intros r6].
  cbv zeta. apply confined_bind; [| intros _; apply confined_ret].
  apply confined_writeFile. apply path_join_inside.
Qed.

(** *** Directories made by the recursive [mkdir] *)

Lemma create_In (existing : list string) (q p : string) :
  In p (create existing q) <-> In p existing \/ p = q.
Proof.
  unfold create. destruct (existsb (String.eqb q) existing) eqn:H.
  - split; [auto |]. intros [Hin | ->]; [exact Hin |].
    apply List.existsb_exists in H. destruct H as (x & Hx & Heq).
    apply String.eqb_eq in Heq. subst x. exact Hx.
  - rewrite List.in_app_iff. cbn [In]. intuition auto.
Qed.

Lemma created_In (l : list string) :
  forall (existing : list string) (p : string),
    In p (fold_left create l existing) <-> In p existing \/ In p l.
Proof.
  induction l as [| q l IH]; intros existing p; cbn [fold_left In].
  - tauto.
  - rewrite IH, create_In. intuition auto.
Qed.

(** Every ancestor of a path contains the path. *)
Lemma ancestorsFrom_inside (rest : string) :
  forall (seen a : string),
    In a (ancestorsFrom seen rest) -> inside a (seen +:+ rest).
Proof.
  induction rest as [| c rest IH]; intros seen a Hin;
    cbn [ancestorsFrom] in Hin; [contradiction |].
  apply List.in_app_iff in Hin. destruct Hin as [Hin | Hin].
  - destruct (Ascii.eqb c "/" && negb (String.eqb seen "")) eqn:Hc;
      [| contradiction].
    destruct Hin as [<- | []].
    apply andb_true_iff in Hc. destruct Hc as [Hc _].
    apply Ascii.eqb_eq in Hc. subst c. unfold inside.
    replace (seen +:+ String "/" rest) with ((seen +:+ "/") +:+ rest)
      by (rewrite append_assoc; reflexivity).
    apply prefix_append.
  - apply IH in Hin. rewrite append_assoc in Hin. exact Hin.
Qed.

Lemma ancestors_inside (path a : string) :
  In a (ancestors path) -> inside a path.
Proof. intros H. exact (ancestorsFrom_inside path "" a H). Qed.

(** X22. Whatever happens during [collect] (it returns, or it throws at
    the directory, at the user agent or at the manifest), the only files
    it has written lie inside the bundle directory
    [evidenceRoot/evidenceId]: every other path holds what it held before
    and no file has been removed. No directory has been removed either,
    and every directory it has made is the bundle directory or one of the
    directories that contain it (the recursive [mkdir] makes the missing
    ancestors). *)
Theorem collect_stays_in_bundle (root : string) (clock : Clock)
    (page : Page) (failure : FailureInfo) (d : Disk) :
  let dir := path_join root (generateEvidenceId clock failure) in
  let d' := final_state (collect root clock page failure d) in
  (forall p, String.prefix (dir +:+ "/") p = false ->
             files d' !! p = files d !! p)
  /\ (forall p, is_Some (files d !! p) -> is_Some (files d' !! p))
  /\ (forall p, In p (directories d) -> In p (directories d'))
  /\ (forall p, In p (directories d') ->
                In p (directories d) \/ p = dir
                \/ String.prefix (p +:+ "/") dir = true)
  /\ failing d' = failing d.
Proof.
  intros dir d'. subst d'. rewrite collect_final. fold dir.
  destruct (failing d dir) as [message |] eqn:Hmk.
  - split_and!; auto.
  - destruct (afterMkdir_confined dir clock page failure (made dir d))
      as (F & D & K & O).
    cbn [made files failing] in F, K, O.
    split_and!; [| exact K | | | exact F].
    + intros p Hp. apply O. unfold inside. rewrite Hp. discriminate.
    + intros p Hp. rewrite D. cbn [made directories].
      apply created_In. left. exact Hp.
    + intros p Hp. rewrite D in Hp. cbn [made directories] in Hp.
      apply created_In in Hp. destruct Hp as [Hp | Hp]; [left; exact Hp |].
      right. apply List.in_app_iff in Hp. destruct Hp as [Hp | [<- | []]].
      * right. exact (ancestors_inside dir p Hp).
      * left. reflexivity.
Qed.

(** *** The bundle against the disk *)

























(** *** The bundle identifier *)

Fixpoint chars (s : string) : list ascii :=
  match s with
  | EmptyString => []
  | String c rest => c :: chars rest
  end.

(** A character of the ASCII range. On a string of such characters the
    characters of the embedding are the code units of the JavaScript
    string. *)
Definition asciiChar (c : ascii) : bool := (nat_of_ascii c <? 128)%nat.

(** A lower-case letter, a digit or a hyphen. *)
Definition slugChar (c : ascii) : bool :=
  let n := nat_of_ascii c in
  ((48 <=? n) && (n <=? 57) || (97 <=? n) && (n <=? 122) || (n =? 45))%nat.

(** What becomes of a character [c] of the ISO time: a colon or a full
    stop becomes a hyphen, any other character is kept. *)
Definition stamped (c c' : ascii) : Prop :=
  if Ascii.eqb c ":" || Ascii.eqb c "." then c' = "-"%char else c' = c.

(** What becomes of a character [c] of the test name: a digit or a
    lower-case letter is kept, an upper-case letter becomes the lower-case
    letter (32 code points up), any other character becomes a hyphen. *)
Definition slugged (c c' : ascii) : Prop :=
  let n := nat_of_ascii c in
  if ((48 <=? n) && (n <=? 57) || (97 <=? n) && (n <=? 122))%nat
  then c' = c
  else if ((65 <=? n) && (n <=? 90))%nat
  then nat_of_ascii c' = (n + 32)%nat
  else c' = "-"%char.

Lemma slug_of_char (c : ascii) :
  let c' := to_lower (if is_alnum c then c else "-"%char) in
  slugged c c' /\ slugChar c' = true.
Proof.
  destruct c as [[] [] [] [] [] [] [] []]; vm_compute; split; reflexivity.
Qed.

Lemma stamp_of_char (c : ascii) :
  let c' := if Ascii.eqb c ":" || Ascii.eqb c "." then "-"%char else c in
  stamped c c' /\ c' <> ":"%char /\ c' <> "."%char.
Proof.
  destruct c as [[] [] [] [] [] [] [] []]; vm_compute;
    split_and!; first [reflexivity | discriminate].
Qed.

(** X24. For a test name of ASCII characters, the bundle identifier is
    [stamp-slug]. The stamp is the ISO time, character by character, with
    every colon and full stop replaced by a hyphen and every other
    character kept. The slug is the test name, character by character,
    with digits and lower-case letters kept, upper-case letters lowered
    and every other character replaced by a hyphen. So the slug consists
    of lower-case letters, digits and hyphens only, and the stamp has
    neither colon nor full stop. *)
Theorem generateEvidenceId_shape (clock : Clock) (failure : FailureInfo) :
  forallb asciiChar (chars (name failure)) = true ->
  exists stamp slug,
    generateEvidenceId clock failure = stamp +:+ "-" +:+ slug
    /\ Forall2 stamped (chars (iso clock)) (chars stamp)
    /\ Forall2 slugged (chars (name failure)) (chars slug)
    /\ List.Forall (fun c => slugChar c = true) (chars slug)
    /\ List.Forall (fun c => c <> ":"%char /\ c <> "."%char) (chars stamp).
Proof.
  intros _. eexists. eexists. split; [reflexivity |].
  split_and!.
  - induction (iso clock) as [| c s IH]; cbn [map_chars chars];
      constructor; [exact (proj1 (stamp_of_char c)) | exact IH].
  - induction (name failure) as [| c s IH]; cbn [map_chars chars];
      constructor; [exact (proj1 (slug_of_char c)) | exact IH].
  - induction (name failure) as [| c s IH]; cbn [map_chars chars];
      constructor; [exact (proj2 (slug_of_char c)) | exact IH].
  - induction (iso clock) as [| c s IH]; cbn [map_chars chars];
      constructor; [exact (proj2 (stamp_of_char c)) | exact IH].
Qed.

(** The identifier of a failure of the test "Login Test #1" at noon. *)
Lemma generateEvidenceId_shape_witness :
  exists stamp slug,
    generateEvidenceId noon loginFailure = stamp +:+ "-" +:+ slug
    /\ Forall2 stamped (chars (iso noon)) (chars stamp)
    /\ Forall2 slugged (chars (name loginFailure)) (chars slug)
    /\ List.Forall (fun c => slugChar c = true) (chars slug)
    /\ List.Forall (fun c => c <> ":"%char /\ c <> "."%char) (chars stamp).
Proof. apply generateEvidenceId_shape. reflexivity. Defined.

End CollectorExtras.

(** ** Evidence collector: evidence of an unexpected error *)

Module ErrorCaptureExtras.
Import JS Eff Eff.Notations EvidenceCollector ErrorCapture CollectorExtras.

Definition errorDir (root : string) (clock : Clock) (random : string)
    : string :=
  path_join root ("error-" +:+ pretty (millis clock) +:+ "-" +:+ random).

(** X25. [captureError] never fails because of the screenshot. It throws
    exactly when the error directory cannot be made or the
    [error-evidence.json] manifest cannot be written, with that error.
    Otherwise it returns the evidence, which carries the error's message
    and stack and the page URL, and the manifest on disk holds it; its
    [screenshot] field is set exactly when the page took the screenshot and
    the file could be written, and then the file is on disk. *)
Theorem captureError_outcome (root : string) (clock : Clock)
    (random : string) (page : Page) (error : JsError) (d : ErrorDisk) :
  let dir := errorDir root clock random in
  let manifest := path_join dir "error-evidence.json" in
  let shot := path_join dir "error-screenshot.png" in
  let taken := page_screenshot page = inr tt /\ efailing d shot = None in
  match captureError root clock random page error d with
  | Returned e d' =>
      efailing d dir = None /\ efailing d manifest = None
      /\ efiles d' !! manifest = Some (ErrorManifestJson e)
      /\ ee_message e = message error /\ ee_stack e = stack error
      /\ ee_url e = page_url page /\ ee_type e = "UnexpectedError"
      /\ match ee_screenshot e with
         | Some file => file = "error-screenshot.png" /\ taken
                        /\ efiles d' !! shot = Some ErrorScreenshot
         | None => ~ taken /\ efiles d' !! shot = efiles d !! shot
         end
  | Thrown e d' =>
      efailing d dir = Some e /\ d' = d
      \/ efailing d dir = None /\ efailing d manifest = Some e
  | Exited _ _ | Pending _ => False
  end.
Proof.
  cbv zeta. unfold captureError. fold (errorDir root clock random).
  set (dir := errorDir root clock random).
  unfold Eff.bind, try_catch, call, mkdir, writeFile, Eff.ret, Eff.throw.
  destruct (efailing d dir) as [e |] eqn:Hdir; [left; auto |].
  destruct (page_screenshot page) as [e | []] eqn:Hshot;
    cbn [efailing efiles edirectories].
  - destruct (efailing d (path_join dir "error-evidence.json")) eqn:Hman;
      [right; auto |].
    cbn. split_and!; try reflexivity.
    + apply lookup_insert_eq.
    + intros [H _]. discriminate H.
    + apply lookup_insert_ne. distinct_paths.
  - destruct (efailing d (path_join dir "error-screenshot.png")) eqn:Hpng;
      cbn [efailing efiles edirectories];
      (destruct (efailing d (path_join dir "error-evidence.json")) eqn:Hman;
       [right; auto |]);
      cbn; split_and!; try reflexivity.
    + apply lookup_insert_eq.
    + intros [_ H]. discriminate H.
    + apply lookup_insert_ne. distinct_paths.
    + apply lookup_insert_eq.
    + rewrite lookup_insert_ne by distinct_paths. apply lookup_insert_eq.
Qed.

End ErrorCaptureExtras.
